(** * Gate.io percentage-sizing webhook: a shallow embedding

    The development follows [src/exchanges/gateio-futures.js]
    (class [GateIOFuturesTrader]) and the dispatcher [handleWebhook] of
    [src/webhook-handler.js], then the request authentication of
    [src/auth.js], the limiter of [src/middleware/rate-limiter.js] and the
    payload checks and executor routing of the Worker entry [src/index.js].

    Modelling conventions.
    - Numbers.  The trader, the dispatcher and the gateway are modelled over
      exact rationals ([Q]): a number is the rational it denotes, arithmetic
      is exact, and the values that [Number.isFinite] rejects are the strings
      that denote them.  This serves the properties of control flow, requests
      and orders, which do not turn on the last bit of a product.  The
      properties of the sizing arithmetic itself (the contract count, the
      allocation bound, the two forms of the percentage, the close-size
      conversion) are stated over [Binary64Trader]: the same functions with
      IEEE 754 binary64 arithmetic, where a literal is rounded to the nearest
      double when it is parsed and every product and quotient is rounded to
      nearest, ties to even ([Binary64]).
    - A JSON value received from the venue is a [jsval]; an object is the list
      of its properties, read with first-match lookup, so that putting a
      binding in front models assignment and object spread.
    - [await this.request(...)] is a call to the venue: the venue is a function
      of the requests issued so far, and every call is appended to a trace.
      A thrown [Error] is [Throw msg].
    - [console.log] and friends are omitted. *)

From Stdlib Require Import ZArith QArith Qround Qabs Qminmax Qpower.
From Stdlib Require Import Lia Lqa Bool List String Ascii.
From Stdlib Require Import Decimal DecimalString.
Import ListNotations.

Set Warnings "-register-all".

(** ** JavaScript values *)
Module Js.

Inductive jsval : Type :=
| JUndef
| JNull
| JBool (b : bool)
| JNum (q : Q)
| JStr (s : string)
| JArr (items : list jsval)
| JObj (props : list (string * jsval)).

(** Outcome of a call that may throw. *)
Inductive result (A : Type) : Type :=
| Ok (a : A)
| Throw (msg : string).
Arguments Ok {A} a.
Arguments Throw {A} msg.

Definition Qltb (x y : Q) : bool := negb (Qle_bool y x).

(** ToBoolean. *)
Definition truthy (v : jsval) : bool :=
  match v with
  | JUndef | JNull => false
  | JBool b => b
  | JNum q => negb (Qeq_bool q 0)
  | JStr s => negb (String.eqb s "")
  | JArr _ | JObj _ => true
  end.

Fixpoint lookup (k : string) (o : list (string * jsval)) : jsval :=
  match o with
  | [] => JUndef
  | (k', v) :: rest => if String.eqb k k' then v else lookup k rest
  end.

(** [v?.k] for a property name [k] that is neither an index nor [length]. *)
Definition getProp (v : jsval) (k : string) : jsval :=
  match v with
  | JObj o => lookup k o
  | _ => JUndef
  end.

(** [v.k]: reading a property of [null] or [undefined] is a TypeError. *)
Definition getPropStrict (v : jsval) (k : string) : result jsval :=
  match v with
  | JUndef | JNull => Throw "Cannot read properties of null"%string
  | _ => Ok (getProp v k)
  end.

(** [a || b] and [a ?? b]. *)
Definition jsOr (a b : jsval) : jsval := if truthy a then a else b.
Definition jsNullish (a b : jsval) : jsval :=
  match a with
  | JUndef | JNull => b
  | _ => a
  end.

(** [v === s] for a string [s]. *)
Definition strictEqStr (v : jsval) (s : string) : bool :=
  match v with
  | JStr t => String.eqb t s
  | _ => false
  end.

Definition isArray (v : jsval) : bool :=
  match v with
  | JArr _ => true
  | _ => false
  end.

(** *** parseFloat

    The longest prefix of the trimmed string that is a decimal literal:
    sign, digits, fraction, exponent.  [None] stands for NaN and for the
    literal [Infinity], the two results that [Number.isFinite] rejects.  The
    result is the rational the literal denotes; [Binary64Trader.parseNumber]
    rounds it to a double. *)
Definition isWhite (c : ascii) : bool :=
  let n := nat_of_ascii c in
  Nat.eqb n 32 || (Nat.leb 9 n && Nat.leb n 13).

Definition digitOf (c : ascii) : option Z :=
  let n := nat_of_ascii c in
  if Nat.leb 48 n && Nat.leb n 57 then Some (Z.of_nat (n - 48)) else None.

Fixpoint skipWhite (s : string) : string :=
  match s with
  | String c r => if isWhite c then skipWhite r else s
  | EmptyString => s
  end.

(** A maximal run of digits: its value, its length and what follows. *)
Fixpoint readDigits (acc : Z) (n : nat) (s : string) : Z * nat * string :=
  match s with
  | String c r =>
      match digitOf c with
      | Some d => readDigits (10 * acc + d)%Z (S n) r
      | None => (acc, n, s)
      end
  | EmptyString => (acc, n, s)
  end.

Definition readSign (s : string) : bool * string :=
  match s with
  | String "-"%char r => (true, r)
  | String "+"%char r => (false, r)
  | _ => (false, s)
  end.

Definition readExponent (s : string) : Z :=
  match s with
  | String c r =>
      if Ascii.eqb c "e" || Ascii.eqb c "E" then
        let '(eneg, r1) := readSign r in
        let '(ev, ne, _) := readDigits 0 0 r1 in
        if Nat.eqb ne 0 then 0%Z else if eneg then (- ev)%Z else ev
      else 0%Z
  | EmptyString => 0%Z
  end.

Definition parseFloat (s : string) : option Q :=
  let '(neg, s1) := readSign (skipWhite s) in
  let '(ip, ni, s2) := readDigits 0 0 s1 in
  let '(fp, nf, s3) :=
    match s2 with
    | String "."%char r => readDigits 0 0 r
    | _ => (0%Z, 0%nat, s2)
    end in
  if Nat.eqb (ni + nf) 0 then None
  else
    let mant := (inject_Z ip + inject_Z fp / inject_Z (10 ^ Z.of_nat nf))%Q in
    let v := (mant * Qpower (inject_Z 10) (readExponent s3))%Q in
    Some (if neg then (- v)%Q else v).

(** [typeof value === 'number' ? value : parseFloat(value)], kept when
    finite.  [parseFloat] first converts its argument to a string: an array
    is joined with commas, so only its first element can contribute, and a
    number prints to a literal that reads back as itself. *)
Fixpoint toFinite (v : jsval) : option Q :=
  match v with
  | JNum q => Some q
  | JStr s => parseFloat s
  | JArr (x :: _) =>
      match x with
      | JUndef | JNull => None
      | _ => toFinite x
      end
  | _ => None
  end.

(** Own enumerable properties copied by [{ ...v }]. *)
Definition indexKey (i : nat) : string := NilEmpty.string_of_uint (Nat.to_uint i).

Fixpoint charProps (i : nat) (s : string) : list (string * jsval) :=
  match s with
  | EmptyString => []
  | String c r => (indexKey i, JStr (String c EmptyString)) :: charProps (S i) r
  end.

Fixpoint itemProps (i : nat) (l : list jsval) : list (string * jsval) :=
  match l with
  | [] => []
  | x :: r => (indexKey i, x) :: itemProps (S i) r
  end.

Definition spread (v : jsval) : list (string * jsval) :=
  match v with
  | JObj o => o
  | JStr s => charProps 0 s
  | JArr l => itemProps 0 l
  | _ => []
  end.

End Js.
Import Js.

(** ** Calls to the venue *)
Module Venue.

(** The arguments of [this.request(method, endpoint, data, queryParams)]. *)
Record request : Type := {
  method : string;
  endpoint : string;
  data : jsval;
  query : string
}.

(** The venue answers a request knowing the requests made before it (oldest
    first): [Ok] carries the decoded body, [Throw] the error that [request]
    raises on a transport failure or a non-success status. *)
Definition venue : Type := list request -> request -> result jsval.

(** A computation reads the venue and extends the trace of requests. *)
Definition M (A : Type) : Type :=
  venue -> list request -> result A * list request.

Definition ret {A : Type} (a : A) : M A := fun _ tr => (Ok a, tr).

Definition throw {A : Type} (msg : string) : M A := fun _ tr => (Throw msg, tr).

Definition bind {A B : Type} (c : M A) (k : A -> M B) : M B :=
  fun v tr =>
    match c v tr with
    | (Ok a, tr') => k a v tr'
    | (Throw m, tr') => (Throw m, tr')
    end.

(** [try { c } catch (error) { h error.message }]. *)
Definition tryCatch {A : Type} (c : M A) (h : string -> M A) : M A :=
  fun v tr =>
    match c v tr with
    | (Ok a, tr') => (Ok a, tr')
    | (Throw m, tr') => h m v tr'
    end.

Definition lift {A : Type} (r : result A) : M A := fun _ tr => (r, tr).

Definition send (rq : request) : M jsval :=
  fun v tr => (v tr rq, tr ++ [rq]).

Definition run {A : Type} (c : M A) (v : venue) : result A * list request :=
  c v [].

End Venue.
Import Venue.

Notation "x <- c ;; k" := (bind c (fun x => k))
  (at level 61, c at next level, right associativity).

(** ** The trader: pure helpers

    Numbers are exact rationals in this module; [Binary64Trader] below has
    the parsing and the sizing arithmetic on doubles. *)
Module GateIOFuturesTrader.

(** The fields the constructor stores that the modelled methods read. *)
Record trader : Type := {
  settle : string;
  positionMode : string;
  defaultLeverage : Q
}.

Inductive side : Type := long | short.

(** [parseNumber(value, fallback)] with a numeric fallback (default 0). *)
Definition parseNumber (value : jsval) (fallback : Q) : Q :=
  match value with
  | JUndef | JNull => fallback
  | _ =>
      match toFinite value with
      | Some num => num
      | None => fallback
      end
  end.

(** [parseNumber(value, null)]. *)
Definition parseNumberOrNull (value : jsval) : option Q :=
  match value with
  | JUndef | JNull => None
  | _ => toFinite value
  end.

Definition normalizePercentage (amount : jsval) : result Q :=
  match parseNumberOrNull amount with
  | None => Throw "Amount must be a positive numeric percentage"%string
  | Some parsed =>
      if Qle_bool parsed 0 then
        Throw "Amount must be a positive numeric percentage"%string
      else Ok (if Qltb 1 parsed then parsed / 100 else parsed)
  end.

(** [base.replace('/', '_')]: the first slash only. *)
Fixpoint replaceSlash (s : string) : string :=
  match s with
  | EmptyString => EmptyString
  | String c r => if Ascii.eqb c "/" then String "_" r else String c (replaceSlash r)
  end.

(** [s.split(':')[0]]. *)
Fixpoint beforeColon (s : string) : string :=
  match s with
  | EmptyString => EmptyString
  | String c r => if Ascii.eqb c ":" then EmptyString else String c (beforeColon r)
  end.

Definition parseSymbol (ccxtSymbol : string) : string :=
  replaceSlash (beforeColon ccxtSymbol).

(** The loop shared by the extractors: the first candidate field whose parsed
    value is positive. *)
Fixpoint firstPositive (payload : jsval) (fields : list string) : option Q :=
  match fields with
  | [] => None
  | field :: rest =>
      let value := parseNumber (getProp payload field) 0 in
      if Qltb 0 value then Some value else firstPositive payload rest
  end.

(** [typeof v === 'object']. *)
Definition isObjectType (v : jsval) : bool :=
  match v with
  | JNull | JArr _ | JObj _ => true
  | _ => false
  end.

Definition orZero (o : option Q) : Q :=
  match o with
  | Some q => q
  | None => 0
  end.

Definition extractMarginAvailableBalance (marginAccount : jsval) : Q :=
  if negb (truthy marginAccount) || negb (isObjectType marginAccount) then 0
  else
    let quote := getProp marginAccount "quote" in
    let available := parseNumber (getProp quote "available") 0 in
    if truthy quote && isObjectType quote && Qltb 0 available then available
    else orZero (firstPositive marginAccount
                   ["available"; "available_balance"; "balance"]%string).

Definition extractAccountLeverage (accountPayload : jsval) : option Q :=
  if negb (truthy accountPayload) || negb (isObjectType accountPayload) then None
  else firstPositive accountPayload
         ["leverage"; "cross_leverage_limit"; "position_leverage";
          "long_leverage"; "short_leverage"; "max_leverage"]%string.

Definition determinePositionMode (t : trader) (position : jsval) : jsval :=
  if negb (truthy position) then JStr (positionMode t)
  else if truthy (getProp position "mode") then getProp position "mode"
  else if truthy (getProp position "position_mode")
       then getProp position "position_mode"
  else match getProp position "dual_mode" with
       | JBool b => JStr (if b then "dual_long_short" else "single")
       | _ => JStr (positionMode t)
       end.

Record leverageResolution : Type := {
  value : Q;
  source : string
}.

Definition leverageFields (sd : side) : list string :=
  match sd with
  | short => ["short_leverage"; "leverage"]%string
  | long => ["long_leverage"; "leverage"]%string
  end.

Definition resolveLeverageForSide (t : trader) (position : jsval)
    (fallbackLeverage : option Q) (fallbackSource : option string)
    (sd : side) : leverageResolution :=
  match (if truthy position then firstPositive position (leverageFields sd)
         else None) with
  | Some v => {| value := v; source := "position" |}
  | None =>
      match fallbackLeverage with
      | Some f =>
          if negb (Qeq_bool f 0) && Qltb 0 f then
            {| value := f;
               source := match fallbackSource with
                         | Some s => if String.eqb s "" then "account" else s
                         | None => "account"
                         end |}
          else {| value := if Qeq_bool (defaultLeverage t) 0 then 1
                           else defaultLeverage t;
                  source := "default" |}
      | None => {| value := if Qeq_bool (defaultLeverage t) 0 then 1
                            else defaultLeverage t;
                   source := "default" |}
      end
  end.

(** [positions.find(p => ...)] of [getSideSize]: reading [p.size] throws when
    an entry met before a match is [null]. *)
Fixpoint findSideEntry (sd : side) (l : list jsval) : result (option jsval) :=
  match l with
  | [] => Ok None
  | p :: rest =>
      match getPropStrict p "size" with
      | Throw m => Throw m
      | Ok sz =>
          let v := parseNumber sz 0 in
          if (match sd with long => Qltb 0 v | short => Qltb v 0 end)
          then Ok (Some p)
          else findSideEntry sd rest
      end
  end.

Definition sideSizeOfNet (position : jsval) (sd : side) : Q :=
  let size := parseNumber (getProp position "size") 0 in
  match sd with
  | long => if Qltb 0 size then size else 0
  | short => if Qltb size 0 then Qabs size else 0
  end.

Definition getSideSize (position : jsval) (sd : side) : result Q :=
  if negb (truthy position) then Ok 0
  else
    let directField :=
      match sd with
      | long => getProp position "long_size"
      | short => getProp position "short_size"
      end in
    match directField with
    | JUndef =>
        match getProp position "positions" with
        | JArr l =>
            match findSideEntry sd l with
            | Throw m => Throw m
            | Ok (Some entry) =>
                if truthy entry
                then Ok (Qabs (parseNumber (getProp entry "size") 0))
                else Ok (sideSizeOfNet position sd)
            | Ok None => Ok (sideSizeOfNet position sd)
            end
        | _ => Ok (sideSizeOfNet position sd)
        end
    | _ =>
        let parsed := parseNumber directField 0 in
        Ok (match sd with short => Qabs parsed | long => parsed end)
    end.

(** State of the [forEach] of [normalizePositionPayload] over an array
    payload: the two running sums and the first mode met. *)
Definition foldEntry (acc : Q * Q * jsval) (entry : jsval) : Q * Q * jsval :=
  let '(longSize, shortSize, mode) := acc in
  let size := parseNumber (getProp entry "size") 0 in
  let longSize' := if Qltb 0 size then longSize + size else longSize in
  let shortSize' :=
    if Qltb 0 size then shortSize
    else if Qltb size 0 then shortSize + size else shortSize in
  let mode' :=
    if negb (truthy mode) && truthy (getProp entry "mode")
    then getProp entry "mode"
    else if negb (truthy mode) then
      match getProp entry "dual_mode" with
      | JBool b => JStr (if b then "dual_long_short" else "single")
      | _ => mode
      end
    else mode in
  (longSize', shortSize', mode').

Definition normalizePositionPayload (rawPosition : jsval) (contract : string)
    : jsval :=
  if negb (truthy rawPosition) then JNull
  else
    match rawPosition with
    | JArr entries =>
        let '(longSize, shortSize, mode) :=
          fold_left foldEntry entries (0, 0, JNull) in
        JObj [("contract", JStr contract);
              ("long_size", JNum longSize);
              ("short_size", JNum shortSize);
              ("size", JNum (longSize + shortSize));
              ("positions", rawPosition);
              ("mode", jsOr mode JUndef)]%string
    | _ =>
        let baseContract := jsOr (getProp rawPosition "contract") (JStr contract) in
        let base := ("contract"%string, baseContract) :: spread rawPosition in
        let parsedSize := parseNumber (getProp rawPosition "size") 0 in
        let longSize0 := parseNumber (getProp rawPosition "long_size") 0 in
        let shortSize0 := parseNumber (getProp rawPosition "short_size") 0 in
        let longSize :=
          if Qeq_bool longSize0 0 || Qle_bool longSize0 0
          then (if Qltb 0 parsedSize then parsedSize else 0)
          else longSize0 in
        let shortSize :=
          if Qeq_bool shortSize0 0 || Qeq_bool shortSize0 0
          then (if Qltb parsedSize 0 then parsedSize else 0)
          else if Qltb 0 shortSize0 then - shortSize0
          else shortSize0 in
        let base' :=
          if isArray (lookup "positions" base) then base
          else
            ("positions"%string,
             JArr ((if Qltb 0 longSize
                    then [JObj [("contract", baseContract);
                                ("size", JNum longSize)]%string]
                    else []) ++
                   (if Qltb shortSize 0
                    then [JObj [("contract", baseContract);
                                ("size", JNum shortSize)]%string]
                    else []))) :: base in
        JObj (("long_size", JNum longSize) ::
              ("short_size", JNum shortSize) ::
              ("size", JNum (longSize + shortSize)) :: base')%string
    end.

(** The [reduce] of the list-endpoint fallback of [getPosition]. *)
Definition combineSizes (acc : Q * Q) (pos : jsval) : Q * Q :=
  let '(l, s) := acc in
  let size := parseNumber (getProp pos "size") 0 in
  if Qltb 0 size then (l + size, s)
  else if Qltb size 0 then (l, s + size)
  else (l, s).

(** [positions.filter(p => p.contract === contract)]. *)
Fixpoint filterContract (contract : string) (l : list jsval)
    : result (list jsval) :=
  match l with
  | [] => Ok []
  | p :: rest =>
      match getPropStrict p "contract" with
      | Throw m => Throw m
      | Ok c =>
          match filterContract contract rest with
          | Throw m => Throw m
          | Ok keep => Ok (if strictEqStr c contract then p :: keep else keep)
          end
      end
  end.

(** *** Methods that call the venue *)

Definition get (path params : string) : M jsval :=
  send {| method := "GET"; endpoint := path; data := JNull; query := params |}.

Definition post (path : string) (body : jsval) : M jsval :=
  send {| method := "POST"; endpoint := path; data := body; query := "" |}.

Definition futuresPath (t : trader) (rest : string) : string :=
  ("/api/v4/futures/" ++ settle t ++ rest)%string.

Definition ordersEndpoint (t : trader) : string := futuresPath t "/orders".

(** [result.find(item => item?.currency_pair === currencyPair)]. *)
Fixpoint findPair (currencyPair : string) (l : list jsval) : jsval :=
  match l with
  | [] => JUndef
  | item :: rest =>
      if strictEqStr (getProp item "currency_pair") currencyPair then item
      else findPair currencyPair rest
  end.

Definition getMarginAccount (t : trader) (symbol : string) : M jsval :=
  let currencyPair := parseSymbol symbol in
  tryCatch
    (result <- get "/api/v4/margin/user/account"
                   ("currency_pair=" ++ currencyPair) ;;
     match result with
     | JArr items =>
         ret (jsOr (jsOr (findPair currencyPair items) (hd JUndef items)) JNull)
     | _ =>
         if truthy result &&
            (strictEqStr (getProp result "currency_pair") currencyPair ||
             negb (truthy (getProp result "currency_pair")))
         then ret result
         else ret JNull
     end)
    (fun _ => ret JNull).

Definition getContract (t : trader) (symbol : string) : M jsval :=
  let contract := parseSymbol symbol in
  tryCatch
    (get (futuresPath t ("/contracts/" ++ contract)) "")
    (fun m => throw ("Failed to get contract info: " ++ m)).

(** The first [try] block of [getPosition]: the single-position endpoint.
    It yields [null] when the fetch fails or the payload is falsy. *)
Definition fetchSinglePosition (t : trader) (contract : string) : M jsval :=
  tryCatch
    (position <- get (futuresPath t ("/positions/" ++ contract)) "" ;;
     ret (normalizePositionPayload position contract))
    (fun _ => ret JNull).

(** The second [try] block of [getPosition]: the list endpoint, filtered by
    contract, followed by the final [return null]. *)
Definition fetchListedPosition (t : trader) (contract : string) : M jsval :=
  tryCatch
    (positions <- get (futuresPath t "/positions") "" ;;
     match positions with
     | JArr items =>
         contractPositions <- lift (filterContract contract items) ;;
         match contractPositions with
         | [] => ret JNull
         | _ :: _ =>
             let '(cl, cs) := fold_left combineSizes contractPositions (0, 0) in
             ret (JObj [("contract", JStr contract);
                        ("long_size", JNum cl);
                        ("short_size", JNum cs);
                        ("size", JNum (cl + cs));
                        ("positions", JArr contractPositions)]%string)
         end
     | _ => ret JNull
     end)
    (fun _ => ret JNull).

Definition getPosition (t : trader) (symbol : string) : M jsval :=
  let contract := parseSymbol symbol in
  normalized <- fetchSinglePosition t contract ;;
  if truthy normalized then ret normalized
  else fetchListedPosition t contract.

Definition contractSizeOf (contractInfo : jsval) : Q :=
  parseNumber (jsNullish (getProp contractInfo "quanto_multiplier")
                         (getProp contractInfo "contract_size")) 0.

Definition markPriceOf (contractInfo : jsval) : Q :=
  parseNumber (jsOr (jsOr (getProp contractInfo "mark_price")
                          (getProp contractInfo "last_price"))
                    (getProp contractInfo "index_price")) 0.

Record sizing : Type := {
  contract : string;
  contracts : Z;
  contractSize : Q;
  markPrice : Q;
  baseAmount : Q;
  notionalToAllocate : Q;
  leverage : Q;
  leverageSource : string;
  percentage : Q;
  sizingPositionMode : jsval
}.

(** [marginLeverage || null] and [marginLeverage ? 'margin' : null]. *)
Definition fallbackLeverageOf (marginLeverage : option Q) : option Q :=
  match marginLeverage with
  | Some l => if Qeq_bool l 0 then None else Some l
  | None => None
  end.

Definition fallbackSourceOf (marginLeverage : option Q) : option string :=
  match marginLeverage with
  | Some l => if Qeq_bool l 0 then None else Some "margin"%string
  | None => None
  end.

Definition calculateContractsFromPercentage (t : trader) (symbol : string)
    (amount : jsval) (sd : side) : M sizing :=
  percentage <- lift (normalizePercentage amount) ;;
  marginAccount <- getMarginAccount t symbol ;;
  let marginLeverage := extractAccountLeverage marginAccount in
  let marginBalance := extractMarginAvailableBalance marginAccount in
  if Qle_bool marginBalance 0 then
    throw "No available margin balance. Please transfer funds to your margin account for this symbol."
  else
    let fallbackLeverage := fallbackLeverageOf marginLeverage in
    let fallbackSource := fallbackSourceOf marginLeverage in
    let contract := parseSymbol symbol in
    contractInfo <- getContract t symbol ;;
    let contractSize := contractSizeOf contractInfo in
    let markPrice := markPriceOf contractInfo in
    if Qle_bool contractSize 0 then
      throw ("Unable to determine contract size for " ++ symbol)
    else if Qle_bool markPrice 0 then
      throw ("Unable to determine mark price for " ++ symbol)
    else
      position <- getPosition t symbol ;;
      let resolved :=
        resolveLeverageForSide t position fallbackLeverage fallbackSource sd in
      let leverage := value resolved in
      let positionMode := determinePositionMode t position in
      let notionalToAllocate := percentage * marginBalance * leverage in
      let baseAmount := notionalToAllocate / markPrice in
      let rawContracts := baseAmount / contractSize in
      let contracts := Qfloor rawContracts in
      if Z.eqb contracts 0 || Z.leb contracts 0 then
        throw "Calculated order size is zero. Increase percentage or ensure sufficient margin balance."
      else
        ret {| contract := contract;
               contracts := contracts;
               contractSize := contractSize;
               markPrice := markPrice;
               baseAmount := baseAmount;
               notionalToAllocate := notionalToAllocate;
               leverage := leverage;
               leverageSource := source resolved;
               percentage := percentage;
               sizingPositionMode := positionMode |}.

Record conversion : Type := {
  convContractSize : Q;
  convContracts : Z
}.

Definition convertBaseAmountToContracts (t : trader) (symbol : string)
    (amount : Q) : M conversion :=
  contractInfo <- getContract t symbol ;;
  let contractSize := contractSizeOf contractInfo in
  if Qle_bool contractSize 0 then
    throw ("Unable to determine contract size for " ++ symbol)
  else
    ret {| convContractSize := contractSize;
           convContracts := Z.abs (Qfloor (amount / contractSize)) |}.

(** The order object handed to [request('POST', ...)]. *)
Definition order (contract : string) (size : Q) (text : string)
    (reduceOnly : bool) : jsval :=
  JObj [("contract", JStr contract);
        ("size", JNum size);
        ("price", JStr "0");
        ("tif", JStr "ioc");
        ("text", JStr text);
        ("reduce_only", JBool reduceOnly)]%string.

Definition statusResult (status message : string) : jsval :=
  JObj [("status", JStr status); ("message", JStr message)]%string.

Definition marketBuy (t : trader) (symbol : string) (amount : jsval) : M jsval :=
  s <- calculateContractsFromPercentage t symbol amount long ;;
  tryCatch
    (post (ordersEndpoint t)
          (order (contract s) (inject_Z (contracts s)) "t-long-entry" false))
    (fun m => throw ("Market buy (long entry) failed: " ++ m)).

Definition openShort (t : trader) (symbol : string) (amount : jsval) : M jsval :=
  s <- calculateContractsFromPercentage t symbol amount short ;;
  tryCatch
    (post (ordersEndpoint t)
          (order (contract s) (- inject_Z (contracts s)) "t-short-entry" false))
    (fun m => throw ("Open short failed: " ++ m)).

(** The amount of a close is a number when it reaches the trader: the
    gateway stores [Number(payload.amount)] after checking that it is
    finite. *)
Definition marketSell (t : trader) (symbol : string) (amount : Q) : M jsval :=
  let contract := parseSymbol symbol in
  tryCatch
    (position <- getPosition t symbol ;;
     conv <- convertBaseAmountToContracts t symbol amount ;;
     let requestedContracts := convContracts conv in
     let mode := determinePositionMode t position in
     let isDualMode := strictEqStr mode "dual_long_short" in
     longSize <- lift (getSideSize position long) ;;
     if negb (truthy position) || Qle_bool longSize 0 then
       ret (statusResult "no_position" "No long position to close")
     else if Z.eqb requestedContracts 0 || Z.leb requestedContracts 0 then
       ret (statusResult "no_action"
              "Requested close size is below minimum contract size")
     else if isDualMode then
       let sizeToClose := Qmin (inject_Z requestedContracts) (Qabs longSize) in
       post (ordersEndpoint t) (order contract (- sizeToClose) "t-long-exit" true)
     else
       post (ordersEndpoint t)
            (order contract (- inject_Z requestedContracts) "t-long-exit" true))
    (fun m => throw ("Market sell (long exit) failed: " ++ m)).

Definition closeShort (t : trader) (symbol : string) (amount : Q) : M jsval :=
  let contract := parseSymbol symbol in
  tryCatch
    (position <- getPosition t symbol ;;
     conv <- convertBaseAmountToContracts t symbol amount ;;
     let requestedContracts := convContracts conv in
     let mode := determinePositionMode t position in
     let isDualMode := strictEqStr mode "dual_long_short" in
     shortSize <- lift (getSideSize position short) ;;
     if negb (truthy position) || Qle_bool shortSize 0 then
       ret (statusResult "no_position" "No short position to close")
     else if Z.eqb requestedContracts 0 || Z.leb requestedContracts 0 then
       ret (statusResult "no_action"
              "Requested close size is below minimum contract size")
     else if isDualMode then
       let sizeToClose := Qmin (inject_Z requestedContracts) (Qabs shortSize) in
       post (ordersEndpoint t) (order contract sizeToClose "t-short-exit" true)
     else
       post (ordersEndpoint t)
            (order contract (inject_Z requestedContracts) "t-short-exit" true))
    (fun m => throw ("Close short failed: " ++ m)).

(** *** Further methods of the class *)

(** [extractAvailableBalance]: the futures-account counterpart of
    [extractMarginAvailableBalance].  The default parameter [{}] replaces an
    [undefined] payload; reading a field of [null] is a TypeError. *)
Definition extractAvailableBalance (accountPayload : jsval) : result Q :=
  match accountPayload with
  | JNull => Throw "Cannot read properties of null"%string
  | _ =>
      Ok (orZero (firstPositive accountPayload
                    ["account_available_main"; "available"; "available_balance";
                     "available_margin"; "balance"; "total"]%string))
  end.

(** [result.find(item => item?.contract === contract)]. *)
Fixpoint findContract (contract : string) (l : list jsval) : jsval :=
  match l with
  | [] => JUndef
  | item :: rest =>
      if strictEqStr (getProp item "contract") contract then item
      else findContract contract rest
  end.

(** The local function [tryParseResult] of [getAccountForContract]. *)
Definition tryParseResult (contract : string) (result : jsval) : jsval :=
  if negb (truthy result) then JNull
  else
    match result with
    | JArr items => jsOr (findContract contract items) JNull
    | _ =>
        if strictEqStr (getProp result "contract") contract ||
           strictEqStr (getProp result "symbol") contract
        then result
        else JNull
    end.

(** One [try] block of [getAccountForContract]: fetch, parse, and [null]
    when the fetch throws or nothing matches. *)
Definition tryAccountEndpoint (contract path params : string) : M jsval :=
  tryCatch
    (result <- get path params ;;
     ret (tryParseResult contract result))
    (fun _ => ret JNull).

Definition getAccountForContract (t : trader) (symbol : string) : M jsval :=
  let contract := parseSymbol symbol in
  parsed <- tryAccountEndpoint contract (futuresPath t ("/accounts/" ++ contract)) "" ;;
  if truthy parsed then ret parsed
  else
    parsed' <- tryAccountEndpoint contract (futuresPath t "/accounts")
                 ("contract=" ++ contract) ;;
    if truthy parsed' then ret parsed' else ret JNull.

(** *** ab2hex

    [Array.from(new Uint8Array(buffer)).map(b => b.toString(16).padStart(2, '0')).join('')]. *)
Definition hexDigit (n : nat) : ascii :=
  nth n ["0"; "1"; "2"; "3"; "4"; "5"; "6"; "7"; "8"; "9";
         "a"; "b"; "c"; "d"; "e"; "f"]%char "0"%char.

(** [b.toString(16)] for a byte: one digit below 16, two otherwise. *)
Definition toString16 (b : Byte.byte) : string :=
  let n := Byte.to_nat b in
  if Nat.ltb n 16 then String (hexDigit n) EmptyString
  else String (hexDigit (n / 16)) (String (hexDigit (n mod 16)) EmptyString).

(** [s.padStart(2, '0')]. *)
Definition padStart2 (s : string) : string :=
  match String.length s with
  | O => "00"
  | S O => String "0" s
  | _ => s
  end.

Fixpoint ab2hex (buffer : list Byte.byte) : string :=
  match buffer with
  | [] => EmptyString
  | b :: rest => (padStart2 (toString16 b) ++ ab2hex rest)%string
  end.

End GateIOFuturesTrader.
Import GateIOFuturesTrader.

(** ** The dispatcher *)
Module WebhookHandler.

(** The payload after the gateway has validated it: [amount] and [leverage]
    are finite numbers. *)
Record payload : Type := {
  action : string;
  amount : Q;
  symbol : string;
  payloadLeverage : Q
}.

Record outcome : Type := {
  outAction : string;
  outSymbol : string;
  outAmount : Q;
  outOrder : jsval
}.

(** [handleWebhook] with a live trader, after the [validateOnly] branch.  The
    calls are written [trader.marketBuy(symbol, amount, leverage,
    requestContext)]; [marketBuy] and [openShort] declare the two parameters
    [(symbol, amount)], so the further arguments are not bound to anything.
    Trade logging is left out. *)
Definition handleWebhook (t : trader) (p : payload) : M outcome :=
  result <-
    (if String.eqb (action p) "long_entry" then
       marketBuy t (symbol p) (JNum (amount p))
     else if String.eqb (action p) "long_exit" then
       marketSell t (symbol p) (amount p)
     else if String.eqb (action p) "short_entry" then
       openShort t (symbol p) (JNum (amount p))
     else if String.eqb (action p) "short_exit" then
       closeShort t (symbol p) (amount p)
     else throw ("Unknown action: " ++ action p)) ;;
  ret {| outAction := action p;
         outSymbol := symbol p;
         outAmount := amount p;
         outOrder := result |}.

End WebhookHandler.
Import WebhookHandler.

(** ** Request authentication ([src/auth.js], in the copy whose error names
    the client address) *)
Module Auth.

(** What [request.headers.get] returns for the two headers read: the value,
    or [None] for [null]. *)
Record headers : Type := {
  cfConnectingIP : option string;
  xForwardedFor : option string
}.

(** The two variables of the environment that [validateRequest] reads;
    [None] when a variable is not set. *)
Record env : Type := {
  ENABLE_IP_WHITELIST : option string;
  WEBHOOK_SECRET : option string
}.

Record validation : Type := {
  valid : bool;
  error : option string
}.

Definition tradingViewIPs : list string :=
  ["52.89.214.238"; "34.212.75.30"; "54.218.53.128"; "52.32.178.7"]%string.

(** [s.split(',')[0]]. *)
Fixpoint beforeComma (s : string) : string :=
  match s with
  | EmptyString => EmptyString
  | String c r => if Ascii.eqb c "," then EmptyString else String c (beforeComma r)
  end.

(** [headers.get('CF-Connecting-IP') || headers.get('X-Forwarded-For')?.split(',')[0]];
    [None] stands for [null] and [undefined]. *)
Definition clientIP (h : headers) : option string :=
  match cfConnectingIP h with
  | Some ip => if String.eqb ip "" then option_map beforeComma (xForwardedFor h)
               else Some ip
  | None => option_map beforeComma (xForwardedFor h)
  end.

(** [clientIP || 'unknown']. *)
Definition ipOrUnknown (ip : option string) : string :=
  match ip with
  | Some s => if String.eqb s "" then "unknown" else s
  | None => "unknown"
  end.

Definition includes (l : list string) (x : string) : bool :=
  existsb (String.eqb x) l.

Definition validateRequest (h : headers) (e : env) (payload : jsval) : validation :=
  let ip := clientIP h in
  let whitelistOn :=
    match ENABLE_IP_WHITELIST e with
    | Some v => String.eqb v "true"
    | None => false
    end in
  let listed :=
    match ip with
    | Some s => negb (String.eqb s "") && includes tradingViewIPs s
    | None => false
    end in
  if whitelistOn && negb listed then
    {| valid := false;
       error := Some ("Unauthorized IP address: " ++ ipOrUnknown ip)%string |}
  else
    match WEBHOOK_SECRET e with
    | Some secret =>
        if negb (String.eqb secret "") && truthy payload &&
           negb (strictEqStr (getProp payload "secret") secret)
        then {| valid := false; error := Some "Invalid or missing secret token"%string |}
        else {| valid := true; error := None |}
    | None => {| valid := true; error := None |}
    end.

End Auth.

(** ** Request-rate limiting ([src/middleware/rate-limiter.js]) *)
Module RateLimiter.

(** The options kept by the constructor. *)
Record limiter : Type := {
  maxRequests : Q;
  windowMs : Q;
  keyPrefix : string
}.

(** [new RateLimiter(env, options)]: a falsy option takes the default. *)
Definition construct (optMax optWindow : option Q) (optPrefix : option string)
    : limiter :=
  {| maxRequests := match optMax with
                    | Some m => if Qeq_bool m 0 then 10 else m
                    | None => 10
                    end;
     windowMs := match optWindow with
                 | Some w => if Qeq_bool w 0 then 60000 else w
                 | None => 60000
                 end;
     keyPrefix := match optPrefix with
                  | Some k => if String.eqb k "" then "rate_limit:" else k
                  | None => "rate_limit:"
                  end |}.

(** The JSON document the limiter keeps under a key. *)
Record counter : Type := {
  count : Q;
  resetAt : Q
}.

(** A key of the KV namespace: the document and the time, in milliseconds,
    at which its [expirationTtl] runs out. *)
Record stored : Type := {
  document : counter;
  expiresAt : Q
}.

Definition namespace : Type := list (string * stored).

(** [RATE_LIMITER.get(key, 'json')] at time [now]: [None] for a key never
    written or already expired. *)
Fixpoint kvGet (now : Q) (key : string) (ns : namespace) : option counter :=
  match ns with
  | [] => None
  | (k, st) :: rest =>
      if String.eqb key k then
        (if Qltb now (expiresAt st) then Some (document st) else None)
      else kvGet now key rest
  end.

(** [RATE_LIMITER.put(key, JSON.stringify(doc), { expirationTtl })] at time
    [now]; the time to live is in seconds. *)
Definition kvPut (now : Q) (key : string) (doc : counter) (expirationTtl : Q)
    (ns : namespace) : namespace :=
  (key, {| document := doc; expiresAt := now + expirationTtl * 1000 |}) :: ns.

Definition getKey (l : limiter) (identifier : string) : string :=
  (keyPrefix l ++ identifier)%string.

(** [Math.max(60, Math.ceil(ms / 1000))]. *)
Definition ttlFor (ms : Q) : Q :=
  Qmax 60 (inject_Z (Qceiling (ms / 1000))).

(** [isRateLimited(identifier)], with [now] the value of [Date.now()] and
    [binding] the namespace [env.RATE_LIMITER], [None] when it is not
    configured.  Returns the answer and the namespace afterwards. *)
Definition isRateLimited (l : limiter) (identifier : string) (now : Q)
    (binding : option namespace) : bool * option namespace :=
  match binding with
  | None => (false, None)
  | Some ns =>
      let key := getKey l identifier in
      match kvGet now key ns with
      | None =>
          (false,
           Some (kvPut now key {| count := 1; resetAt := now + windowMs l |}
                       (ttlFor (windowMs l)) ns))
      | Some data =>
          if Qle_bool (resetAt data) now then
            (false,
             Some (kvPut now key {| count := 1; resetAt := now + windowMs l |}
                         (ttlFor (windowMs l)) ns))
          else if Qle_bool (maxRequests l) (count data) then (true, Some ns)
          else
            (false,
             Some (kvPut now key
                         {| count := count data + 1; resetAt := resetAt data |}
                         (ttlFor (resetAt data - now)) ns))
      end
  end.

(** A run of requests of one client at the given times. *)
Fixpoint serve (l : limiter) (identifier : string) (times : list Q)
    (binding : option namespace) : list bool * option namespace :=
  match times with
  | [] => ([], binding)
  | now :: later =>
      let '(limited, binding') := isRateLimited l identifier now binding in
      let '(answers, final) := serve l identifier later binding' in
      (limited :: answers, final)
  end.

End RateLimiter.

(** ** The gateway ([src/index.js]) *)
Module Gateway.

Fixpoint allWhite (s : string) : bool :=
  match s with
  | EmptyString => true
  | String c r => isWhite c && allWhite r
  end.

Definition radixDigit (c : ascii) : option Z :=
  let n := nat_of_ascii c in
  if Nat.leb 48 n && Nat.leb n 57 then Some (Z.of_nat (n - 48))
  else if Nat.leb 97 n && Nat.leb n 102 then Some (Z.of_nat (n - 87))
  else if Nat.leb 65 n && Nat.leb n 70 then Some (Z.of_nat (n - 55))
  else None.

Fixpoint readRadixDigits (radix acc : Z) (n : nat) (s : string)
    : Z * nat * string :=
  match s with
  | String c r =>
      match radixDigit c with
      | Some d =>
          if Z.ltb d radix then readRadixDigits radix (radix * acc + d)%Z (S n) r
          else (acc, n, s)
      | None => (acc, n, s)
      end
  | EmptyString => (acc, n, s)
  end.

(** The digits of a [0x], [0o] or [0b] literal, up to trailing white space. *)
Definition radixLiteral (radix : Z) (s : string) : option Q :=
  let '(v, n, rest) := readRadixDigits radix 0 0 s in
  if Nat.eqb n 0 then None
  else if allWhite rest then Some (inject_Z v) else None.

(** An exponent part, which needs a digit once its letter is there. *)
Definition exponentPart (s : string) : option (Z * string) :=
  match s with
  | String c r =>
      if Ascii.eqb c "e" || Ascii.eqb c "E" then
        let '(eneg, r1) := readSign r in
        let '(ev, ne, r2) := readDigits 0 0 r1 in
        if Nat.eqb ne 0 then None
        else Some (if eneg then (- ev)%Z else ev, r2)
      else Some (0%Z, s)
  | EmptyString => Some (0%Z, s)
  end.

Definition decimalLiteral (s : string) : option Q :=
  let '(neg, s1) := readSign s in
  let '(ip, ni, s2) := readDigits 0 0 s1 in
  let '(fp, nf, s3) :=
    match s2 with
    | String "."%char r => readDigits 0 0 r
    | _ => (0%Z, 0%nat, s2)
    end in
  if Nat.eqb (ni + nf) 0 then None
  else
    match exponentPart s3 with
    | Some (e, s4) =>
        if allWhite s4 then
          let mant := (inject_Z ip + inject_Z fp / inject_Z (10 ^ Z.of_nat nf))%Q in
          let v := (mant * Qpower (inject_Z 10) e)%Q in
          Some (if neg then (- v)%Q else v)
        else None
    | None => None
    end.

(** [Number(s)] for a string: the whole trimmed string must be a numeric
    literal; the empty string is 0.  [None] stands for NaN and for the two
    infinities. *)
Definition stringToNumber (s : string) : option Q :=
  let t := skipWhite s in
  if allWhite t then Some 0
  else
    match t with
    | String "0"%char (String x r) =>
        if Ascii.eqb x "x" || Ascii.eqb x "X" then radixLiteral 16 r
        else if Ascii.eqb x "o" || Ascii.eqb x "O" then radixLiteral 8 r
        else if Ascii.eqb x "b" || Ascii.eqb x "B" then radixLiteral 2 r
        else decimalLiteral t
    | _ => decimalLiteral t
    end.

(** [Number(v)].  An array converts through its string: empty it is 0, with
    one element it is that element's string, with more it contains a comma
    and is NaN. *)
Fixpoint toNumber (v : jsval) : option Q :=
  match v with
  | JUndef => None
  | JNull => Some 0
  | JBool b => Some (if b then 1 else 0)
  | JNum q => Some q
  | JStr s => stringToNumber s
  | JArr [] => Some 0
  | JArr [x] =>
      match x with
      | JUndef | JNull => Some 0
      | JBool _ | JObj _ => None
      | _ => toNumber x
      end
  | JArr (_ :: _ :: _) => None
  | JObj _ => None
  end.

(** Why the gateway answers without running the trade. *)
Inductive rejection : Type :=
| MissingField (field : string)
| InvalidAction
| AmountNotNumeric
| AmountOutOfRange
| LeverageNotNumeric
| LeverageOutOfRange
| PayloadTypeError.

(** The status of the response sent for a rejection: a TypeError raised by
    [payload[field]] falls into the outer [catch]. *)
Definition statusOf (r : rejection) : nat :=
  match r with
  | PayloadTypeError => 500
  | _ => 400
  end.

(** The payload after the checks, [amount] and [leverage] replaced by their
    numbers. *)
Record accepted : Type := {
  accAction : string;
  accAmount : Q;
  accSymbol : jsval;
  accLeverage : Q
}.

Definition validActions : list string :=
  ["long_entry"; "long_exit"; "short_entry"; "short_exit"]%string.

(** [payload[field] === undefined || payload[field] === null || payload[field] === '']. *)
Definition isBlank (v : jsval) : bool :=
  match v with
  | JUndef | JNull => true
  | JStr s => String.eqb s ""
  | _ => false
  end.

Fixpoint firstBlank (payload : jsval) (fields : list string) : option string :=
  match fields with
  | [] => None
  | field :: rest =>
      if isBlank (getProp payload field) then Some field
      else firstBlank payload rest
  end.

(** [validActions.includes(payload.action)]. *)
Definition actionOf (payload : jsval) : option string :=
  match getProp payload "action" with
  | JStr a => if Auth.includes validActions a then Some a else None
  | _ => None
  end.

(** The checks of [fetch] between authentication and symbol validation:
    required fields, action, amount range, leverage range. *)
Definition validatePayload (payload : jsval) : rejection + accepted :=
  match payload with
  | JUndef | JNull => inl PayloadTypeError
  | _ =>
      match firstBlank payload ["action"; "amount"; "symbol"; "leverage"]%string with
      | Some field => inl (MissingField field)
      | None =>
          match actionOf payload with
          | None => inl InvalidAction
          | Some a =>
              match toNumber (getProp payload "amount") with
              | None => inl AmountNotNumeric
              | Some amountValue =>
                  if Qle_bool amountValue 0 || Qltb 100 amountValue
                  then inl AmountOutOfRange
                  else
                    match toNumber (getProp payload "leverage") with
                    | None => inl LeverageNotNumeric
                    | Some leverageValue =>
                        if Qle_bool leverageValue 0 || Qltb 125 leverageValue
                        then inl LeverageOutOfRange
                        else inr {| accAction := a;
                                    accAmount := amountValue;
                                    accSymbol := getProp payload "symbol";
                                    accLeverage := leverageValue |}
                    end
              end
          end
      end
  end.

(** [String.prototype.toUpperCase] on the letters a to z; other characters
    of an ASCII string are left as they are. *)
Definition upperChar (c : ascii) : ascii :=
  let n := nat_of_ascii c in
  if Nat.leb 97 n && Nat.leb n 122 then ascii_of_nat (n - 32) else c.

Fixpoint toUpperCase (s : string) : string :=
  match s with
  | EmptyString => EmptyString
  | String c r => String (upperChar c) (toUpperCase r)
  end.

(** The name [executeTradeViaDurableObject] derives the executor from:
    [payload.symbol.toUpperCase()]. *)
Definition symbolKey (symbol : string) : string := toUpperCase symbol.

End Gateway.

(** ** IEEE 754 binary64 arithmetic

    The arithmetic of JavaScript numbers, as far as the sizing uses it:
    products and quotients rounded to the nearest double, ties to even, with
    gradual underflow and overflow to an infinity, [Math.floor], [Math.abs],
    comparison and ToBoolean. *)
Module Binary64.

(** A JavaScript number: a finite double, given by the rational it denotes,
    an infinity, or NaN.  The sign of zero is not represented: of the
    operations below only a division by zero could tell [-0] from [+0], and
    every divisor of the modelled code is tested positive first. *)
Inductive number : Type :=
| Num (x : Q)
| Inf (negative : bool)
| NaN.

(** [2^k], for negative [k] as well. *)
Definition pow2 (k : Z) : Q := Qpower 2 k.

(** [floor (log2 x)] for a positive [x]. *)
Definition ilog2 (x : Q) : Z :=
  let k := (Z.log2 (Qnum x) - Z.log2 (Zpos (Qden x)))%Z in
  if Qle_bool (pow2 k) x then k else (k - 1)%Z.

(** The integer nearest to [y], ties to the even one. *)
Definition nearestEven (y : Q) : Z :=
  let f := Qfloor y in
  match Qcompare (y - inject_Z f) (1 # 2) with
  | Lt => f
  | Gt => (f + 1)%Z
  | Eq => if Z.even f then f else (f + 1)%Z
  end.

(** The exponent of the unit in the last place of the doubles around a
    positive [x]: 53 significant bits, subnormal below [2^-1022]. *)
Definition exponentOf (x : Q) : Z := Z.max (ilog2 x - 52) (-1074).

(** A positive [x] rounded to the nearest multiple of [2^exponentOf x]. *)
Definition roundMagnitude (x : Q) : Q :=
  let e := exponentOf x in
  Qred (inject_Z (nearestEven (x / pow2 e)) * pow2 e).

(** The double nearest to the rational [x], ties to even: what reading a
    literal gives, and what an operation gives from its exact result.  A
    magnitude that rounds to [2^1024] or more overflows to an infinity; one
    below half the smallest subnormal rounds to zero. *)
Definition round (x : Q) : number :=
  match Qcompare x 0 with
  | Eq => Num 0
  | Gt => let y := roundMagnitude x in
          if Qle_bool (pow2 1024) y then Inf false else Num y
  | Lt => let y := roundMagnitude (- x) in
          if Qle_bool (pow2 1024) y then Inf true else Num (Qred (- y))
  end.

(** [a * b]. *)
Definition mul (a b : number) : number :=
  match a, b with
  | Num x, Num y => round (x * y)
  | Num x, Inf s | Inf s, Num x =>
      if Qeq_bool x 0 then NaN else Inf (xorb s (Qltb x 0))
  | Inf s, Inf s' => Inf (xorb s s')
  | _, _ => NaN
  end.

(** [a / b]; a zero divisor is taken as [+0]. *)
Definition div (a b : number) : number :=
  match a, b with
  | Num x, Num y =>
      if Qeq_bool y 0 then (if Qeq_bool x 0 then NaN else Inf (Qltb x 0))
      else round (x / y)
  | Num _, Inf _ => Num 0
  | Inf s, Num y => Inf (xorb s (Qltb y 0))
  | _, _ => NaN
  end.

(** [Math.floor] and [Math.abs]. *)
Definition floor (a : number) : number :=
  match a with
  | Num x => Num (inject_Z (Qfloor x))
  | _ => a
  end.

Definition abs (a : number) : number :=
  match a with
  | Num x => Num (Qabs x)
  | Inf _ => Inf false
  | NaN => NaN
  end.

(** [a <= b]: false as soon as one side is NaN. *)
Definition leb (a b : number) : bool :=
  match a, b with
  | Num x, Num y => Qle_bool x y
  | Inf true, Num _ | Num _, Inf false => true
  | Inf s, Inf s' => s || negb s'
  | _, _ => false
  end.

(** ToBoolean of a number. *)
Definition truthy (a : number) : bool :=
  match a with
  | Num x => negb (Qeq_bool x 0)
  | Inf _ => true
  | NaN => false
  end.

End Binary64.

(** ** The sizing arithmetic of the trader in binary64

    The functions of [GateIOFuturesTrader] that parse and compute numbers, on
    the way from the amount of a signal to a contract count, with numbers as
    doubles.  Each one is the function of the same name above with [round]
    applied where the source gets a number from a literal and [mul], [div]
    where it multiplies and divides.  A parsed number is finite by
    [Number.isFinite], hence a [Q]; a computed one is a [number].  The
    payloads are fetched by the same [getMarginAccount], [getContract] and
    [getPosition]; of the position the sizing reads the leverage fields,
    which the normalization copies unchanged, and the mode. *)
Module Binary64Trader.

Import Binary64.

(** [parseNumber(value, fallback)]: the literal is rounded to the nearest
    double, and a double that is not finite gives the fallback. *)
Definition parseNumber (value : jsval) (fallback : Q) : Q :=
  match value with
  | JUndef | JNull => fallback
  | _ =>
      match toFinite value with
      | Some literal =>
          match round literal with
          | Num num => num
          | _ => fallback
          end
      | None => fallback
      end
  end.

(** [parseNumber(value, null)]. *)
Definition parseNumberOrNull (value : jsval) : option Q :=
  match value with
  | JUndef | JNull => None
  | _ =>
      match toFinite value with
      | Some literal =>
          match round literal with
          | Num num => Some num
          | _ => None
          end
      | None => None
      end
  end.

(** [parsed > 1 ? parsed / 100 : parsed], the quotient being rounded. *)
Definition normalizePercentage (amount : jsval) : result number :=
  match parseNumberOrNull amount with
  | None => Throw "Amount must be a positive numeric percentage"%string
  | Some parsed =>
      if Qle_bool parsed 0 then
        Throw "Amount must be a positive numeric percentage"%string
      else Ok (if Qltb 1 parsed then div (Num parsed) (Num 100) else Num parsed)
  end.

(** The loop shared by the extractors, on doubles. *)
Fixpoint firstPositive (payload : jsval) (fields : list string) : option Q :=
  match fields with
  | [] => None
  | field :: rest =>
      let value := parseNumber (getProp payload field) 0 in
      if Qltb 0 value then Some value else firstPositive payload rest
  end.

Definition extractMarginAvailableBalance (marginAccount : jsval) : Q :=
  if negb (Js.truthy marginAccount) || negb (isObjectType marginAccount) then 0
  else
    let quote := getProp marginAccount "quote" in
    let available := parseNumber (getProp quote "available") 0 in
    if Js.truthy quote && isObjectType quote && Qltb 0 available then available
    else orZero (firstPositive marginAccount
                   ["available"; "available_balance"; "balance"]%string).

Definition extractAccountLeverage (accountPayload : jsval) : option Q :=
  if negb (Js.truthy accountPayload) || negb (isObjectType accountPayload) then None
  else firstPositive accountPayload
         ["leverage"; "cross_leverage_limit"; "position_leverage";
          "long_leverage"; "short_leverage"; "max_leverage"]%string.

(** [this.defaultLeverage || 1], the configured number being a double. *)
Definition defaultLeverageOr1 (t : trader) : number :=
  let configured := round (defaultLeverage t) in
  if truthy configured then configured else Num 1.

Record leverageResolution : Type := {
  value : number;
  source : string
}.

Definition resolveLeverageForSide (t : trader) (position : jsval)
    (fallbackLeverage : option Q) (fallbackSource : option string)
    (sd : side) : leverageResolution :=
  match (if Js.truthy position then firstPositive position (leverageFields sd)
         else None) with
  | Some v => {| value := Num v; source := "position" |}
  | None =>
      match fallbackLeverage with
      | Some f =>
          if negb (Qeq_bool f 0) && Qltb 0 f then
            {| value := Num f;
               source := match fallbackSource with
                         | Some s => if String.eqb s "" then "account" else s
                         | None => "account"
                         end |}
          else {| value := defaultLeverageOr1 t; source := "default" |}
      | None => {| value := defaultLeverageOr1 t; source := "default" |}
      end
  end.

Definition contractSizeOf (contractInfo : jsval) : Q :=
  parseNumber (jsNullish (getProp contractInfo "quanto_multiplier")
                         (getProp contractInfo "contract_size")) 0.

Definition markPriceOf (contractInfo : jsval) : Q :=
  parseNumber (jsOr (jsOr (getProp contractInfo "mark_price")
                          (getProp contractInfo "last_price"))
                    (getProp contractInfo "index_price")) 0.

(** The object the sizing returns.  [contracts] is a [number]: a product
    that overflows gives [Infinity], which passes both tests on the count. *)
Record sizing : Type := {
  contract : string;
  contracts : number;
  contractSize : Q;
  markPrice : Q;
  baseAmount : number;
  notionalToAllocate : number;
  leverage : number;
  leverageSource : string;
  percentage : number;
  sizingPositionMode : jsval
}.

Definition calculateContractsFromPercentage (t : trader) (symbol : string)
    (amount : jsval) (sd : side) : M sizing :=
  percentage <- lift (normalizePercentage amount) ;;
  marginAccount <- getMarginAccount t symbol ;;
  let marginLeverage := extractAccountLeverage marginAccount in
  let marginBalance := extractMarginAvailableBalance marginAccount in
  if Qle_bool marginBalance 0 then
    throw "No available margin balance. Please transfer funds to your margin account for this symbol."
  else
    let fallbackLeverage := fallbackLeverageOf marginLeverage in
    let fallbackSource := fallbackSourceOf marginLeverage in
    let contract := parseSymbol symbol in
    contractInfo <- getContract t symbol ;;
    let contractSize := contractSizeOf contractInfo in
    let markPrice := markPriceOf contractInfo in
    if Qle_bool contractSize 0 then
      throw ("Unable to determine contract size for " ++ symbol)
    else if Qle_bool markPrice 0 then
      throw ("Unable to determine mark price for " ++ symbol)
    else
      position <- getPosition t symbol ;;
      let resolved :=
        resolveLeverageForSide t position fallbackLeverage fallbackSource sd in
      let leverage := value resolved in
      let positionMode := determinePositionMode t position in
      let notionalToAllocate := mul (mul percentage (Num marginBalance)) leverage in
      let baseAmount := div notionalToAllocate (Num markPrice) in
      let rawContracts := div baseAmount (Num contractSize) in
      let contracts := floor rawContracts in
      if negb (truthy contracts) || leb contracts (Num 0) then
        throw "Calculated order size is zero. Increase percentage or ensure sufficient margin balance."
      else
        ret {| contract := contract;
               contracts := contracts;
               contractSize := contractSize;
               markPrice := markPrice;
               baseAmount := baseAmount;
               notionalToAllocate := notionalToAllocate;
               leverage := leverage;
               leverageSource := source resolved;
               percentage := percentage;
               sizingPositionMode := positionMode |}.

Record conversion : Type := {
  convContractSize : Q;
  convContracts : number
}.

(** [Math.abs(Math.floor(amount / contractSize))], the amount being the
    number the gateway stored. *)
Definition convertBaseAmountToContracts (t : trader) (symbol : string)
    (amount : number) : M conversion :=
  contractInfo <- getContract t symbol ;;
  let contractSize := contractSizeOf contractInfo in
  if Qle_bool contractSize 0 then
    throw ("Unable to determine contract size for " ++ symbol)
  else
    ret {| convContractSize := contractSize;
           convContracts := abs (floor (div amount (Num contractSize))) |}.

End Binary64Trader.

(** ** Venues and inputs used to run the model *)
Module Scenarios.

Definition btc : string := "BTC/USDT:USDT".

Definition usdtTrader : trader :=
  {| settle := "usdt"; positionMode := "dual_long_short"; defaultLeverage := 1 |}.

(** A venue that answers the margin-account, contract and single-position
    requests for BTC_USDT with the given outcomes, acknowledges every order
    and has nothing else. *)
Definition venueOf (margin contractInfo position : result jsval) : venue :=
  fun _ rq =>
    if String.eqb (endpoint rq) "/api/v4/margin/user/account" then margin
    else if String.eqb (endpoint rq) "/api/v4/futures/usdt/contracts/BTC_USDT"
         then contractInfo
    else if String.eqb (endpoint rq) "/api/v4/futures/usdt/positions/BTC_USDT"
         then position
    else if String.eqb (method rq) "POST"
         then Ok (JObj [("id", JNum 1); ("size", getProp (data rq) "size")]%string)
    else Throw "Gate.io API error (404): not found".

Definition marginAccount (available lev : string) : jsval :=
  JObj [("currency_pair", JStr "BTC_USDT");
        ("quote", JObj [("available", JStr available)]);
        ("leverage", JStr lev)]%string.

Definition contractInfo (multiplier mark : string) : jsval :=
  JObj [("name", JStr "BTC_USDT");
        ("quanto_multiplier", JStr multiplier);
        ("mark_price", JStr mark)]%string.

(** 1000 available at 5x on the margin account, mark price 100, contract
    size 1, no position. *)
Definition sizingVenue : venue :=
  venueOf (Ok (marginAccount "1000" "5")) (Ok (contractInfo "1" "100"))
          (Throw "Gate.io API error (404): position not found").

(** As above with 3x on the margin account and an open position whose
    leverage is 10x. *)
Definition leveragedVenue : venue :=
  venueOf (Ok (marginAccount "1000" "3")) (Ok (contractInfo "1" "100"))
          (Ok (JObj [("contract", JStr "BTC_USDT"); ("size", JNum 0);
                     ("leverage", JStr "10")]%string)).

(** Two legs, 3 long and 2 short, no mode reported. *)
Definition hedgedVenue : venue :=
  venueOf (Ok (marginAccount "1000" "5")) (Ok (contractInfo "1" "100"))
          (Ok (JArr [JObj [("contract", JStr "BTC_USDT"); ("size", JNum 3)];
                     JObj [("contract", JStr "BTC_USDT"); ("size", JNum (-2))]]%string)).

(** No exposure on either side. *)
Definition flatVenue : venue :=
  venueOf (Ok (marginAccount "1000" "5")) (Ok (contractInfo "1" "100"))
          (Ok (JObj [("contract", JStr "BTC_USDT"); ("size", JNum 0)]%string)).

(** Every request fails. *)
Definition downVenue : venue := fun _ _ => Throw "fetch failed".

Definition entrySignal (lev : Q) : payload :=
  {| action := "long_entry"; amount := 10; symbol := btc; payloadLeverage := lev |}.

(** 63450.02413273 available at 39x, mark price 129041, contract size 0.01,
    no position. *)
Definition roundingVenue : venue :=
  venueOf (Ok (marginAccount "63450.02413273" "39"))
          (Ok (contractInfo "0.01" "129041"))
          (Throw "Gate.io API error (404): position not found").

(** 100 available at 1x, mark price 1, contract size 1, no position. *)
Definition unitVenue : venue :=
  venueOf (Ok (marginAccount "100" "1")) (Ok (contractInfo "1" "1"))
          (Throw "Gate.io API error (404): position not found").

(** Contract size 0.1, no exposure. *)
Definition tenthVenue : venue :=
  venueOf (Ok (marginAccount "1000" "5")) (Ok (contractInfo "0.1" "100"))
          (Ok (JObj [("contract", JStr "BTC_USDT"); ("size", JNum 0)]%string)).

End Scenarios.
Import Scenarios.

(** ** Properties *)


(** The requests a call adds to the trace. *)
Definition onlyGets (ext : list request) : Prop :=
  Forall (fun rq => method rq = "GET"%string) ext.

(** A computation that extends the trace with GET requests only. *)
Definition readsOnly {A : Type} (c : M A) : Prop :=
  forall v tr, exists ext, snd (c v tr) = tr ++ ext /\ onlyGets ext.

Definition isOrderSubmission (t : trader) (rq : request) : bool :=
  String.eqb (method rq) "POST" && String.eqb (endpoint rq) (ordersEndpoint t).

(** The orders submitted among the requests [ext]. *)
Definition placedOrders (t : trader) (ext : list request) : list jsval :=
  map data (filter (isOrderSubmission t) ext).

(** The per-side leverage field that [resolveLeverageForSide] reads first. *)
Definition sideLeverageField (sd : side) : string :=
  match sd with
  | long => "long_leverage"
  | short => "short_leverage"
  end.

(** Nothing to close on side [sd]: the position is absent, or the size of
    that side is not positive. *)
Definition sideAbsentOrFlat (position : jsval) (sd : side) : Prop :=
  truthy position = false \/
  exists size, getSideSize position sd = Ok size /\ size <= 0.

(** The request that submits an order. *)
Definition orderRequest (t : trader) (body : jsval) : request :=
  {| method := "POST"; endpoint := ordersEndpoint t; data := body; query := "" |}.

(** Whether the character [c] occurs in [s]. *)
Fixpoint occurs (c : ascii) (s : string) : bool :=
  match s with
  | EmptyString => false
  | String c' r => Ascii.eqb c c' || occurs c r
  end.

(** Both candidate fields of the position are without positive leverage for
    side [sd], or there is no position at all. *)
Definition noPositionLeverage (position : jsval) (sd : side) : Prop :=
  truthy position = false \/
  (parseNumber (getProp position (sideLeverageField sd)) 0 <= 0 /\
   parseNumber (getProp position "leverage") 0 <= 0).

(** [fallbackSource || 'account']. *)
Definition sourceOrAccount (fallbackSource : option string) : string :=
  match fallbackSource with
  | Some s => if String.eqb s "" then "account" else s
  | None => "account"
  end.

(** [{ value: this.defaultLeverage || 1, source: 'default' }]. *)
Definition defaultResolution (t : trader) : leverageResolution :=
  {| value := if Qeq_bool (defaultLeverage t) 0 then 1 else defaultLeverage t;
     source := "default" |}.

(** An entry of an array payload that says nothing about the position
    mode: no truthy [mode], no boolean [dual_mode]. *)
Definition withoutModeInfo (entry : jsval) : Prop :=
  truthy (getProp entry "mode") = false /\
  forall b, getProp entry "dual_mode" <> JBool b.

(** The request [getMarginAccount] sends. *)
Definition marginRequest (symbol : string) : request :=
  {| method := "GET"; endpoint := "/api/v4/margin/user/account"; data := JNull;
     query := ("currency_pair=" ++ parseSymbol symbol)%string |}.

(** The request [getContract] sends. *)
Definition contractRequest (t : trader) (symbol : string) : request :=
  {| method := "GET";
     endpoint := futuresPath t ("/contracts/" ++ parseSymbol symbol);
     data := JNull; query := "" |}.

Definition noBalanceMessage : string :=
  "No available margin balance. Please transfer funds to your margin account for this symbol.".

(** What a venue call made inside [try { ... } catch] with a prefixing
    handler evaluates to. *)
Definition wrapFailure (prefix : string) (r : result jsval) : result jsval :=
  match r with
  | Ok a => Ok a
  | Throw m => Throw (prefix ++ m)%string
  end.

(** The action is one of the two exits. *)
Definition isExit (a : string) : bool :=
  String.eqb a "long_exit" || String.eqb a "short_exit".

(** The prefixes the two closes put before every error they rethrow. *)
Definition longExitPrefix : string := "Market sell (long exit) failed: ".
Definition shortExitPrefix : string := "Close short failed: ".

(** The two requests [getPosition] can send. *)
Definition positionRequest (t : trader) (symbol : string) : request :=
  {| method := "GET";
     endpoint := futuresPath t ("/positions/" ++ parseSymbol symbol);
     data := JNull; query := "" |}.

Definition positionsRequest (t : trader) : request :=
  {| method := "GET"; endpoint := futuresPath t "/positions";
     data := JNull; query := "" |}.

(** The payload names the contract, in [contract] or in [symbol]. *)
Definition namesContract (contract : string) (payload : jsval) : bool :=
  strictEqStr (getProp payload "contract") contract ||
  strictEqStr (getProp payload "symbol") contract.

(** The state of the limiter for one key while a window that ends at
    [windowEnd] is running: the key's newest document counts [admitted]
    requests, resets at [windowEnd] and does not expire before. *)
Definition windowOpen (key : string) (windowEnd : Q) (admitted : nat)
    (ns : RateLimiter.namespace) : Prop :=
  exists st rest,
    ns = (key, st) :: rest /\
    RateLimiter.resetAt (RateLimiter.document st) == windowEnd /\
    RateLimiter.count (RateLimiter.document st) == inject_Z (Z.of_nat admitted) /\
    windowEnd <= RateLimiter.expiresAt st.

(** A payload whose four fields have the types the gateway documents. *)
Definition signal (a : string) (x : Q) (s : string) (l : Q) : jsval :=
  JObj [("action", JStr a); ("amount", JNum x); ("symbol", JStr s);
        ("leverage", JNum l)]%string.

(** Every character of the string is an ASCII character. *)
Fixpoint allAscii (s : string) : bool :=
  match s with
  | EmptyString => true
  | String c r => Nat.ltb (nat_of_ascii c) 128 && allAscii r
  end.

(** A magnitude between [2^-200] and [2^200]. *)
Definition ordinary (x : Q) : Prop :=
  Binary64.pow2 (-200) <= x /\ x <= Binary64.pow2 200.

(** Two numbers with the same value. *)
Definition sameNumber (a b : Binary64.number) : Prop :=
  match a, b with
  | Binary64.Num x, Binary64.Num y => x == y
  | Binary64.Inf s, Binary64.Inf s' => s = s'
  | _, _ => False
  end.

(** Two outcomes of the normalization agree: the same error, or fractions
    with the same value. *)
Definition sameOutcome (a b : result Binary64.number) : Prop :=
  match a, b with
  | Ok x, Ok y => sameNumber x y
  | Throw m, Throw n => m = n
  | _, _ => False
  end.

(** A contract count that passes [!contracts || contracts <= 0]. *)
Definition positiveCount (k : Binary64.number) : Prop :=
  match k with
  | Binary64.Num x => 0 < x
  | Binary64.Inf negative => negative = false
  | Binary64.NaN => False
  end.

(** The shape every position handed to the order logic has. *)
Definition positionInvariant (position : jsval) : Prop :=
  exists longSize shortSize size : Q,
    getProp position "long_size" = JNum longSize /\
    getProp position "short_size" = JNum shortSize /\
    getProp position "size" = JNum size /\
    0 <= longSize /\ shortSize <= 0 /\ size == longSize + shortSize.

Lemma Qltb_true (x y : Q) : Qltb x y = true <-> x < y.
Proof.
  unfold Qltb. rewrite negb_true_iff.
  split; intro H.
  - apply Qnot_le_lt. intro L. apply Qle_bool_iff in L. congruence.
  - destruct (Qle_bool y x) eqn:E; [|reflexivity].
    apply Qle_bool_iff in E. exfalso. apply (Qlt_not_le _ _ H E).
Qed.

Lemma Qltb_false (x y : Q) : Qltb x y = false <-> y <= x.
Proof.
  unfold Qltb. rewrite negb_false_iff. apply Qle_bool_iff.
Qed.

Lemma Qle_bool_false (x y : Q) : Qle_bool x y = false <-> y < x.
Proof.
  rewrite <- Qltb_true. unfold Qltb.
  destruct (Qle_bool x y); simpl; split; congruence.
Qed.

Lemma normalizePercentage_num (a : Q) :
  0 < a ->
  normalizePercentage (JNum a) = Ok (if Qltb 1 a then a / 100 else a).
Proof.
  intro H. unfold normalizePercentage. simpl.
  apply Qle_bool_false in H. rewrite H. reflexivity.
Qed.

(** *** Comparisons on rationals *)

Lemma Qeq_bool_false (x y : Q) : Qeq_bool x y = false -> ~ x == y.
Proof.
  intros E H. apply Qeq_bool_iff in H. congruence.
Qed.

(** Turns the boolean tests of the embedding into order facts. *)
Ltac qtests :=
  repeat match goal with
  | H : Qltb _ _ = true |- _ => apply Qltb_true in H
  | H : Qltb _ _ = false |- _ => apply Qltb_false in H
  | H : Qle_bool _ _ = true |- _ => apply Qle_bool_iff in H
  | H : Qle_bool _ _ = false |- _ => apply Qle_bool_false in H
  | H : Qeq_bool _ _ = true |- _ => apply Qeq_bool_iff in H
  | H : Qeq_bool _ _ = false |- _ => apply Qeq_bool_false in H
  end.

(** *** The position invariant *)

Lemma foldEntry_signs (entries : list jsval) :
  forall (l s : Q) (m : jsval),
    0 <= l -> s <= 0 ->
    0 <= fst (fst (fold_left foldEntry entries (l, s, m))) /\
    snd (fst (fold_left foldEntry entries (l, s, m))) <= 0.
Proof.
  induction entries as [|e rest IH]; intros l s m Hl Hs; simpl.
  - split; assumption.
  - unfold foldEntry at 2.
    set (size := parseNumber (getProp e "size") 0).
    destruct (Qltb 0 size) eqn:Epos.
    + apply IH; [qtests; lra | assumption].
    + destruct (Qltb size 0) eqn:Eneg.
      * apply IH; [assumption | qtests; lra].
      * apply IH; assumption.
Qed.

Lemma combineSizes_signs (items : list jsval) :
  forall l s : Q,
    0 <= l -> s <= 0 ->
    0 <= fst (fold_left combineSizes items (l, s)) /\
    snd (fold_left combineSizes items (l, s)) <= 0.
Proof.
  induction items as [|e rest IH]; intros l s Hl Hs; simpl.
  - split; assumption.
  - unfold combineSizes at 2.
    set (size := parseNumber (getProp e "size") 0).
    destruct (Qltb 0 size) eqn:Epos.
    + apply IH; [qtests; lra | assumption].
    + destruct (Qltb size 0) eqn:Eneg.
      * apply IH; [assumption | qtests; lra].
      * apply IH; assumption.
Qed.

Lemma normalize_array_invariant (entries : list jsval) (contract : string) :
  positionInvariant (normalizePositionPayload (JArr entries) contract).
Proof.
  unfold normalizePositionPayload. simpl truthy. simpl negb. cbv iota.
  pose proof (foldEntry_signs entries 0 0 JNull (Qle_refl 0) (Qle_refl 0)) as [Hl Hs].
  destruct (fold_left foldEntry entries (0, 0, JNull)) as [[l s] m].
  simpl in Hl, Hs.
  exists l, s, (l + s). simpl.
  repeat split; try reflexivity; assumption.
Qed.

Lemma normalize_object_invariant (raw : jsval) (contract : string) :
  truthy raw = true -> isArray raw = false ->
  positionInvariant (normalizePositionPayload raw contract).
Proof.
  intros Ht Ha.
  assert (E : normalizePositionPayload raw contract =
    let baseContract := jsOr (getProp raw "contract") (JStr contract) in
    let base := ("contract"%string, baseContract) :: spread raw in
    let parsedSize := parseNumber (getProp raw "size") 0 in
    let longSize0 := parseNumber (getProp raw "long_size") 0 in
    let shortSize0 := parseNumber (getProp raw "short_size") 0 in
    let longSize :=
      if Qeq_bool longSize0 0 || Qle_bool longSize0 0
      then (if Qltb 0 parsedSize then parsedSize else 0)
      else longSize0 in
    let shortSize :=
      if Qeq_bool shortSize0 0 || Qeq_bool shortSize0 0
      then (if Qltb parsedSize 0 then parsedSize else 0)
      else if Qltb 0 shortSize0 then - shortSize0
      else shortSize0 in
    let base' :=
      if isArray (lookup "positions" base) then base
      else
        ("positions"%string,
         JArr ((if Qltb 0 longSize
                then [JObj [("contract", baseContract);
                            ("size", JNum longSize)]%string]
                else []) ++
               (if Qltb shortSize 0
                then [JObj [("contract", baseContract);
                            ("size", JNum shortSize)]%string]
                else []))) :: base in
    JObj (("long_size", JNum longSize) ::
          ("short_size", JNum shortSize) ::
          ("size", JNum (longSize + shortSize)) :: base')%string).
  { unfold normalizePositionPayload. rewrite Ht. simpl negb. cbv iota.
    destruct raw; try reflexivity. discriminate Ha. }
  rewrite E. clear E. cbv zeta.
  set (parsedSize := parseNumber (getProp raw "size") 0).
  set (longSize0 := parseNumber (getProp raw "long_size") 0).
  set (shortSize0 := parseNumber (getProp raw "short_size") 0).
  set (longSize := if Qeq_bool longSize0 0 || Qle_bool longSize0 0
                   then (if Qltb 0 parsedSize then parsedSize else 0)
                   else longSize0).
  set (shortSize := if Qeq_bool shortSize0 0 || Qeq_bool shortSize0 0
                    then (if Qltb parsedSize 0 then parsedSize else 0)
                    else if Qltb 0 shortSize0 then - shortSize0
                    else shortSize0).
  exists longSize, shortSize, (longSize + shortSize).
  repeat split; try reflexivity.
  - subst longSize.
    destruct (Qeq_bool longSize0 0) eqn:E0; destruct (Qle_bool longSize0 0) eqn:E1;
      simpl; try (destruct (Qltb 0 parsedSize) eqn:E2); qtests; lra.
  - subst shortSize.
    destruct (Qeq_bool shortSize0 0) eqn:E0; simpl;
      [destruct (Qltb parsedSize 0) eqn:E2; qtests; lra|].
    destruct (Qltb 0 shortSize0) eqn:E1; qtests; lra.
Qed.

Lemma normalize_invariant (raw : jsval) (contract : string) :
  truthy raw = true ->
  positionInvariant (normalizePositionPayload raw contract).
Proof.
  intro Ht. destruct (isArray raw) eqn:Ea.
  - destruct raw; try discriminate Ea. apply normalize_array_invariant.
  - apply normalize_object_invariant; assumption.
Qed.

Lemma normalize_truthy (raw : jsval) (contract : string) :
  truthy (normalizePositionPayload raw contract) = truthy raw.
Proof.
  destruct (truthy raw) eqn:Ht.
  - destruct (normalize_invariant raw contract Ht) as (l & s & z & Hl & _).
    destruct (normalizePositionPayload raw contract); try discriminate Hl.
    reflexivity.
  - unfold normalizePositionPayload. rewrite Ht. reflexivity.
Qed.

(** *** Stepping through a computation *)

Lemma Ok_inj {A : Type} (a b : A) : Ok a = Ok b -> a = b.
Proof.
  intro H. congruence.
Qed.

Lemma bind_ok {A B : Type} (c : M A) (k : A -> M B) v tr a tr' :
  c v tr = (Ok a, tr') -> bind c k v tr = k a v tr'.
Proof.
  intro H. unfold bind. rewrite H. reflexivity.
Qed.

Lemma bind_throw {A B : Type} (c : M A) (k : A -> M B) v tr m tr' :
  c v tr = (Throw m, tr') -> bind c k v tr = (Throw m, tr').
Proof.
  intro H. unfold bind. rewrite H. reflexivity.
Qed.

(** *** Computations that only read from the venue *)

Lemma onlyGets_app (e1 e2 : list request) :
  onlyGets e1 -> onlyGets e2 -> onlyGets (e1 ++ e2).
Proof.
  unfold onlyGets. intros H1 H2. apply Forall_app. split; assumption.
Qed.

Lemma readsOnly_ret {A : Type} (a : A) : readsOnly (ret a).
Proof.
  intros v tr. exists []. simpl. rewrite app_nil_r. split; [reflexivity | constructor].
Qed.

Lemma readsOnly_throw {A : Type} (m : string) : readsOnly (@throw A m).
Proof.
  intros v tr. exists []. simpl. rewrite app_nil_r. split; [reflexivity | constructor].
Qed.

Lemma readsOnly_lift {A : Type} (r : result A) : readsOnly (lift r).
Proof.
  intros v tr. exists []. simpl. rewrite app_nil_r. split; [reflexivity | constructor].
Qed.

Lemma readsOnly_get (path params : string) : readsOnly (get path params).
Proof.
  intros v tr. eexists. simpl. split; [reflexivity|].
  constructor; [reflexivity | constructor].
Qed.

Lemma readsOnly_bind {A B : Type} (c : M A) (k : A -> M B) :
  readsOnly c -> (forall a, readsOnly (k a)) -> readsOnly (bind c k).
Proof.
  intros Hc Hk v tr. unfold bind.
  destruct (Hc v tr) as (e1 & E1 & G1).
  destruct (c v tr) as [[a|m] tr1]; simpl in E1; subst tr1.
  - destruct (Hk a v (tr ++ e1)) as (e2 & E2 & G2).
    exists (e1 ++ e2). rewrite E2, app_assoc. split; [reflexivity|].
    apply onlyGets_app; assumption.
  - exists e1. split; [reflexivity | assumption].
Qed.

Lemma readsOnly_tryCatch {A : Type} (c : M A) (h : string -> M A) :
  readsOnly c -> (forall m, readsOnly (h m)) -> readsOnly (tryCatch c h).
Proof.
  intros Hc Hh v tr. unfold tryCatch.
  destruct (Hc v tr) as (e1 & E1 & G1).
  destruct (c v tr) as [[a|m] tr1]; simpl in E1; subst tr1.
  - exists e1. split; [reflexivity | assumption].
  - destruct (Hh m v (tr ++ e1)) as (e2 & E2 & G2).
    exists (e1 ++ e2). rewrite E2, app_assoc. split; [reflexivity|].
    apply onlyGets_app; assumption.
Qed.

Ltac reads :=
  repeat first
    [ apply readsOnly_bind; [|intro]
    | apply readsOnly_tryCatch; [|intro]
    | apply readsOnly_ret
    | apply readsOnly_throw
    | apply readsOnly_lift
    | apply readsOnly_get
    | match goal with
      | |- readsOnly (if ?b then _ else _) => destruct b
      | |- readsOnly (match ?x with _ => _ end) => destruct x
      | |- readsOnly (let '(_, _) := ?x in _) => destruct x
      end ].

Lemma getMarginAccount_reads t symbol : readsOnly (getMarginAccount t symbol).
Proof.
  unfold getMarginAccount. reads.
Qed.

Lemma getContract_reads t symbol : readsOnly (getContract t symbol).
Proof.
  unfold getContract. reads.
Qed.

Lemma getPosition_reads t symbol : readsOnly (getPosition t symbol).
Proof.
  unfold getPosition, fetchSinglePosition, fetchListedPosition. reads.
Qed.

Lemma convert_reads t symbol amount :
  readsOnly (convertBaseAmountToContracts t symbol amount).
Proof.
  unfold convertBaseAmountToContracts.
  apply readsOnly_bind; [apply getContract_reads | intro]. reads.
Qed.

Lemma onlyGets_placedOrders (t : trader) (ext : list request) :
  onlyGets ext -> placedOrders t ext = [].
Proof.
  unfold onlyGets, placedOrders. induction 1 as [|rq rest Hrq _ IH]; [reflexivity|].
  simpl. unfold isOrderSubmission at 1. rewrite Hrq. simpl. exact IH.
Qed.

Lemma fetchSinglePosition_returns t contract v tr :
  exists pos tr',
    fetchSinglePosition t contract v tr = (Ok pos, tr') /\
    (truthy pos = false \/ positionInvariant pos).
Proof.
  unfold fetchSinglePosition, bind, tryCatch, get, send, ret.
  destruct (v tr _) as [position|m].
  - eexists _, _. split; [reflexivity|].
    destruct (truthy position) eqn:Et.
    + right. apply normalize_invariant. exact Et.
    + left. rewrite normalize_truthy. exact Et.
  - eexists _, _. split; [reflexivity | left; reflexivity].
Qed.

Lemma fetchListedPosition_returns t contract v tr :
  exists pos tr',
    fetchListedPosition t contract v tr = (Ok pos, tr') /\
    (pos = JNull \/ (truthy pos = true /\ positionInvariant pos)).
Proof.
  unfold fetchListedPosition, bind, tryCatch, get, send, lift, ret.
  destruct (v tr _) as [positions|m];
    [|eexists _, _; split; [reflexivity | left; reflexivity]].
  destruct positions;
    try (eexists _, _; split; [reflexivity | left; reflexivity]).
  destruct (filterContract contract items) as [keep|m3];
    [|eexists _, _; split; [reflexivity | left; reflexivity]].
  destruct keep as [|p rest];
    [eexists _, _; split; [reflexivity | left; reflexivity]|].
  pose proof (combineSizes_signs (p :: rest) 0 0 (Qle_refl 0) (Qle_refl 0)) as [Hl Hs].
  destruct (fold_left combineSizes (p :: rest) (0, 0)) as [cl cs].
  simpl in Hl, Hs.
  eexists _, _. split; [reflexivity|]. right. split; [reflexivity|].
  exists cl, cs, (cl + cs). simpl. repeat split; try reflexivity; assumption.
Qed.

(** [getPosition] never throws: both fetches are guarded.  What it returns is
    [null] or an object that satisfies the invariant. *)
Lemma getPosition_returns t symbol v tr :
  exists pos tr',
    getPosition t symbol v tr = (Ok pos, tr') /\
    (pos = JNull \/ (truthy pos = true /\ positionInvariant pos)).
Proof.
  unfold getPosition.
  destruct (fetchSinglePosition_returns t (parseSymbol symbol) v tr)
    as (p1 & tr1 & E1 & H1).
  rewrite (bind_ok _ _ _ _ _ _ E1).
  destruct (truthy p1) eqn:Et.
  - exists p1, tr1. split; [reflexivity|]. right. split; [exact Et|].
    destruct H1 as [H1|H1]; [congruence | exact H1].
  - apply fetchListedPosition_returns.
Qed.



(** *** Leverage resolution *)

Lemma positive_field_truthy (position : jsval) (field : string) :
  0 < parseNumber (getProp position field) 0 -> truthy position = true.
Proof.
  destruct position; simpl; intro H; try reflexivity;
    exfalso; apply (Qlt_irrefl 0); exact H.
Qed.

(** C5: when the position carries a positive leverage for the requested
    side, [resolveLeverageForSide] returns that value with source
    ['position'], whatever positive fallback leverage and fallback source are
    passed with it. *)
Theorem C5_position_leverage_wins t position sd fallback fallbackSource :
  0 < parseNumber (getProp position (sideLeverageField sd)) 0 ->
  0 < fallback ->
  resolveLeverageForSide t position (Some fallback) fallbackSource sd =
    {| value := parseNumber (getProp position (sideLeverageField sd)) 0;
       source := "position" |}.
Proof.
  intros Hpos _.
  unfold resolveLeverageForSide.
  rewrite (positive_field_truthy _ _ Hpos).
  apply Qltb_true in Hpos.
  destruct sd; simpl in *; rewrite Hpos; reflexivity.
Qed.

Lemma C5_position_leverage_wins_witness :
  resolveLeverageForSide usdtTrader
    (JObj [("long_leverage", JStr "10"); ("leverage", JStr "4")]%string)
    (Some 3) (Some "margin"%string) long =
  {| value := parseNumber (JStr "10") 0; source := "position" |}.
Proof.
  apply (C5_position_leverage_wins usdtTrader
           (JObj [("long_leverage", JStr "10"); ("leverage", JStr "4")]%string)
           long 3 (Some "margin"%string)); reflexivity.
Defined.

(** *** Open sizing *)

(** What a successful sizing went through. *)
Lemma calculate_inversion t symbol amount sd v tr s tr' :
  calculateContractsFromPercentage t symbol amount sd v tr = (Ok s, tr') ->
  exists p acct tr1 info tr2 pos,
    normalizePercentage amount = Ok p /\
    getMarginAccount t symbol v tr = (Ok acct, tr1) /\
    0 < extractMarginAvailableBalance acct /\
    getContract t symbol v tr1 = (Ok info, tr2) /\
    0 < contractSizeOf info /\ 0 < markPriceOf info /\
    getPosition t symbol v tr2 = (Ok pos, tr') /\
    let resolved :=
      resolveLeverageForSide t pos
        (fallbackLeverageOf (extractAccountLeverage acct))
        (fallbackSourceOf (extractAccountLeverage acct)) sd in
    let notional := p * extractMarginAvailableBalance acct * value resolved in
    (0 < Qfloor (notional / markPriceOf info / contractSizeOf info))%Z /\
    s = {| contract := parseSymbol symbol;
           contracts := Qfloor (notional / markPriceOf info / contractSizeOf info);
           contractSize := contractSizeOf info;
           markPrice := markPriceOf info;
           baseAmount := notional / markPriceOf info;
           notionalToAllocate := notional;
           leverage := value resolved;
           leverageSource := source resolved;
           percentage := p;
           sizingPositionMode := determinePositionMode t pos |}.
Proof.
  unfold calculateContractsFromPercentage. intro H.
  unfold bind at 1 in H. unfold lift at 1 in H.
  destruct (normalizePercentage amount) as [p|m] eqn:Ep; [|discriminate H].
  unfold bind at 1 in H.
  destruct (getMarginAccount t symbol v tr) as [[acct|m] tr1] eqn:E1; [|discriminate H].
  destruct (Qle_bool (extractMarginAvailableBalance acct) 0) eqn:Eb;
    [discriminate H|].
  unfold bind at 1 in H.
  destruct (getContract t symbol v tr1) as [[info|m] tr2] eqn:E2; [|discriminate H].
  destruct (Qle_bool (contractSizeOf info) 0) eqn:Ec; [discriminate H|].
  destruct (Qle_bool (markPriceOf info) 0) eqn:Em; [discriminate H|].
  unfold bind at 1 in H.
  destruct (getPosition t symbol v tr2) as [[pos|m] tr3] eqn:E3; [|discriminate H].
  cbv zeta in H.
  match type of H with
  | (if ?b then _ else _) _ _ = _ => destruct b eqn:Ek; [discriminate H|]
  end.
  unfold ret in H.
  assert (Hs := f_equal fst H). assert (Htr := f_equal snd H).
  cbn [fst snd] in Hs, Htr. apply Ok_inj in Hs. subst tr3.
  apply orb_false_iff in Ek. destruct Ek as [_ Ek].
  apply Z.leb_gt in Ek.
  qtests.
  exists p, acct, tr1, info, tr2, pos.
  repeat split; try assumption; try reflexivity. symmetry. exact Hs.
Qed.

(** *** Binary64 arithmetic *)

Lemma pow2_pos (k : Z) : 0 < Binary64.pow2 k.
Proof. apply Qpower_0_lt. reflexivity. Qed.

Lemma pow2_plus (a b : Z) :
  Binary64.pow2 (a + b) == Binary64.pow2 a * Binary64.pow2 b.
Proof. apply Qpower_plus. discriminate. Qed.

Lemma pow2_le (a b : Z) : (a <= b)%Z -> Binary64.pow2 a <= Binary64.pow2 b.
Proof. intro H. apply Qpower_le_compat_l; [exact H | discriminate]. Qed.

Lemma pow2_lt_inv (a b : Z) : Binary64.pow2 a < Binary64.pow2 b -> (a < b)%Z.
Proof. intro H. apply (Qpower_lt_compat_l_inv 2); [exact H | reflexivity]. Qed.

Lemma pow2_inject (k : Z) : (0 <= k)%Z -> inject_Z (2 ^ k) == Binary64.pow2 k.
Proof. intro H. apply Zpower_Qpower. exact H. Qed.

Lemma pow2_succ (k : Z) : Binary64.pow2 (k + 1) == 2 * Binary64.pow2 k.
Proof. rewrite pow2_plus. change (Binary64.pow2 1) with 2. ring. Qed.

(** [ilog2] brackets a positive rational between two powers of two. *)
Lemma ilog2_spec (x : Q) :
  0 < x ->
  Binary64.pow2 (Binary64.ilog2 x) <= x /\ x < Binary64.pow2 (Binary64.ilog2 x + 1).
Proof.
  intro Hx. destruct x as [n d].
  assert (Hn : (0 < n)%Z).
  { unfold Qlt in Hx. simpl in Hx. lia. }
  unfold Binary64.ilog2. cbn [Qnum Qden].
  set (ln := Z.log2 n). set (ld := Z.log2 (Z.pos d)).
  destruct (Z.log2_spec n Hn) as [Hn1 Hn2]. fold ln in Hn1, Hn2.
  destruct (Z.log2_spec (Z.pos d) (Pos2Z.is_pos d)) as [Hd1 Hd2]. fold ld in Hd1, Hd2.
  assert (Lln : (0 <= ln)%Z) by apply Z.log2_nonneg.
  assert (Lld : (0 <= ld)%Z) by apply Z.log2_nonneg.
  assert (Ex : n # d == inject_Z n / inject_Z (Z.pos d)) by apply Qmake_Qdiv.
  assert (Pd : 0 < inject_Z (Z.pos d)) by reflexivity.
  (* integer facts as rational facts *)
  assert (Qn1 : Binary64.pow2 ln <= inject_Z n).
  { rewrite <- pow2_inject by exact Lln. rewrite <- Zle_Qle. exact Hn1. }
  assert (Qn2 : inject_Z n < Binary64.pow2 (ln + 1)).
  { rewrite <- pow2_inject by lia. rewrite <- Zlt_Qlt.
    replace (ln + 1)%Z with (Z.succ ln) by lia. exact Hn2. }
  assert (Qd1 : Binary64.pow2 ld <= inject_Z (Z.pos d)).
  { rewrite <- pow2_inject by exact Lld. rewrite <- Zle_Qle. exact Hd1. }
  assert (Qd2 : inject_Z (Z.pos d) < Binary64.pow2 (ld + 1)).
  { rewrite <- pow2_inject by lia. rewrite <- Zlt_Qlt.
    replace (ld + 1)%Z with (Z.succ ld) by lia. exact Hd2. }
  assert (Up : n # d < Binary64.pow2 (ln - ld + 1)).
  { rewrite Ex. apply Qlt_shift_div_r; [exact Pd|].
    apply Qlt_le_trans with (1 := Qn2).
    replace (ln + 1)%Z with ((ln - ld + 1) + ld)%Z by lia.
    rewrite pow2_plus.
    rewrite (Qmult_comm (Binary64.pow2 (ln - ld + 1))), (Qmult_comm (Binary64.pow2 (ln - ld + 1))).
    apply Qmult_le_compat_r; [exact Qd1 | apply Qlt_le_weak, pow2_pos]. }
  assert (Low : Binary64.pow2 (ln - ld - 1) <= n # d).
  { rewrite Ex. apply Qle_shift_div_l; [exact Pd|].
    apply Qle_trans with (2 := Qn1).
    replace ln with ((ln - ld - 1) + (ld + 1))%Z at 2 by lia.
    rewrite pow2_plus.
    rewrite (Qmult_comm (Binary64.pow2 (ln - ld - 1))), (Qmult_comm (Binary64.pow2 (ln - ld - 1))).
    apply Qmult_le_compat_r; [apply Qlt_le_weak; exact Qd2 | apply Qlt_le_weak, pow2_pos]. }
  destruct (Qle_bool (Binary64.pow2 (ln - ld)) (n # d)) eqn:E.
  - apply Qle_bool_iff in E. split; [exact E | exact Up].
  - apply Qle_bool_false in E. split; [exact Low|].
    replace (ln - ld - 1 + 1)%Z with (ln - ld)%Z by lia. exact E.
Qed.

(** *** Rounding to an integer *)

Lemma nearestEven_cases (y : Q) :
  (Binary64.nearestEven y = Qfloor y /\ y - inject_Z (Qfloor y) <= 1 # 2) \/
  (Binary64.nearestEven y = (Qfloor y + 1)%Z /\ 1 # 2 <= y - inject_Z (Qfloor y)).
Proof.
  unfold Binary64.nearestEven.
  destruct (Qcompare (y - inject_Z (Qfloor y)) (1 # 2)) eqn:E.
  - apply Qeq_alt in E.
    destruct (Z.even (Qfloor y)); [left | right]; (split; [reflexivity|]);
      rewrite E; apply Qle_refl.
  - apply Qlt_alt in E. left. split; [reflexivity | apply Qlt_le_weak; exact E].
  - apply Qgt_alt in E. right. split; [reflexivity | apply Qlt_le_weak; exact E].
Qed.

Lemma nearestEven_error (y : Q) :
  Qabs (inject_Z (Binary64.nearestEven y) - y) <= 1 # 2.
Proof.
  assert (Hf := Qfloor_le y). assert (Hc := Qlt_floor y).
  rewrite inject_Z_plus in Hc. change (inject_Z 1) with 1 in Hc.
  apply Qabs_Qle_condition.
  destruct (nearestEven_cases y) as [[-> H]|[-> H]].
  - split; lra.
  - rewrite inject_Z_plus. change (inject_Z 1) with 1. split; lra.
Qed.

(** An integer bound on [y] is a bound on its rounding. *)
Lemma nearestEven_between (lo hi : Z) (y : Q) :
  inject_Z lo <= y -> y <= inject_Z hi ->
  (lo <= Binary64.nearestEven y <= hi)%Z.
Proof.
  intros Hlo Hhi.
  assert (Hf : (lo <= Qfloor y)%Z).
  { rewrite <- (Qfloor_Z lo). apply Qfloor_resp_le. exact Hlo. }
  assert (Hg : (Qfloor y <= hi)%Z).
  { rewrite <- (Qfloor_Z hi). apply Qfloor_resp_le. exact Hhi. }
  destruct (nearestEven_cases y) as [[-> H]|[-> H]]; [lia|].
  split; [lia|].
  assert (L : inject_Z (Qfloor y) < inject_Z hi) by lra.
  rewrite <- Zlt_Qlt in L. lia.
Qed.

(** *** Rounding to a double *)

Lemma roundMagnitude_eq (x : Q) :
  Binary64.roundMagnitude x ==
    inject_Z (Binary64.nearestEven (x / Binary64.pow2 (Binary64.exponentOf x))) *
    Binary64.pow2 (Binary64.exponentOf x).
Proof. unfold Binary64.roundMagnitude. apply Qred_correct. Qed.

(** The rounding error is at most half a unit in the last place. *)
Lemma roundMagnitude_error (x : Q) :
  Qabs (Binary64.roundMagnitude x - x) <=
    Binary64.pow2 (Binary64.exponentOf x) * (1 # 2).
Proof.
  rewrite roundMagnitude_eq.
  set (e := Binary64.exponentOf x).
  assert (P := pow2_pos e).
  assert (E : inject_Z (Binary64.nearestEven (x / Binary64.pow2 e)) * Binary64.pow2 e - x ==
              (inject_Z (Binary64.nearestEven (x / Binary64.pow2 e)) - x / Binary64.pow2 e) *
              Binary64.pow2 e).
  { field. intro H. rewrite H in P. apply (Qlt_irrefl 0). exact P. }
  rewrite E, Qabs_Qmult, (Qabs_pos (Binary64.pow2 e)) by (apply Qlt_le_weak; exact P).
  rewrite (Qmult_comm (Binary64.pow2 e)).
  apply Qmult_le_compat_r; [apply nearestEven_error | apply Qlt_le_weak; exact P].
Qed.

Lemma roundMagnitude_nonneg (x : Q) : 0 <= x -> 0 <= Binary64.roundMagnitude x.
Proof.
  intro Hx. rewrite roundMagnitude_eq.
  set (e := Binary64.exponentOf x). assert (P := pow2_pos e).
  apply Qmult_le_0_compat; [|apply Qlt_le_weak; exact P].
  change 0 with (inject_Z 0). rewrite <- Zle_Qle.
  apply (nearestEven_between 0 (Qceiling (x / Binary64.pow2 e))).
  - apply Qle_shift_div_l; [exact P|]. change (inject_Z 0) with 0. lra.
  - apply Qle_ceiling.
Qed.

(** In the normal range the exponent is read off the magnitude. *)
Lemma exponentOf_normal (x : Q) :
  Binary64.pow2 (-1022) <= x ->
  Binary64.exponentOf x = (Binary64.ilog2 x - 52)%Z.
Proof.
  intro Hx.
  assert (Px : 0 < x) by (apply Qlt_le_trans with (2 := Hx); apply pow2_pos).
  destruct (ilog2_spec x Px) as [_ Hu].
  assert (L : (-1022 < Binary64.ilog2 x + 1)%Z).
  { apply pow2_lt_inv. apply Qle_lt_trans with (1 := Hx). exact Hu. }
  unfold Binary64.exponentOf. lia.
Qed.

(** Relative error of one rounding in the normal range: at most [2^-53]. *)
Lemma roundMagnitude_relative (x : Q) :
  Binary64.pow2 (-1022) <= x ->
  Qabs (Binary64.roundMagnitude x - x) <= x * Binary64.pow2 (-53).
Proof.
  intro Hx.
  assert (Px : 0 < x) by (apply Qlt_le_trans with (2 := Hx); apply pow2_pos).
  apply Qle_trans with (1 := roundMagnitude_error x).
  rewrite (exponentOf_normal x Hx).
  destruct (ilog2_spec x Px) as [Hl _].
  replace (Binary64.ilog2 x - 52)%Z with (Binary64.ilog2 x + -52)%Z by lia.
  rewrite pow2_plus.
  assert (E : Binary64.pow2 (-53) == Binary64.pow2 (-52) * (1 # 2)) by reflexivity.
  rewrite E, <- Qmult_assoc, Qmult_assoc.
  rewrite Qmult_assoc.
  apply Qmult_le_compat_r; [|discriminate].
  apply Qmult_le_compat_r; [exact Hl | apply Qlt_le_weak, pow2_pos].
Qed.

(** Below [2^53] rounding never crosses an integer: integer bounds on [x]
    are bounds on its rounding. *)
Lemma roundMagnitude_between (x : Q) (lo hi : Z) :
  0 < x -> x < Binary64.pow2 53 ->
  inject_Z lo <= x -> x <= inject_Z hi ->
  inject_Z lo <= Binary64.roundMagnitude x /\
  Binary64.roundMagnitude x <= inject_Z hi.
Proof.
  intros Px Hx Hlo Hhi.
  destruct (ilog2_spec x Px) as [Hl _].
  assert (L : (Binary64.ilog2 x < 53)%Z).
  { apply pow2_lt_inv. apply Qle_lt_trans with (1 := Hl). exact Hx. }
  set (e := Binary64.exponentOf x).
  assert (He : (e <= 0)%Z) by (unfold e, Binary64.exponentOf; lia).
  assert (P := pow2_pos e).
  assert (S : inject_Z (2 ^ (- e)) * Binary64.pow2 e == 1).
  { rewrite pow2_inject by lia. rewrite <- pow2_plus.
    replace (- e + e)%Z with 0%Z by lia. reflexivity. }
  assert (D : forall k : Z, inject_Z (k * 2 ^ (- e)) == inject_Z k / Binary64.pow2 e).
  { intro k. rewrite inject_Z_mult.
    apply (Qmult_inj_r _ _ (Binary64.pow2 e)); [lra|].
    rewrite <- Qmult_assoc, S. field. lra. }
  assert (B : (lo * 2 ^ (- e) <=
               Binary64.nearestEven (x / Binary64.pow2 e) <=
               hi * 2 ^ (- e))%Z).
  { apply nearestEven_between; rewrite D.
    - apply Qmult_le_compat_r; [exact Hlo | apply Qlt_le_weak, Qinv_lt_0_compat; exact P].
    - apply Qmult_le_compat_r; [exact Hhi | apply Qlt_le_weak, Qinv_lt_0_compat; exact P]. }
  destruct B as [B1 B2].
  assert (Er := roundMagnitude_eq x). fold e in Er.
  split; rewrite Er.
  - apply Qle_trans with (inject_Z (lo * 2 ^ (- e)) * Binary64.pow2 e).
    + rewrite inject_Z_mult, <- Qmult_assoc, S. lra.
    + apply Qmult_le_compat_r; [|apply Qlt_le_weak; exact P].
      rewrite <- Zle_Qle. exact B1.
  - apply Qle_trans with (inject_Z (hi * 2 ^ (- e)) * Binary64.pow2 e).
    + apply Qmult_le_compat_r; [|apply Qlt_le_weak; exact P].
      rewrite <- Zle_Qle. exact B2.
    + rewrite inject_Z_mult, <- Qmult_assoc, S. lra.
Qed.

Lemma roundMagnitude_integers (x : Q) :
  0 < x -> x < Binary64.pow2 53 ->
  inject_Z (Qfloor x) <= Binary64.roundMagnitude x /\
  Binary64.roundMagnitude x <= inject_Z (Qfloor x + 1).
Proof.
  intros Px Hx. apply roundMagnitude_between; try assumption.
  - apply Qfloor_le.
  - apply Qlt_le_weak, Qlt_floor.
Qed.

(** The rounding on a few values whose doubles are known: 0.1; the ties
    [2^53 + 1] and [2^53 + 3]; half the smallest subnormal and three halves
    of it; the tie at the top of the range, which overflows; a literal far
    out of range. *)
Lemma round_examples :
  Binary64.round (1 # 10) = Binary64.Num (3602879701896397 # 36028797018963968) /\
  Binary64.round (inject_Z (2 ^ 53 + 1)) = Binary64.Num (inject_Z (2 ^ 53)) /\
  Binary64.round (inject_Z (2 ^ 53 + 3)) = Binary64.Num (inject_Z (2 ^ 53 + 4)) /\
  Binary64.round (Binary64.pow2 (-1075)) = Binary64.Num 0 /\
  Binary64.round (3 * Binary64.pow2 (-1075)) = Binary64.Num (Binary64.pow2 (-1073)) /\
  Binary64.round (Binary64.pow2 1024 - Binary64.pow2 970) = Binary64.Inf false /\
  Binary64.round (- inject_Z (10 ^ 400)) = Binary64.Inf true.
Proof. vm_compute. repeat split; reflexivity. Qed.

Lemma Qcompare_Gt (x y : Q) : y < x -> Qcompare x y = Gt.
Proof. intro H. apply Qgt_alt. exact H. Qed.

(** A positive rational whose rounding stays below [2^1024] rounds to a
    finite double. *)
Lemma round_positive (x : Q) :
  0 < x -> Binary64.roundMagnitude x < Binary64.pow2 1024 ->
  Binary64.round x = Binary64.Num (Binary64.roundMagnitude x).
Proof.
  intros Px Hb. unfold Binary64.round.
  rewrite (Qcompare_Gt _ _ Px). cbv zeta.
  rewrite (proj2 (Qle_bool_false _ _) Hb). reflexivity.
Qed.

Lemma pow2_half (k : Z) : Binary64.pow2 (k - 1) == Binary64.pow2 k * (1 # 2).
Proof.
  replace (k - 1)%Z with (k + -1)%Z by lia. rewrite pow2_plus. reflexivity.
Qed.

(** One rounding of a value of normal magnitude: the result is finite, within
    a relative [2^-53] of the value, and at most one binade away. *)
Lemma round_normal (x : Q) (a b : Z) :
  Binary64.pow2 a <= x -> x <= Binary64.pow2 b ->
  (-1022 <= a)%Z -> (b <= 1022)%Z ->
  exists y,
    Binary64.round x = Binary64.Num y /\
    Qabs (y - x) <= x * Binary64.pow2 (-53) /\
    Binary64.pow2 (a - 1) <= y /\ y <= Binary64.pow2 (b + 1).
Proof.
  intros Ha Hb La Lb.
  assert (Px : 0 < x) by (apply Qlt_le_trans with (2 := Ha); apply pow2_pos).
  assert (Hn : Binary64.pow2 (-1022) <= x).
  { apply Qle_trans with (2 := Ha). apply pow2_le. exact La. }
  assert (Hr := roundMagnitude_relative x Hn).
  set (y := Binary64.roundMagnitude x) in *.
  apply Qabs_Qle_condition in Hr. destruct Hr as [Hr1 Hr2].
  assert (U : Binary64.pow2 (-53) <= 1 # 2) by discriminate.
  assert (U0 : 0 <= Binary64.pow2 (-53)) by discriminate.
  assert (Hx : x * Binary64.pow2 (-53) <= x * (1 # 2)).
  { rewrite (Qmult_comm x), (Qmult_comm x).
    apply Qmult_le_compat_r; [exact U | apply Qlt_le_weak; exact Px]. }
  assert (Hlow : Binary64.pow2 (a - 1) <= y).
  { rewrite pow2_half.
    generalize dependent (Binary64.pow2 a). generalize dependent (Binary64.pow2 (-53)).
    intros. lra. }
  assert (Hup : y <= Binary64.pow2 (b + 1)).
  { rewrite pow2_succ.
    generalize dependent (Binary64.pow2 b). generalize dependent (Binary64.pow2 (-53)).
    intros. lra. }
  exists y. split; [|split; [|split]]; try assumption.
  - apply round_positive; [exact Px|]. fold y.
    apply Qle_lt_trans with (1 := Hup).
    apply Qpower_lt_compat_l; [lia | reflexivity].
  - apply Qabs_Qle_condition. split; assumption.
Qed.

Lemma mul_range (x y : Q) (a b c d : Z) :
  Binary64.pow2 a <= x -> x <= Binary64.pow2 b ->
  Binary64.pow2 c <= y -> y <= Binary64.pow2 d ->
  Binary64.pow2 (a + c) <= x * y /\ x * y <= Binary64.pow2 (b + d).
Proof.
  intros Ha Hb Hc Hd. rewrite !pow2_plus.
  assert (Pa := pow2_pos a). assert (Pc := pow2_pos c).
  assert (Px : 0 < x) by lra. assert (Py : 0 < y) by lra.
  split.
  - apply Qle_trans with (x * Binary64.pow2 c).
    + apply Qmult_le_compat_r; lra.
    + rewrite (Qmult_comm x), (Qmult_comm x). apply Qmult_le_compat_r; lra.
  - apply Qle_trans with (x * Binary64.pow2 d).
    + rewrite (Qmult_comm x), (Qmult_comm x). apply Qmult_le_compat_r; lra.
    + apply Qmult_le_compat_r; lra.
Qed.

Lemma div_range (x y : Q) (a b c d : Z) :
  Binary64.pow2 a <= x -> x <= Binary64.pow2 b ->
  Binary64.pow2 c <= y -> y <= Binary64.pow2 d ->
  Binary64.pow2 (a - d) <= x / y /\ x / y <= Binary64.pow2 (b - c).
Proof.
  intros Ha Hb Hc Hd.
  assert (Pc := pow2_pos c). assert (Py : 0 < y) by lra.
  assert (I1 : Binary64.pow2 (- d) <= / y).
  { apply Qle_shift_inv_l; [exact Py|].
    apply Qle_trans with (Binary64.pow2 (- d) * Binary64.pow2 d).
    - rewrite (Qmult_comm _ y), (Qmult_comm _ (Binary64.pow2 d)).
      apply Qmult_le_compat_r; [exact Hd | apply Qlt_le_weak, pow2_pos].
    - rewrite <- pow2_plus. replace (- d + d)%Z with 0%Z by lia. apply Qle_refl. }
  assert (I2 : / y <= Binary64.pow2 (- c)).
  { apply Qle_shift_inv_r; [exact Py|].
    apply Qle_trans with (Binary64.pow2 (- c) * Binary64.pow2 c).
    - rewrite <- pow2_plus. replace (- c + c)%Z with 0%Z by lia. apply Qle_refl.
    - rewrite (Qmult_comm _ y), (Qmult_comm _ (Binary64.pow2 c)).
      apply Qmult_le_compat_r; [exact Hc | apply Qlt_le_weak, pow2_pos]. }
  replace (a - d)%Z with (a + - d)%Z by lia.
  replace (b - c)%Z with (b + - c)%Z by lia.
  unfold Qdiv. apply mul_range; assumption.
Qed.

Lemma nonzero_test (x : Q) : 0 < x -> Qeq_bool x 0 = false.
Proof.
  intro H. destruct (Qeq_bool x 0) eqn:E; [|reflexivity].
  apply Qeq_bool_iff in E. rewrite E in H. discriminate H.
Qed.

(** From a relative error to the two one-sided bounds. *)
Lemma relative_bounds (x y u : Q) :
  Qabs (y - x) <= x * u -> x * (1 - u) <= y /\ y <= x * (1 + u).
Proof.
  intro H. apply Qabs_Qle_condition in H. destruct H as [H1 H2]. split; lra.
Qed.

(** The four roundings of the sizing, for inputs of ordinary magnitude: no
    step overflows or leaves the normal range, and each is within a relative
    [2^-53] of the exact operation on its operands. *)
Lemma sizing_roundings (p a l mp cs : Q) :
  ordinary p -> ordinary a -> ordinary l -> ordinary mp -> ordinary cs ->
  exists y1 y2 y3 y4,
    Binary64.mul (Binary64.Num p) (Binary64.Num a) = Binary64.Num y1 /\
    Binary64.mul (Binary64.Num y1) (Binary64.Num l) = Binary64.Num y2 /\
    Binary64.div (Binary64.Num y2) (Binary64.Num mp) = Binary64.Num y3 /\
    Binary64.div (Binary64.Num y3) (Binary64.Num cs) = Binary64.Num y4 /\
    Qabs (y1 - p * a) <= p * a * Binary64.pow2 (-53) /\
    Qabs (y2 - y1 * l) <= y1 * l * Binary64.pow2 (-53) /\
    Qabs (y3 - y2 / mp) <= y2 / mp * Binary64.pow2 (-53) /\
    Qabs (y4 - y3 / cs) <= y3 / cs * Binary64.pow2 (-53) /\
    0 < y1 /\ 0 < y2 /\ 0 < y3 /\ 0 < y4.
Proof.
  intros [Hp1 Hp2] [Ha1 Ha2] [Hl1 Hl2] [Hm1 Hm2] [Hc1 Hc2].
  destruct (mul_range _ _ _ _ _ _ Hp1 Hp2 Ha1 Ha2) as [X1 X1'].
  destruct (round_normal _ _ _ X1 X1' ltac:(lia) ltac:(lia))
    as (y1 & E1 & R1 & B1 & B1').
  destruct (mul_range _ _ _ _ _ _ B1 B1' Hl1 Hl2) as [X2 X2'].
  destruct (round_normal _ _ _ X2 X2' ltac:(lia) ltac:(lia))
    as (y2 & E2 & R2 & B2 & B2').
  destruct (div_range _ _ _ _ _ _ B2 B2' Hm1 Hm2) as [X3 X3'].
  destruct (round_normal _ _ _ X3 X3' ltac:(lia) ltac:(lia))
    as (y3 & E3 & R3 & B3 & B3').
  destruct (div_range _ _ _ _ _ _ B3 B3' Hc1 Hc2) as [X4 X4'].
  destruct (round_normal _ _ _ X4 X4' ltac:(lia) ltac:(lia))
    as (y4 & E4 & R4 & B4 & B4').
  assert (Pm : 0 < mp) by (apply Qlt_le_trans with (2 := Hm1); apply pow2_pos).
  assert (Pc : 0 < cs) by (apply Qlt_le_trans with (2 := Hc1); apply pow2_pos).
  exists y1, y2, y3, y4.
  repeat split; try assumption.
  - unfold Binary64.div. rewrite (nonzero_test _ Pm). exact E3.
  - unfold Binary64.div. rewrite (nonzero_test _ Pc). exact E4.
  - apply Qlt_le_trans with (2 := B1); apply pow2_pos.
  - apply Qlt_le_trans with (2 := B2); apply pow2_pos.
  - apply Qlt_le_trans with (2 := B3); apply pow2_pos.
  - apply Qlt_le_trans with (2 := B4); apply pow2_pos.
Qed.

(** Four factors [1 + 2^-53] stay below [1 + 2^-50]. *)
Lemma four_roundings :
  (1 + Binary64.pow2 (-53)) * (1 + Binary64.pow2 (-53)) *
  (1 + Binary64.pow2 (-53)) * (1 + Binary64.pow2 (-53)) <= 1 + Binary64.pow2 (-50).
Proof. vm_compute. discriminate. Qed.

Lemma allocation_chain (p a l mp cs y1 y2 y3 y4 t : Q) :
  0 < p -> 0 < a -> 0 < l -> 0 < mp -> 0 < cs -> 0 < t ->
  y1 <= p * a * t -> y2 <= y1 * l * t ->
  y3 <= y2 / mp * t -> y4 <= y3 / cs * t ->
  y4 * cs * mp <= p * a * l * (t * t * t * t).
Proof.
  intros Pp Pa Pl Pm Pc Pt H1 H2 H3 H4.
  assert (S4 : y4 * cs <= y3 * t).
  { apply Qle_trans with (y3 / cs * t * cs).
    - apply Qmult_le_compat_r; lra.
    - assert (E : y3 / cs * t * cs == y3 * t) by (field; lra). rewrite E. lra. }
  assert (S3 : y3 * mp <= y2 * t).
  { apply Qle_trans with (y2 / mp * t * mp).
    - apply Qmult_le_compat_r; lra.
    - assert (E : y2 / mp * t * mp == y2 * t) by (field; lra). rewrite E. lra. }
  assert (S2 : y2 * t <= y1 * l * t * t) by (apply Qmult_le_compat_r; lra).
  assert (S1 : y1 * l <= p * a * t * l) by (apply Qmult_le_compat_r; lra).
  assert (T1 : y4 * cs * mp <= y3 * t * mp) by (apply Qmult_le_compat_r; lra).
  assert (T2 : y3 * t * mp <= y2 * t * t).
  { assert (E : y3 * t * mp == y3 * mp * t) by ring. rewrite E.
    apply Qmult_le_compat_r; lra. }
  assert (T3 : y1 * l * t * t <= p * a * t * l * t * t).
  { apply Qmult_le_compat_r; [|lra]. apply Qmult_le_compat_r; lra. }
  assert (T4 : y2 * t * t <= y1 * l * t * t * t) by (apply Qmult_le_compat_r; lra).
  assert (T5 : y1 * l * t * t * t <= p * a * t * l * t * t * t)
    by (apply Qmult_le_compat_r; lra).
  assert (E : p * a * l * (t * t * t * t) == p * a * t * l * t * t * t) by ring.
  rewrite E. lra.
Qed.

(** *** Open sizing in binary64 *)

Lemma positiveCount_test (k : Binary64.number) :
  negb (Binary64.truthy k) || Binary64.leb k (Binary64.Num 0) = false <->
  positiveCount k.
Proof.
  destruct k as [x|[|]|]; simpl; split; intro H;
    try discriminate; try reflexivity; try contradiction.
  - apply orb_false_iff in H. destruct H as [_ H]. qtests. exact H.
  - rewrite (nonzero_test _ H). simpl. apply Qle_bool_false. exact H.
Qed.


(** What a successful sizing went through. *)
Lemma sizing_inversion t symbol amount sd v tr s tr' :
  Binary64Trader.calculateContractsFromPercentage t symbol amount sd v tr = (Ok s, tr') ->
  exists p acct tr1 info tr2 pos,
    Binary64Trader.normalizePercentage amount = Ok p /\
    getMarginAccount t symbol v tr = (Ok acct, tr1) /\
    0 < Binary64Trader.extractMarginAvailableBalance acct /\
    getContract t symbol v tr1 = (Ok info, tr2) /\
    0 < Binary64Trader.contractSizeOf info /\
    0 < Binary64Trader.markPriceOf info /\
    getPosition t symbol v tr2 = (Ok pos, tr') /\
    let resolved :=
      Binary64Trader.resolveLeverageForSide t pos
        (fallbackLeverageOf (Binary64Trader.extractAccountLeverage acct))
        (fallbackSourceOf (Binary64Trader.extractAccountLeverage acct)) sd in
    let notional :=
      Binary64.mul
        (Binary64.mul p (Binary64.Num (Binary64Trader.extractMarginAvailableBalance acct)))
        (Binary64Trader.value resolved) in
    let base := Binary64.div notional (Binary64.Num (Binary64Trader.markPriceOf info)) in
    let k :=
      Binary64.floor
        (Binary64.div base (Binary64.Num (Binary64Trader.contractSizeOf info))) in
    positiveCount k /\
    Binary64Trader.contracts s = k /\
    Binary64Trader.contractSize s = Binary64Trader.contractSizeOf info /\
    Binary64Trader.markPrice s = Binary64Trader.markPriceOf info /\
    Binary64Trader.notionalToAllocate s = notional /\
    Binary64Trader.leverage s = Binary64Trader.value resolved /\
    Binary64Trader.percentage s = p.
Proof.
  unfold Binary64Trader.calculateContractsFromPercentage. intro H.
  unfold bind at 1 in H. unfold lift at 1 in H.
  destruct (Binary64Trader.normalizePercentage amount) as [p|m] eqn:Ep; [|discriminate H].
  unfold bind at 1 in H.
  destruct (getMarginAccount t symbol v tr) as [[acct|m] tr1] eqn:E1; [|discriminate H].
  destruct (Qle_bool (Binary64Trader.extractMarginAvailableBalance acct) 0) eqn:Eb;
    [discriminate H|].
  unfold bind at 1 in H.
  destruct (getContract t symbol v tr1) as [[info|m] tr2] eqn:E2; [|discriminate H].
  destruct (Qle_bool (Binary64Trader.contractSizeOf info) 0) eqn:Ec; [discriminate H|].
  destruct (Qle_bool (Binary64Trader.markPriceOf info) 0) eqn:Em; [discriminate H|].
  unfold bind at 1 in H.
  destruct (getPosition t symbol v tr2) as [[pos|m] tr3] eqn:E3; [|discriminate H].
  cbv zeta in H.
  match type of H with
  | (if ?b then _ else _) _ _ = _ => destruct b eqn:Ek; [discriminate H|]
  end.
  unfold ret in H.
  assert (Hs := f_equal fst H). assert (Htr := f_equal snd H).
  cbn [fst snd] in Hs, Htr. apply Ok_inj in Hs. subst tr3.
  apply positiveCount_test in Ek.
  qtests.
  exists p, acct, tr1, info, tr2, pos.
  cbv zeta. subst s. cbn.
  repeat split; try assumption; try reflexivity.
Qed.

(** The sizing on two inputs where rounding decides the count.  29% of 100
    at 1x, mark price 1 and contract size 1, gives 28 contracts: the product
    0.29 * 100 is 28.999999999999996 in binary64.  17% of 63450.02413273 at
    39x, mark price 129041 and contract size 0.01, gives 326 contracts: the
    last quotient rounds up to 326.0. *)
Lemma sizing_rounding_examples :
  (exists s tr,
     Binary64Trader.calculateContractsFromPercentage usdtTrader btc (JNum 29) long
       unitVenue [] = (Ok s, tr) /\
     Binary64Trader.contracts s = Binary64.Num 28) /\
  (exists s tr,
     Binary64Trader.calculateContractsFromPercentage usdtTrader btc (JNum 17) long
       roundingVenue [] = (Ok s, tr) /\
     Binary64Trader.contracts s = Binary64.Num 326).
Proof.
  split; eexists _, _; (split; [vm_compute; reflexivity | reflexivity]).
Qed.



(** C9, as stated, fails: for 17% of 63450.02413273 at 39x, mark price 129041
    and contract size 0.01, the sizing returns 326 contracts, whose notional
    [326 * contractSize * markPrice] is above [p * available * leverage],
    whether the two products are taken exactly on the doubles the sizing
    worked with or are themselves computed in binary64. *)
Lemma C9_notional_within_allocation_counterexample :
  ~ (forall t symbol amount sd v tr s tr' acct tr1 p l c,
       Binary64Trader.calculateContractsFromPercentage t symbol amount sd v tr
         = (Ok s, tr') ->
       getMarginAccount t symbol v tr = (Ok acct, tr1) ->
       Binary64Trader.percentage s = Binary64.Num p ->
       Binary64Trader.leverage s = Binary64.Num l ->
       Binary64Trader.contracts s = Binary64.Num c ->
       0 < p -> 0 < Binary64Trader.extractMarginAvailableBalance acct -> 0 < l ->
       0 < Binary64Trader.markPrice s -> 0 < Binary64Trader.contractSize s ->
       c * Binary64Trader.contractSize s * Binary64Trader.markPrice s <=
         p * Binary64Trader.extractMarginAvailableBalance acct * l \/
       Binary64.leb
         (Binary64.mul
            (Binary64.mul (Binary64.Num c)
                          (Binary64.Num (Binary64Trader.contractSize s)))
            (Binary64.Num (Binary64Trader.markPrice s)))
         (Binary64.mul
            (Binary64.mul (Binary64.Num p)
               (Binary64.Num (Binary64Trader.extractMarginAvailableBalance acct)))
            (Binary64.Num l)) = true).
Proof.
  intro H.
  eassert (E : Binary64Trader.calculateContractsFromPercentage usdtTrader btc (JNum 17)
                 long roundingVenue [] = (Ok _, _)) by (vm_compute; reflexivity).
  eassert (Ea : getMarginAccount usdtTrader btc roundingVenue [] = (Ok _, _))
    by (vm_compute; reflexivity).
  specialize (H _ _ _ _ _ _ _ _ _ _ _ _ _ E Ea eq_refl eq_refl eq_refl
                eq_refl eq_refl eq_refl eq_refl eq_refl).
  vm_compute in H. destruct H as [H|H]; [apply H; reflexivity | discriminate H].
Qed.

(** C9 (amended): whenever the open sizing returns, for inputs of ordinary
    magnitude (the fraction, the available balance, the leverage, the mark
    price and the contract size each between [2^-200] and [2^200]) the
    notional of the order it computed exceeds the allocation by at most the
    rounding of the four operations:
    [contracts * contractSize * markPrice <=
     percentage * available * leverage * (1 + 2^-50)]. *)
Theorem C9_notional_within_allocation t symbol amount sd v tr s tr' :
  Binary64Trader.calculateContractsFromPercentage t symbol amount sd v tr = (Ok s, tr') ->
  exists acct tr1,
    getMarginAccount t symbol v tr = (Ok acct, tr1) /\
    Binary64Trader.normalizePercentage amount = Ok (Binary64Trader.percentage s) /\
    0 < Binary64Trader.extractMarginAvailableBalance acct /\
    0 < Binary64Trader.markPrice s /\ 0 < Binary64Trader.contractSize s /\
    forall p l,
      Binary64Trader.percentage s = Binary64.Num p ->
      Binary64Trader.leverage s = Binary64.Num l ->
      ordinary p -> ordinary (Binary64Trader.extractMarginAvailableBalance acct) ->
      ordinary l ->
      ordinary (Binary64Trader.markPrice s) -> ordinary (Binary64Trader.contractSize s) ->
      exists c : Z,
        Binary64Trader.contracts s = Binary64.Num (inject_Z c) /\ (1 <= c)%Z /\
        inject_Z c * Binary64Trader.contractSize s * Binary64Trader.markPrice s <=
          p * Binary64Trader.extractMarginAvailableBalance acct * l *
          (1 + Binary64.pow2 (-50)).
Proof.
  intro H.
  destruct (sizing_inversion _ _ _ _ _ _ _ _ H)
    as (p0 & acct & tr1 & info & tr2 & pos & Hp & Hacct & Hav & Hinfo & Hcs & Hmp
        & Hpos & Hk & Ek & Ecs & Emp & _ & El & Ep).
  exists acct, tr1.
  rewrite Ecs, Emp, Ep.
  split; [exact Hacct|]. split; [exact Hp|].
  split; [exact Hav|]. split; [exact Hmp|]. split; [exact Hcs|].
  intros p l Hp0 Hl Op Oa Ol Om Oc.
  rewrite El in Hl. rewrite Ek. rewrite Hp0, Hl in Hk |- *.
  destruct (sizing_roundings _ _ _ _ _ Op Oa Ol Om Oc)
    as (y1 & y2 & y3 & y4 & E1 & E2 & E3 & E4 & R1 & R2 & R3 & R4 & P1 & P2 & P3 & P4).
  rewrite E1, E2, E3, E4 in Hk |- *.
  cbn [Binary64.floor] in Hk |- *. cbn [positiveCount] in Hk.
  exists (Qfloor y4).
  split; [reflexivity|].
  split.
  { change 0 with (inject_Z 0) in Hk. rewrite <- Zlt_Qlt in Hk. lia. }
  apply relative_bounds in R1, R2, R3, R4.
  destruct R1 as [_ R1], R2 as [_ R2], R3 as [_ R3], R4 as [_ R4].
  destruct Op as [Op _], Ol as [Ol _].
  assert (Pp : 0 < p) by (apply Qlt_le_trans with (2 := Op); apply pow2_pos).
  assert (Pl : 0 < l) by (apply Qlt_le_trans with (2 := Ol); apply pow2_pos).
  set (t4 := Binary64.pow2 (-53)) in *.
  assert (Pt : 0 < 1 + t4) by reflexivity.
  assert (C := allocation_chain p _ l _ _ y1 y2 y3 y4 (1 + t4)
                 Pp Hav Pl Hmp Hcs Pt R1 R2 R3 R4).
  apply Qle_trans with (y4 * Binary64Trader.contractSizeOf info *
                        Binary64Trader.markPriceOf info).
  { apply Qmult_le_compat_r; [|apply Qlt_le_weak; exact Hmp].
    apply Qmult_le_compat_r; [apply Qfloor_le | apply Qlt_le_weak; exact Hcs]. }
  apply Qle_trans with (1 := C).
  rewrite !(Qmult_comm (p * Binary64Trader.extractMarginAvailableBalance acct * l)).
  apply Qmult_le_compat_r.
  - exact four_roundings.
  - apply Qlt_le_weak. repeat apply Qmult_lt_0_compat; assumption.
Qed.

Lemma C9_notional_within_allocation_witness :
  exists s tr p l (c : Z),
    Binary64Trader.calculateContractsFromPercentage usdtTrader btc (JNum 33) short
      sizingVenue [] = (Ok s, tr) /\
    Binary64Trader.percentage s = Binary64.Num p /\
    Binary64Trader.leverage s = Binary64.Num l /\
    Binary64Trader.contracts s = Binary64.Num (inject_Z c) /\ (1 <= c)%Z /\
    inject_Z c * Binary64Trader.contractSize s * Binary64Trader.markPrice s <=
      p * Binary64Trader.extractMarginAvailableBalance (marginAccount "1000" "5") * l *
      (1 + Binary64.pow2 (-50)).
Proof.
  eassert (E : Binary64Trader.calculateContractsFromPercentage usdtTrader btc (JNum 33)
                 short sizingVenue [] = (Ok _, _)) by (vm_compute; reflexivity).
  destruct (C9_notional_within_allocation _ _ _ _ _ _ _ _ E)
    as (acct & tr1 & Hacct & _ & _ & _ & _ & Hle).
  assert (Ea : Ok acct = Ok (marginAccount "1000" "5"))
    by exact (f_equal fst (eq_sym Hacct)).
  apply Ok_inj in Ea. subst acct.
  edestruct (Hle _ _ eq_refl eq_refl) as (c & Hc & H1 & Hb);
    [split; vm_compute; discriminate ..|].
  eexists _, _, _, _, c. split; [exact E|].
  split; [reflexivity|]. split; [reflexivity|].
  split; [exact Hc|]. split; [exact H1 | exact Hb].
Defined.

(** *** Normalizing the allocation in binary64 *)

Lemma normalize_number (a x : Q) :
  Binary64.round a = Binary64.Num x -> 0 < x ->
  Binary64Trader.normalizePercentage (JNum a) =
    Ok (if Qltb 1 x
        then Binary64.div (Binary64.Num x) (Binary64.Num 100)
        else Binary64.Num x).
Proof.
  intros Hr Hx. unfold Binary64Trader.normalizePercentage, Binary64Trader.parseNumberOrNull.
  cbn [toFinite]. rewrite Hr.
  rewrite (proj2 (Qle_bool_false _ _) Hx). reflexivity.
Qed.

(** C3, as stated, fails: an allocation of 1/128 is returned unchanged, and so
    is one hundred times it, 100/128, because 100/128 does not exceed 1.  Both
    numbers are doubles. *)
Lemma C3_normalize_scale_counterexample :
  ~ (forall a : Q, 0 < a -> a <= 1 ->
       sameOutcome (Binary64Trader.normalizePercentage (JNum a))
                   (Binary64Trader.normalizePercentage (JNum (a * 100)))).
Proof.
  intro H.
  assert (P : 0 < 1 # 128) by reflexivity.
  assert (L : 1 # 128 <= 1) by discriminate.
  specialize (H (1 # 128) P L).
  vm_compute in H. discriminate H.
Qed.

(** Even above 1/100 the two forms need not agree exactly: 0.013 is read as
    the double nearest to it, while 1.3 is divided by 100 and rounded, which
    gives the next double. *)
Lemma normalize_scale_rounds :
  ~ sameOutcome (Binary64Trader.normalizePercentage (JNum (13 # 1000)))
                (Binary64Trader.normalizePercentage (JNum ((13 # 1000) * 100))).
Proof. vm_compute. discriminate. Qed.

(** C3 (amended): for an allocation [a] in (0, 1], let [h] be the double
    nearest to [a * 100].  When [h] exceeds 1, normalizing [a] and normalizing
    [a * 100] give fractions that differ by at most [a * 2^-51], the rounding
    of the three conversions involved; when [h] is at most 1, [a * 100] is
    itself read as a fraction and [h] is returned as it is, unless it has
    rounded to zero, which is rejected. *)
Theorem C3_normalize_scale (a : Q) :
  0 < a -> a <= 1 ->
  exists h,
    Binary64.round (a * 100) = Binary64.Num h /\
    (1 < h ->
       exists p q,
         Binary64Trader.normalizePercentage (JNum a) = Ok (Binary64.Num p) /\
         Binary64Trader.normalizePercentage (JNum (a * 100)) = Ok (Binary64.Num q) /\
         Qabs (q - p) <= a * Binary64.pow2 (-51)) /\
    (0 < h -> h <= 1 ->
       Binary64Trader.normalizePercentage (JNum (a * 100)) = Ok (Binary64.Num h)) /\
    (h <= 0 ->
       Binary64Trader.normalizePercentage (JNum (a * 100)) =
         Throw "Amount must be a positive numeric percentage"%string).
Proof.
  intros Pa La.
  set (x := a * 100).
  assert (Px : 0 < x) by (unfold x; lra).
  assert (Lx : x <= inject_Z 100) by (unfold x; change (inject_Z 100) with 100; lra).
  assert (Bx : x < Binary64.pow2 53).
  { apply Qle_lt_trans with (1 := Lx). reflexivity. }
  destruct (roundMagnitude_integers x Px Bx) as [_ Hup].
  destruct (roundMagnitude_between x 0 100 Px Bx) as [_ Hh100];
    [change (inject_Z 0) with 0; lra | exact Lx |].
  set (h := Binary64.roundMagnitude x) in *.
  assert (Eh : Binary64.round x = Binary64.Num h).
  { apply round_positive; [exact Px|]. fold h.
    apply Qle_lt_trans with (1 := Hh100). reflexivity. }
  exists h. split; [exact Eh|]. split.
  - intro H1.
    (* the hundredfold is at least 1, so [a] is at least 1/100 *)
    assert (F1 : (1 <= Qfloor x)%Z).
    { assert (T : inject_Z 1 < inject_Z (Qfloor x + 1)).
      { change (inject_Z 1) with 1. lra. }
      rewrite <- Zlt_Qlt in T. lia. }
    assert (X1 : 1 <= x).
    { apply Qle_trans with (inject_Z (Qfloor x)); [|apply Qfloor_le].
      change 1 with (inject_Z 1). rewrite <- Zle_Qle. exact F1. }
    assert (A1 : Binary64.pow2 (-7) <= a).
    { apply Qle_trans with (1 # 100); [discriminate | unfold x in X1; lra]. }
    (* the three roundings *)
    destruct (round_normal a (-7) 0 A1 La ltac:(lia) ltac:(lia))
      as (p & Ep & Rp & Bp & _).
    assert (Pp : 0 < p) by (apply Qlt_le_trans with (2 := Bp); apply pow2_pos).
    assert (Lp : p <= 1).
    { assert (Ba : a < Binary64.pow2 53) by (apply Qle_lt_trans with (1 := La); reflexivity).
      destruct (roundMagnitude_between a 0 1 Pa Ba) as [_ T];
        [change (inject_Z 0) with 0; lra | exact La |].
      assert (Ep' := round_positive a Pa
                       ltac:(apply Qle_lt_trans with (1 := T); reflexivity)).
      rewrite Ep in Ep'. injection Ep' as ->. exact T. }
    assert (Rh : Qabs (h - x) <= x * Binary64.pow2 (-53)).
    { apply roundMagnitude_relative.
      apply Qle_trans with (2 := X1). discriminate. }
    assert (H100 : Binary64.pow2 (-7) <= h / 100).
    { apply Qle_shift_div_l; [reflexivity|].
      apply Qle_trans with 1; [discriminate | lra]. }
    assert (H100' : h / 100 <= Binary64.pow2 1).
    { apply Qle_shift_div_r; [reflexivity|].
      apply Qle_trans with (1 := Hh100). discriminate. }
    destruct (round_normal (h / 100) (-7) 1 H100 H100' ltac:(lia) ltac:(lia))
      as (q & Eq & Rq & _ & _).
    exists p, q.
    split.
    { rewrite (normalize_number a p Ep Pp).
      rewrite (proj2 (Qltb_false _ _) Lp). reflexivity. }
    split.
    { fold x. rewrite (normalize_number x h Eh ltac:(lra)).
      rewrite (proj2 (Qltb_true _ _) H1).
      unfold Binary64.div. rewrite (nonzero_test 100 ltac:(reflexivity)), Eq. reflexivity. }
    apply Qabs_Qle_condition in Rp, Rh, Rq.
    change (Binary64.pow2 (-53)) with (1 # 9007199254740992) in Rp, Rh, Rq.
    change (Binary64.pow2 (-51)) with (1 # 2251799813685248).
    apply Qabs_Qle_condition.
    unfold x in Rh. unfold Qdiv in Rq. change (/ 100) with (1 # 100) in Rq.
    destruct Rp, Rh, Rq. split; lra.
  - split.
    + intros H0 H1.
      fold x. rewrite (normalize_number x h Eh H0).
      rewrite (proj2 (Qltb_false _ _) H1). reflexivity.
    + intro H0. fold x.
      unfold Binary64Trader.normalizePercentage, Binary64Trader.parseNumberOrNull.
      cbn [toFinite]. rewrite Eh.
      rewrite (proj2 (Qle_bool_iff _ _) H0). reflexivity.
Qed.

Lemma C3_normalize_scale_witness :
  exists p q,
    Binary64Trader.normalizePercentage (JNum (1 # 10)) = Ok (Binary64.Num p) /\
    Binary64Trader.normalizePercentage (JNum ((1 # 10) * 100)) = Ok (Binary64.Num q) /\
    Qabs (q - p) <= (1 # 10) * Binary64.pow2 (-51).
Proof.
  destruct (C3_normalize_scale (1 # 10)) as (h & Eh & Hbig & _);
    [reflexivity | discriminate |].
  apply Hbig.
  vm_compute in Eh. injection Eh as <-. reflexivity.
Defined.

(** *** Close-size conversion *)


Lemma floor_of_nonnegative (x : Q) : 0 <= x -> (0 <= Qfloor x)%Z.
Proof.
  intro H. change 0%Z with (Qfloor 0). apply Qfloor_resp_le. exact H.
Qed.

Lemma conversion_steps t symbol amount v tr info tr' :
  getContract t symbol v tr = (Ok info, tr') ->
  0 < Binary64Trader.contractSizeOf info ->
  Binary64Trader.convertBaseAmountToContracts t symbol amount v tr =
    (Ok {| Binary64Trader.convContractSize := Binary64Trader.contractSizeOf info;
           Binary64Trader.convContracts :=
             Binary64.abs
               (Binary64.floor
                  (Binary64.div amount
                     (Binary64.Num (Binary64Trader.contractSizeOf info)))) |}, tr').
Proof.
  intros Hinfo Hcs. unfold Binary64Trader.convertBaseAmountToContracts.
  rewrite (bind_ok _ _ _ _ _ _ Hinfo).
  rewrite (proj2 (Qle_bool_false _ _) Hcs). reflexivity.
Qed.

(** Rounding a rational gives a double or an infinity. *)
Lemma round_not_nan (x : Q) : Binary64.round x <> Binary64.NaN.
Proof.
  unfold Binary64.round.
  destruct (Qcompare x 0); cbv zeta;
    try match goal with |- context [if ?b then _ else _] => destruct b end;
    discriminate.
Qed.

Lemma abs_floor_nonneg (r : Binary64.number) :
  r <> Binary64.NaN ->
  Binary64.leb (Binary64.Num 0) (Binary64.abs (Binary64.floor r)) = true.
Proof.
  destruct r as [y|s|]; intro H; [| reflexivity | contradiction H; reflexivity].
  cbn [Binary64.floor Binary64.abs Binary64.leb]. apply Qle_bool_iff. apply Qabs_nonneg.
Qed.

(** The floor of a rounded quotient below [2^53] is the floor of the
    quotient, or one more. *)
Lemma floor_of_rounded (x : Q) :
  0 <= x -> x < Binary64.pow2 53 ->
  exists k : Z,
    Binary64.floor (Binary64.round x) = Binary64.Num (inject_Z k) /\
    (Qfloor x <= k <= Qfloor x + 1)%Z.
Proof.
  intros Hx Bx.
  destruct (Qlt_le_dec 0 x) as [Px|Zx].
  - destruct (roundMagnitude_integers x Px Bx) as [Hlo Hhi].
    assert (Fin : Binary64.roundMagnitude x < Binary64.pow2 1024).
    { apply Qle_lt_trans with (1 := Hhi).
      apply Qle_lt_trans with (inject_Z (Qfloor (Binary64.pow2 53) + 1)).
      - rewrite <- Zle_Qle. apply Z.add_le_mono_r.
        apply Qfloor_resp_le. apply Qlt_le_weak. exact Bx.
      - reflexivity. }
    rewrite (round_positive x Px Fin).
    exists (Qfloor (Binary64.roundMagnitude x)).
    split; [reflexivity|]. split.
    + rewrite <- (Qfloor_Z (Qfloor x)). apply Qfloor_resp_le. exact Hlo.
    + rewrite <- (Qfloor_Z (Qfloor x + 1)). apply Qfloor_resp_le. exact Hhi.
  - assert (E0 : x == 0) by lra.
    assert (Ec : Qcompare x 0 = Eq) by (apply Qeq_alt; exact E0).
    unfold Binary64.round. rewrite Ec.
    exists 0%Z. split; [reflexivity|].
    rewrite E0. change (Qfloor 0) with 0%Z. lia.
Qed.

Lemma Qabs_of_nonneg (a : Q) : 0 <= a -> Qabs a = a.
Proof.
  destruct a as [n d]. unfold Qle, Qabs. cbn. intro H.
  f_equal. apply Z.abs_eq. lia.
Qed.

(** [Math.abs] changes nothing on the floor of a rounded non-negative
    quotient. *)
Lemma abs_floor_of_nonneg (x : Q) :
  0 <= x ->
  Binary64.abs (Binary64.floor (Binary64.round x)) =
    Binary64.floor (Binary64.round x).
Proof.
  intro Hx. unfold Binary64.round.
  destruct (Qcompare x 0) eqn:Ec.
  - reflexivity.
  - apply Qlt_alt in Ec. exfalso. apply (Qlt_not_le _ _ Ec Hx).
  - cbv zeta.
    destruct (Qle_bool (Binary64.pow2 1024) (Binary64.roundMagnitude x));
      [reflexivity|].
    cbn [Binary64.floor Binary64.abs]. f_equal. apply Qabs_of_nonneg.
    change 0 with (inject_Z 0). rewrite <- Zle_Qle.
    apply floor_of_nonnegative. apply roundMagnitude_nonneg. exact Hx.
Qed.

(** C8, as stated, fails: for the base amount -3/2 and contract size 1 the
    conversion returns |floor(-3/2)| = 2, not floor(|-3/2|) = 1. *)
Lemma C8_close_size_counterexample :
  ~ (forall t symbol a v tr conv tr',
       Binary64Trader.convertBaseAmountToContracts t symbol (Binary64.Num a) v tr
         = (Ok conv, tr') ->
       sameNumber
         (Binary64Trader.convContracts conv)
         (Binary64.Num
            (inject_Z (Qfloor (Qabs a / Binary64Trader.convContractSize conv))))).
Proof.
  intro H.
  eassert (E : Binary64Trader.convertBaseAmountToContracts usdtTrader btc
                 (Binary64.Num (- (3 # 2))) flatVenue [] = (Ok _, _))
    by (vm_compute; reflexivity).
  specialize (H _ _ _ _ _ _ _ E). vm_compute in H. discriminate H.
Qed.

(** Nor is the result the floor of the exact quotient for positive amounts:
    0.5 at contract size 0.1 converts to 5 contracts, because the quotient of
    the two doubles, just below 5, rounds to 5. *)
Lemma close_size_rounds_up :
  exists conv tr k,
    Binary64.round (1 # 2) = Binary64.Num k /\
    Binary64Trader.convertBaseAmountToContracts usdtTrader btc (Binary64.Num k)
      tenthVenue [] = (Ok conv, tr) /\
    Binary64Trader.convContracts conv = Binary64.Num 5 /\
    Qfloor (k / Binary64Trader.convContractSize conv) = 4%Z.
Proof.
  eexists _, _, _. split; [vm_compute; reflexivity|].
  split; [vm_compute; reflexivity|].
  split; vm_compute; reflexivity.
Qed.

(** C8 (amended): for every base amount and every positive contract size the
    conversion returns [|floor (baseAmount / contractSize)|], the quotient
    being the binary64 quotient; for a finite amount the result is never
    negative; for a non-negative amount it is
    [floor (|baseAmount| / contractSize)], which is the floor of the exact
    quotient, or one more, when that quotient is below [2^53]. *)
Theorem C8_close_size_conversion t symbol amount v tr info tr' :
  getContract t symbol v tr = (Ok info, tr') ->
  0 < Binary64Trader.contractSizeOf info ->
  exists conv,
    Binary64Trader.convertBaseAmountToContracts t symbol amount v tr = (Ok conv, tr') /\
    Binary64Trader.convContractSize conv = Binary64Trader.contractSizeOf info /\
    Binary64Trader.convContracts conv =
      Binary64.abs
        (Binary64.floor
           (Binary64.div amount (Binary64.Num (Binary64Trader.contractSizeOf info)))) /\
    forall a, amount = Binary64.Num a ->
      Binary64.leb (Binary64.Num 0) (Binary64Trader.convContracts conv) = true /\
      (0 <= a ->
       Binary64Trader.convContracts conv =
         Binary64.floor
           (Binary64.div (Binary64.abs amount)
              (Binary64.Num (Binary64Trader.contractSizeOf info))) /\
       (a / Binary64Trader.contractSizeOf info < Binary64.pow2 53 ->
        exists k : Z,
          Binary64Trader.convContracts conv = Binary64.Num (inject_Z k) /\
          (Qfloor (a / Binary64Trader.contractSizeOf info) <= k <=
           Qfloor (a / Binary64Trader.contractSizeOf info) + 1)%Z)).
Proof.
  intros Hinfo Hcs. eexists. split; [apply conversion_steps; eassumption|].
  cbn [Binary64Trader.convContractSize Binary64Trader.convContracts].
  split; [reflexivity|]. split; [reflexivity|].
  intros a ->.
  cbn [Binary64.abs]. unfold Binary64.div. rewrite (nonzero_test _ Hcs).
  split.
  - apply abs_floor_nonneg. apply round_not_nan.
  - intro Ha.
    assert (Hq : 0 <= a / Binary64Trader.contractSizeOf info).
    { apply Qle_shift_div_l; [exact Hcs | lra]. }
    rewrite (Qabs_of_nonneg a Ha), (abs_floor_of_nonneg _ Hq).
    split; [reflexivity|].
    intro Bq. apply floor_of_rounded; assumption.
Qed.

Lemma C8_close_size_conversion_witness :
  exists conv tr,
    Binary64Trader.convertBaseAmountToContracts usdtTrader btc (Binary64.Num (7 # 2))
      flatVenue [] = (Ok conv, tr) /\
    Binary64Trader.convContracts conv = Binary64.Num 3.
Proof.
  eassert (E : getContract usdtTrader btc flatVenue [] = (Ok _, _))
    by (vm_compute; reflexivity).
  edestruct (C8_close_size_conversion usdtTrader btc (Binary64.Num (7 # 2)) flatVenue []
               _ _ E) as (conv & Hc & _ & Hk & _); [vm_compute; reflexivity|].
  exists conv. eexists. split; [exact Hc|].
  rewrite Hk. vm_compute. reflexivity.
Defined.

(** *** Closing a position *)

Lemma tryCatch_bind_ok {A B : Type} (c : M A) (k : A -> M B) h v tr a tr' :
  c v tr = (Ok a, tr') -> tryCatch (bind c k) h v tr = tryCatch (k a) h v tr'.
Proof.
  intro H. unfold tryCatch, bind. rewrite H. reflexivity.
Qed.

Lemma tryCatch_bind_throw {A B : Type} (c : M A) (k : A -> M B) h v tr m tr' :
  c v tr = (Throw m, tr') -> tryCatch (bind c k) h v tr = h m v tr'.
Proof.
  intro H. unfold tryCatch, bind. rewrite H. reflexivity.
Qed.

Lemma tryCatch_post path body (h : string -> string) v tr :
  snd (tryCatch (post path body) (fun m => throw (h m)) v tr) =
    tr ++ [{| method := "POST"; endpoint := path; data := body; query := "" |}].
Proof.
  unfold tryCatch, post, send, throw. destruct (v tr _); reflexivity.
Qed.

Lemma trace_of_reads {A : Type} (c : M A) v tr r tr' :
  readsOnly c -> c v tr = (r, tr') -> exists ext, tr' = tr ++ ext /\ onlyGets ext.
Proof.
  intros Hc E. destruct (Hc v tr) as (ext & Hs & Hg).
  rewrite E in Hs. exists ext. split; assumption.
Qed.

Lemma sideAbsentOrFlat_test position sd :
  sideAbsentOrFlat position sd ->
  exists size,
    getSideSize position sd = Ok size /\
    negb (truthy position) || Qle_bool size 0 = true.
Proof.
  intros [Hf|(size & E & Hle)].
  - exists 0. unfold getSideSize. rewrite Hf. split; reflexivity.
  - exists size. split; [exact E|].
    apply orb_true_iff. right. apply Qle_bool_iff. exact Hle.
Qed.

Lemma positive_side_truthy position sd size :
  getSideSize position sd = Ok size -> 0 < size -> truthy position = true.
Proof.
  intros E Hs. destruct (truthy position) eqn:Ht; [reflexivity|].
  unfold getSideSize in E. rewrite Ht in E. simpl in E.
  apply Ok_inj in E. subst size. exfalso. apply (Qlt_irrefl 0). exact Hs.
Qed.

Lemma marketSell_without_position t symbol amount v tr pos tr1 :
  getPosition t symbol v tr = (Ok pos, tr1) ->
  sideAbsentOrFlat pos long ->
  (exists ext,
     snd (marketSell t symbol amount v tr) = tr ++ ext /\
     placedOrders t ext = []) /\
  (forall conv tr2,
     convertBaseAmountToContracts t symbol amount v tr1 = (Ok conv, tr2) ->
     marketSell t symbol amount v tr =
       (Ok (statusResult "no_position" "No long position to close"), tr2)).
Proof.
  intros Hpos Hflat.
  destruct (sideAbsentOrFlat_test _ _ Hflat) as (size & Hsize & Htest).
  destruct (trace_of_reads _ _ _ _ _ (getPosition_reads t symbol) Hpos)
    as (e1 & E1 & G1).
  assert (Hok : forall conv tr2,
     convertBaseAmountToContracts t symbol amount v tr1 = (Ok conv, tr2) ->
     marketSell t symbol amount v tr =
       (Ok (statusResult "no_position" "No long position to close"), tr2)).
  { intros conv tr2 Hconv. unfold marketSell.
    rewrite (tryCatch_bind_ok _ _ _ _ _ _ _ Hpos).
    rewrite (tryCatch_bind_ok _ _ _ _ _ _ _ Hconv).
    rewrite Hsize. unfold lift at 1.
    rewrite (tryCatch_bind_ok _ _ _ _ _ size tr2 eq_refl).
    rewrite Htest. reflexivity. }
  split; [|exact Hok].
  destruct (convertBaseAmountToContracts t symbol amount v tr1)
    as [[conv|m] tr2] eqn:Hconv;
    destruct (trace_of_reads _ _ _ _ _ (convert_reads t symbol amount) Hconv)
      as (e2 & E2 & G2);
    exists (e1 ++ e2);
    (split; [|apply onlyGets_placedOrders, onlyGets_app; assumption]).
  - rewrite (Hok conv tr2 eq_refl). simpl. subst. symmetry; apply app_assoc.
  - unfold marketSell.
    rewrite (tryCatch_bind_ok _ _ _ _ _ _ _ Hpos).
    rewrite (tryCatch_bind_throw _ _ _ _ _ _ _ Hconv).
    simpl. subst. symmetry; apply app_assoc.
Qed.

Lemma closeShort_without_position t symbol amount v tr pos tr1 :
  getPosition t symbol v tr = (Ok pos, tr1) ->
  sideAbsentOrFlat pos short ->
  (exists ext,
     snd (closeShort t symbol amount v tr) = tr ++ ext /\
     placedOrders t ext = []) /\
  (forall conv tr2,
     convertBaseAmountToContracts t symbol amount v tr1 = (Ok conv, tr2) ->
     closeShort t symbol amount v tr =
       (Ok (statusResult "no_position" "No short position to close"), tr2)).
Proof.
  intros Hpos Hflat.
  destruct (sideAbsentOrFlat_test _ _ Hflat) as (size & Hsize & Htest).
  destruct (trace_of_reads _ _ _ _ _ (getPosition_reads t symbol) Hpos)
    as (e1 & E1 & G1).
  assert (Hok : forall conv tr2,
     convertBaseAmountToContracts t symbol amount v tr1 = (Ok conv, tr2) ->
     closeShort t symbol amount v tr =
       (Ok (statusResult "no_position" "No short position to close"), tr2)).
  { intros conv tr2 Hconv. unfold closeShort.
    rewrite (tryCatch_bind_ok _ _ _ _ _ _ _ Hpos).
    rewrite (tryCatch_bind_ok _ _ _ _ _ _ _ Hconv).
    rewrite Hsize. unfold lift at 1.
    rewrite (tryCatch_bind_ok _ _ _ _ _ size tr2 eq_refl).
    rewrite Htest. reflexivity. }
  split; [|exact Hok].
  destruct (convertBaseAmountToContracts t symbol amount v tr1)
    as [[conv|m] tr2] eqn:Hconv;
    destruct (trace_of_reads _ _ _ _ _ (convert_reads t symbol amount) Hconv)
      as (e2 & E2 & G2);
    exists (e1 ++ e2);
    (split; [|apply onlyGets_placedOrders, onlyGets_app; assumption]).
  - rewrite (Hok conv tr2 eq_refl). simpl. subst. symmetry; apply app_assoc.
  - unfold closeShort.
    rewrite (tryCatch_bind_ok _ _ _ _ _ _ _ Hpos).
    rewrite (tryCatch_bind_throw _ _ _ _ _ _ _ Hconv).
    simpl. subst. symmetry; apply app_assoc.
Qed.

(** C7, as stated, fails: with the venue unreachable the position is absent,
    yet [marketSell] does not return [no_position]; the contract fetch that
    precedes the test throws and the call rethrows. *)
Lemma C7_close_without_position_counterexample :
  ~ (forall t symbol amount v tr pos tr1,
       getPosition t symbol v tr = (Ok pos, tr1) ->
       sideAbsentOrFlat pos long ->
       exists res tr',
         marketSell t symbol amount v tr = (Ok res, tr') /\
         getProp res "status" = JStr "no_position").
Proof.
  intro H.
  eassert (E : getPosition usdtTrader btc downVenue [] = (Ok JNull, _))
    by (vm_compute; reflexivity).
  destruct (H usdtTrader btc 1 downVenue [] JNull _ E (or_introl eq_refl))
    as (res & tr' & Hres & _).
  vm_compute in Hres. discriminate Hres.
Qed.

(** A conversion that fails ends the close: the error is rethrown behind the
    prefix of the action, whatever the position is. *)
Lemma marketSell_conversion_error t symbol amount v tr pos tr1 m tr2 :
  getPosition t symbol v tr = (Ok pos, tr1) ->
  convertBaseAmountToContracts t symbol amount v tr1 = (Throw m, tr2) ->
  marketSell t symbol amount v tr = (Throw (longExitPrefix ++ m)%string, tr2).
Proof.
  intros Hpos Hconv. unfold marketSell.
  rewrite (tryCatch_bind_ok _ _ _ _ _ _ _ Hpos).
  rewrite (tryCatch_bind_throw _ _ _ _ _ _ _ Hconv). reflexivity.
Qed.

Lemma closeShort_conversion_error t symbol amount v tr pos tr1 m tr2 :
  getPosition t symbol v tr = (Ok pos, tr1) ->
  convertBaseAmountToContracts t symbol amount v tr1 = (Throw m, tr2) ->
  closeShort t symbol amount v tr = (Throw (shortExitPrefix ++ m)%string, tr2).
Proof.
  intros Hpos Hconv. unfold closeShort.
  rewrite (tryCatch_bind_ok _ _ _ _ _ _ _ Hpos).
  rewrite (tryCatch_bind_throw _ _ _ _ _ _ _ Hconv). reflexivity.
Qed.

(** C7 (amended): when the fetched position is absent or the size of the
    requested side is not positive, a close ([marketSell] for the long side,
    [closeShort] for the short side) submits no order; it returns a result
    with status ['no_position'] provided the conversion of the amount to
    contracts, which runs before the test, succeeds; and when the conversion
    fails it throws the conversion's error behind the prefix of the
    action. *)
Theorem C7_close_without_position t symbol amount v tr pos tr1 :
  getPosition t symbol v tr = (Ok pos, tr1) ->
  (sideAbsentOrFlat pos long ->
     (exists ext,
        snd (marketSell t symbol amount v tr) = tr ++ ext /\
        placedOrders t ext = []) /\
     (forall conv tr2,
        convertBaseAmountToContracts t symbol amount v tr1 = (Ok conv, tr2) ->
        exists res,
          marketSell t symbol amount v tr = (Ok res, tr2) /\
          getProp res "status" = JStr "no_position") /\
     (forall m tr2,
        convertBaseAmountToContracts t symbol amount v tr1 = (Throw m, tr2) ->
        marketSell t symbol amount v tr =
          (Throw (longExitPrefix ++ m)%string, tr2))) /\
  (sideAbsentOrFlat pos short ->
     (exists ext,
        snd (closeShort t symbol amount v tr) = tr ++ ext /\
        placedOrders t ext = []) /\
     (forall conv tr2,
        convertBaseAmountToContracts t symbol amount v tr1 = (Ok conv, tr2) ->
        exists res,
          closeShort t symbol amount v tr = (Ok res, tr2) /\
          getProp res "status" = JStr "no_position") /\
     (forall m tr2,
        convertBaseAmountToContracts t symbol amount v tr1 = (Throw m, tr2) ->
        closeShort t symbol amount v tr =
          (Throw (shortExitPrefix ++ m)%string, tr2))).
Proof.
  intro Hpos. split; intro Hflat.
  - destruct (marketSell_without_position t symbol amount v tr pos tr1 Hpos Hflat)
      as [Htrace Hret].
    split; [exact Htrace|]. split.
    + intros conv tr2 Hconv. eexists.
      split; [apply (Hret conv tr2 Hconv)|reflexivity].
    + intros m tr2 Hconv.
      apply (marketSell_conversion_error t symbol amount v tr pos tr1 m tr2 Hpos Hconv).
  - destruct (closeShort_without_position t symbol amount v tr pos tr1 Hpos Hflat)
      as [Htrace Hret].
    split; [exact Htrace|]. split.
    + intros conv tr2 Hconv. eexists.
      split; [apply (Hret conv tr2 Hconv)|reflexivity].
    + intros m tr2 Hconv.
      apply (closeShort_conversion_error t symbol amount v tr pos tr1 m tr2 Hpos Hconv).
Qed.

Lemma C7_close_without_position_witness :
  placedOrders usdtTrader (snd (marketSell usdtTrader btc 10 flatVenue [])) = [] /\
  exists res tr,
    marketSell usdtTrader btc 10 flatVenue [] = (Ok res, tr) /\
    getProp res "status" = JStr "no_position".
Proof.
  eassert (Ep : getPosition usdtTrader btc flatVenue [] = (Ok _, _))
    by (vm_compute; reflexivity).
  eassert (Ec : convertBaseAmountToContracts usdtTrader btc 10 flatVenue _ = (Ok _, _))
    by (vm_compute; reflexivity).
  destruct (C7_close_without_position usdtTrader btc 10 flatVenue [] _ _ Ep)
    as [Hlong _].
  destruct Hlong as [(ext & Hext & Hnone) [Hret _]].
  { right. exists 0. split; [reflexivity | discriminate]. }
  split.
  - rewrite Hext. exact Hnone.
  - destruct (Hret _ _ Ec) as (res & Hres & Hstatus).
    exists res. eexists. split; [exact Hres | exact Hstatus].
Defined.

Lemma clamp_magnitude (r s : Q) :
  0 < r -> 0 < s ->
  Qmin r (Qabs s) == Qmin r s /\ 0 < Qmin r s /\ Qmin r s <= s.
Proof.
  intros Hr Hs.
  assert (Ha : Qabs s == s) by (apply Qabs_pos; lra).
  destruct (Q.min_spec r (Qabs s)) as [[H1 E1]|[H1 E1]];
    destruct (Q.min_spec r s) as [[H2 E2]|[H2 E2]];
    rewrite E1, E2; repeat split; lra.
Qed.

Lemma marketSell_dual_trace t symbol amount v tr pos tr1 conv tr2 s :
  getPosition t symbol v tr = (Ok pos, tr1) ->
  convertBaseAmountToContracts t symbol amount v tr1 = (Ok conv, tr2) ->
  strictEqStr (determinePositionMode t pos) "dual_long_short" = true ->
  (0 < convContracts conv)%Z ->
  getSideSize pos long = Ok s -> 0 < s ->
  snd (marketSell t symbol amount v tr) =
    tr2 ++ [orderRequest t
              (order (parseSymbol symbol)
                     (- Qmin (inject_Z (convContracts conv)) (Qabs s))
                     "t-long-exit" true)].
Proof.
  intros Hpos Hconv Hdual Hreq Hsize Hs. unfold marketSell.
  rewrite (tryCatch_bind_ok _ _ _ _ _ _ _ Hpos).
  rewrite (tryCatch_bind_ok _ _ _ _ _ _ _ Hconv).
  rewrite Hsize. unfold lift at 1.
  rewrite (tryCatch_bind_ok _ _ _ _ _ s tr2 eq_refl).
  rewrite (positive_side_truthy _ _ _ Hsize Hs).
  rewrite (proj2 (Qle_bool_false _ _) Hs).
  assert (E : Z.eqb (convContracts conv) 0 || Z.leb (convContracts conv) 0 = false).
  { apply orb_false_iff. split; [apply Z.eqb_neq | apply Z.leb_gt]; lia. }
  simpl negb. simpl orb. rewrite E, Hdual.
  apply tryCatch_post.
Qed.

Lemma closeShort_dual_trace t symbol amount v tr pos tr1 conv tr2 s :
  getPosition t symbol v tr = (Ok pos, tr1) ->
  convertBaseAmountToContracts t symbol amount v tr1 = (Ok conv, tr2) ->
  strictEqStr (determinePositionMode t pos) "dual_long_short" = true ->
  (0 < convContracts conv)%Z ->
  getSideSize pos short = Ok s -> 0 < s ->
  snd (closeShort t symbol amount v tr) =
    tr2 ++ [orderRequest t
              (order (parseSymbol symbol)
                     (Qmin (inject_Z (convContracts conv)) (Qabs s))
                     "t-short-exit" true)].
Proof.
  intros Hpos Hconv Hdual Hreq Hsize Hs. unfold closeShort.
  rewrite (tryCatch_bind_ok _ _ _ _ _ _ _ Hpos).
  rewrite (tryCatch_bind_ok _ _ _ _ _ _ _ Hconv).
  rewrite Hsize. unfold lift at 1.
  rewrite (tryCatch_bind_ok _ _ _ _ _ s tr2 eq_refl).
  rewrite (positive_side_truthy _ _ _ Hsize Hs).
  rewrite (proj2 (Qle_bool_false _ _) Hs).
  assert (E : Z.eqb (convContracts conv) 0 || Z.leb (convContracts conv) 0 = false).
  { apply orb_false_iff. split; [apply Z.eqb_neq | apply Z.leb_gt]; lia. }
  simpl negb. simpl orb. rewrite E, Hdual.
  apply tryCatch_post.
Qed.

(** C6: in dual position mode, with [r > 0] requested contracts and an open
    size [s > 0] on the side being closed, the one order submitted has size
    [-min r s] for a long exit and [+min r s] for a short exit, so its
    magnitude is [min r s] and never exceeds the open size. *)
Theorem C6_dual_close_clamp t symbol amount v tr pos tr1 conv tr2 :
  getPosition t symbol v tr = (Ok pos, tr1) ->
  convertBaseAmountToContracts t symbol amount v tr1 = (Ok conv, tr2) ->
  strictEqStr (determinePositionMode t pos) "dual_long_short" = true ->
  (0 < convContracts conv)%Z ->
  let r := inject_Z (convContracts conv) in
  (forall s, getSideSize pos long = Ok s -> 0 < s ->
     exists signedSize,
       snd (marketSell t symbol amount v tr) =
         tr2 ++ [orderRequest t
                   (order (parseSymbol symbol) signedSize "t-long-exit" true)] /\
       signedSize == - Qmin r s /\
       Qabs signedSize == Qmin r s /\ Qabs signedSize <= s) /\
  (forall s, getSideSize pos short = Ok s -> 0 < s ->
     exists signedSize,
       snd (closeShort t symbol amount v tr) =
         tr2 ++ [orderRequest t
                   (order (parseSymbol symbol) signedSize "t-short-exit" true)] /\
       signedSize == Qmin r s /\
       Qabs signedSize == Qmin r s /\ Qabs signedSize <= s).
Proof.
  intros Hpos Hconv Hdual Hreq r.
  assert (Hr : 0 < r).
  { unfold r. change 0 with (inject_Z 0). rewrite <- Zlt_Qlt. exact Hreq. }
  split; intros s Hsize Hs;
    destruct (clamp_magnitude r s Hr Hs) as (Hmin & Hminpos & Hmins);
    eexists; (split; [eauto using marketSell_dual_trace, closeShort_dual_trace|]);
    fold r.
  - split; [rewrite Hmin; reflexivity|].
    rewrite Qabs_opp, Hmin, (Qabs_pos (Qmin r s)); [|lra].
    split; [reflexivity | exact Hmins].
  - split; [exact Hmin|].
    rewrite Hmin, (Qabs_pos (Qmin r s)); [|lra].
    split; [reflexivity | exact Hmins].
Qed.

(** The numbers of the specification: 3 contracts long, 10 requested, the
    order submitted has size -3. *)
Lemma C6_dual_close_clamp_witness :
  exists signedSize,
    placedOrders usdtTrader (snd (marketSell usdtTrader btc 10 hedgedVenue [])) =
      [order "BTC_USDT" signedSize "t-long-exit" true] /\
    signedSize == - 3.
Proof.
  eassert (Ep : getPosition usdtTrader btc hedgedVenue [] = (Ok _, _))
    by (vm_compute; reflexivity).
  eassert (Ec : convertBaseAmountToContracts usdtTrader btc 10 hedgedVenue _ = (Ok _, _))
    by (vm_compute; reflexivity).
  destruct (C6_dual_close_clamp usdtTrader btc 10 hedgedVenue [] _ _ _ _ Ep Ec
              eq_refl eq_refl) as [Hlong _].
  destruct (Hlong 3 eq_refl eq_refl) as (z & Htrace & Hz & _).
  exists z. split; [|exact Hz].
  rewrite Htrace. reflexivity.
Defined.

(** *** The leverage carried by the signal *)

(** C4 (the code at a failing input): [handleWebhook] passes the leverage of
    the signal to [marketBuy] and [openShort], which do not take it, so the
    outcome is the same for every leverage value; a long entry of 10% with
    leverage 5, on 1000 available, mark price 100 and contract size 1,
    against a position configured at 10x, submits 10 contracts, where the
    override would give 5. *)
Theorem C4_signal_leverage_dropped :
  (forall t a amt sym l1 l2 v tr,
      handleWebhook t {| action := a; amount := amt; symbol := sym;
                         payloadLeverage := l1 |} v tr =
      handleWebhook t {| action := a; amount := amt; symbol := sym;
                         payloadLeverage := l2 |} v tr) /\
  placedOrders usdtTrader
    (snd (run (handleWebhook usdtTrader (entrySignal 5)) leveragedVenue)) =
    [order "BTC_USDT" (inject_Z 10) "t-long-entry" false] /\
  Qfloor ((1 # 10) * 1000 * payloadLeverage (entrySignal 5) / 100 / 1) = 5%Z.
Proof.
  split; [reflexivity|]. split; vm_compute; reflexivity.
Qed.

(** ** Further properties of the trader *)

(** *** Allocation and symbol *)

(** X1: every fraction [normalizePercentage] returns is positive, and an
    amount in (0, 100], the range the gateway admits, normalizes to a
    fraction in (0, 1]. *)
Theorem X1_normalizePercentage_range :
  (forall amount p, normalizePercentage amount = Ok p -> 0 < p) /\
  (forall a, 0 < a -> a <= 100 ->
     exists p, normalizePercentage (JNum a) = Ok p /\ 0 < p /\ p <= 1).
Proof.
  split.
  - intros amount p H. unfold normalizePercentage in H.
    destruct (parseNumberOrNull amount) as [parsed|]; [|discriminate H].
    destruct (Qle_bool parsed 0) eqn:E0; [discriminate H|].
    apply Ok_inj in H. subst p. qtests.
    destruct (Qltb 1 parsed) eqn:E1; qtests; [|exact E0].
    apply Qlt_shift_div_l; lra.
  - intros a Hpos Hle. rewrite (normalizePercentage_num a Hpos).
    eexists. split; [reflexivity|].
    destruct (Qltb 1 a) eqn:E1; qtests.
    + split; [apply Qlt_shift_div_l; lra | apply Qle_shift_div_r; lra].
    + split; assumption.
Qed.

Lemma X1_normalizePercentage_range_witness :
  exists p, normalizePercentage (JNum 25) = Ok p /\ 0 < p /\ p <= 1.
Proof.
  apply (proj2 X1_normalizePercentage_range 25); [reflexivity | discriminate].
Defined.



Ltac unroll := cbn [occurs beforeColon replaceSlash append].

Lemma beforeColon_clean (s : string) : occurs ":" (beforeColon s) = false.
Proof.
  induction s as [|c r IH]; [reflexivity|]. unroll.
  destruct (Ascii.eqb c ":") eqn:E; [reflexivity|].
  unroll. rewrite Ascii.eqb_sym, E. exact IH.
Qed.

Lemma replaceSlash_colon (s : string) :
  occurs ":" s = false -> occurs ":" (replaceSlash s) = false.
Proof.
  induction s as [|c r IH]; [reflexivity|]. unroll. intro H.
  apply orb_false_iff in H. destruct H as [Hc Hr].
  destruct (Ascii.eqb c "/") eqn:E; unroll.
  - rewrite Hr. reflexivity.
  - rewrite Hc. apply IH. exact Hr.
Qed.

Lemma beforeColon_app (base rest : string) :
  occurs ":" base = false ->
  beforeColon (base ++ String ":" rest) = base.
Proof.
  induction base as [|c r IH]; unroll; intro H; [reflexivity|].
  apply orb_false_iff in H. destruct H as [Hc Hr].
  rewrite Ascii.eqb_sym, Hc. f_equal. apply IH. exact Hr.
Qed.

Lemma beforeColon_id (s : string) :
  occurs ":" s = false -> beforeColon s = s.
Proof.
  induction s as [|c r IH]; unroll; intro H; [reflexivity|].
  apply orb_false_iff in H. destruct H as [Hc Hr].
  rewrite Ascii.eqb_sym, Hc. f_equal. apply IH. exact Hr.
Qed.

Lemma replaceSlash_app (a b : string) :
  occurs "/" a = false ->
  replaceSlash (a ++ String "/" b) = (a ++ String "_" b)%string.
Proof.
  induction a as [|c r IH]; unroll; intro H; [reflexivity|].
  apply orb_false_iff in H. destruct H as [Hc Hr].
  rewrite Ascii.eqb_sym, Hc. f_equal. apply IH. exact Hr.
Qed.

Lemma occurs_app (c : ascii) (a b : string) :
  occurs c (a ++ b) = occurs c a || occurs c b.
Proof.
  induction a as [|x r IH]; unroll; [reflexivity|].
  rewrite IH. apply orb_assoc.
Qed.

(** X3: [parseSymbol] drops everything from the first colon on, so a symbol
    with and without its settlement suffix name the same contract; what it
    returns has no colon; and [BASE/QUOTE] becomes [BASE_QUOTE]. *)
Theorem X3_parseSymbol_contract :
  (forall base suffix, occurs ":" base = false ->
     parseSymbol (base ++ String ":" suffix) = parseSymbol base) /\
  (forall s, occurs ":" (parseSymbol s) = false) /\
  (forall a b, occurs "/" a = false -> occurs ":" a = false ->
     occurs ":" b = false ->
     parseSymbol (a ++ String "/" b) = (a ++ String "_" b)%string).
Proof.
  split; [|split].
  - intros base suffix H. unfold parseSymbol.
    rewrite (beforeColon_app base suffix H), (beforeColon_id base H). reflexivity.
  - intro s. unfold parseSymbol. apply replaceSlash_colon, beforeColon_clean.
  - intros a b Ha Hca Hcb. unfold parseSymbol.
    rewrite beforeColon_id; [apply replaceSlash_app; exact Ha|].
    rewrite occurs_app. unroll. rewrite Hca, Hcb. reflexivity.
Qed.

Lemma X3_parseSymbol_contract_witness :
  parseSymbol ("ETH/USDT" ++ String ":" "USDT") = parseSymbol "ETH/USDT" /\
  parseSymbol ("ETH" ++ String "/" "USDT") = ("ETH" ++ String "_" "USDT")%string.
Proof.
  split.
  - apply (proj1 X3_parseSymbol_contract). reflexivity.
  - apply (proj2 (proj2 X3_parseSymbol_contract)); reflexivity.
Defined.

(** *** Balance and leverage extraction *)

Lemma firstPositive_positive (payload : jsval) (fields : list string) (v : Q) :
  firstPositive payload fields = Some v -> 0 < v.
Proof.
  induction fields as [|f rest IH]; simpl; intro H; [discriminate H|].
  destruct (Qltb 0 (parseNumber (getProp payload f) 0)) eqn:E.
  - injection H as <-. apply Qltb_true. exact E.
  - apply IH. exact H.
Qed.

Lemma firstPositive_head (payload : jsval) (f : string) (rest : list string) :
  0 < parseNumber (getProp payload f) 0 ->
  firstPositive payload (f :: rest) = Some (parseNumber (getProp payload f) 0).
Proof.
  intro H. simpl. rewrite (proj2 (Qltb_true _ _) H). reflexivity.
Qed.

Lemma firstPositive_skip (payload : jsval) (f : string) (rest : list string) :
  parseNumber (getProp payload f) 0 <= 0 ->
  firstPositive payload (f :: rest) = firstPositive payload rest.
Proof.
  intro H. simpl. rewrite (proj2 (Qltb_false _ _) H). reflexivity.
Qed.

Lemma orZero_firstPositive (payload : jsval) (fields : list string) :
  0 <= orZero (firstPositive payload fields).
Proof.
  destruct (firstPositive payload fields) as [v|] eqn:E; simpl.
  - apply Qlt_le_weak. apply (firstPositive_positive _ _ _ E).
  - apply Qle_refl.
Qed.

(** X4: the margin balance extracted is never negative; it is 0 for a
    payload that is not an object ([null], a number, a string); and a positive
    [quote.available] is returned whatever the top-level fields say. *)
Theorem X4_margin_balance :
  (forall acct, 0 <= extractMarginAvailableBalance acct) /\
  (forall acct, truthy acct && isObjectType acct = false ->
     extractMarginAvailableBalance acct = 0) /\
  (forall props quote,
     lookup "quote" props = JObj quote ->
     0 < parseNumber (lookup "available" quote) 0 ->
     extractMarginAvailableBalance (JObj props) =
       parseNumber (lookup "available" quote) 0).
Proof.
  split; [|split].
  - intro acct. unfold extractMarginAvailableBalance.
    destruct (negb (truthy acct) || negb (isObjectType acct)); [apply Qle_refl|].
    destruct (truthy (getProp acct "quote") && isObjectType (getProp acct "quote") &&
              Qltb 0 (parseNumber (getProp (getProp acct "quote") "available") 0))
      eqn:E.
    + apply andb_true_iff in E. destruct E as [_ E]. qtests. lra.
    + apply orZero_firstPositive.
  - intros acct H. unfold extractMarginAvailableBalance.
    rewrite <- negb_andb, H. reflexivity.
  - intros props quote Hq Hpos. unfold extractMarginAvailableBalance.
    simpl. rewrite Hq. simpl. rewrite (proj2 (Qltb_true _ _) Hpos). reflexivity.
Qed.

Lemma X4_margin_balance_witness :
  extractMarginAvailableBalance (JStr "1000") = 0 /\
  extractMarginAvailableBalance
    (JObj [("available", JStr "7");
           ("quote", JObj [("available", JStr "1000")])]%string) =
    parseNumber (JStr "1000") 0.
Proof.
  split.
  - apply (proj1 (proj2 X4_margin_balance)). reflexivity.
  - apply (proj2 (proj2 X4_margin_balance)
             [("available", JStr "7");
              ("quote", JObj [("available", JStr "1000")])]%string
             [("available", JStr "1000")]%string); reflexivity.
Defined.

(** X5: a leverage extracted from an account payload is positive, so the
    fallback handed to the resolution is that leverage unchanged, tagged
    ['margin'], or absent with no tag. *)
Theorem X5_account_leverage :
  (forall acct l, extractAccountLeverage acct = Some l -> 0 < l) /\
  (forall acct,
     fallbackLeverageOf (extractAccountLeverage acct) = extractAccountLeverage acct /\
     fallbackSourceOf (extractAccountLeverage acct) =
       match extractAccountLeverage acct with
       | Some _ => Some "margin"%string
       | None => None
       end).
Proof.
  assert (P : forall acct l, extractAccountLeverage acct = Some l -> 0 < l).
  { intros acct l H. unfold extractAccountLeverage in H.
    destruct (negb (truthy acct) || negb (isObjectType acct)); [discriminate H|].
    apply (firstPositive_positive _ _ _ H). }
  split; [exact P|].
  intro acct. destruct (extractAccountLeverage acct) as [l|] eqn:E;
    [|split; reflexivity].
  specialize (P acct l E). unfold fallbackLeverageOf, fallbackSourceOf.
  destruct (Qeq_bool l 0) eqn:E0; [|split; reflexivity].
  qtests. lra.
Qed.

Lemma X5_account_leverage_witness :
  extractAccountLeverage (JObj [("leverage", JNum 20)]%string) = Some 20 /\ 0 < 20.
Proof.
  split; [reflexivity|].
  apply (proj1 X5_account_leverage (JObj [("leverage", JNum 20)]%string) 20).
  reflexivity.
Defined.

Lemma noPositionLeverage_none (position : jsval) (sd : side) :
  noPositionLeverage position sd ->
  (if truthy position then firstPositive position (leverageFields sd) else None) = None.
Proof.
  intros [Hf|[Hs Hl]]; [rewrite Hf; reflexivity|].
  destruct (truthy position); [|reflexivity].
  destruct sd; unfold leverageFields;
    rewrite (firstPositive_skip _ _ _ Hs), (firstPositive_skip _ _ _ Hl);
    reflexivity.
Qed.

(** X6: the order of the leverage sources.  Without a positive per-side
    leverage the position's generic [leverage] is used, still with source
    ['position']; without any positive position leverage a positive fallback
    is used, with the source passed along or ['account']; with neither, the
    configured default, or 1 when that is 0, with source ['default']. *)
Theorem X6_leverage_priority_chain t position fallback fallbackSource sd :
  (parseNumber (getProp position (sideLeverageField sd)) 0 <= 0 ->
   0 < parseNumber (getProp position "leverage") 0 ->
   resolveLeverageForSide t position fallback fallbackSource sd =
     {| value := parseNumber (getProp position "leverage") 0;
        source := "position" |}) /\
  (noPositionLeverage position sd ->
   forall f, fallback = Some f -> 0 < f ->
   resolveLeverageForSide t position fallback fallbackSource sd =
     {| value := f; source := sourceOrAccount fallbackSource |}) /\
  (noPositionLeverage position sd ->
   fallback = None \/ (exists f, fallback = Some f /\ f <= 0) ->
   resolveLeverageForSide t position fallback fallbackSource sd =
     defaultResolution t).
Proof.
  split; [|split].
  - intros Hs Hl. unfold resolveLeverageForSide.
    rewrite (positive_field_truthy _ _ Hl).
    destruct sd; unfold leverageFields;
      rewrite (firstPositive_skip _ _ _ Hs), (firstPositive_head _ _ _ Hl);
      reflexivity.
  - intros Hnone f -> Hf. unfold resolveLeverageForSide.
    rewrite (noPositionLeverage_none _ _ Hnone).
    rewrite (proj2 (Qltb_true _ _) Hf).
    destruct (Qeq_bool f 0) eqn:E0; [qtests; lra|].
    reflexivity.
  - intros Hnone Hfb. unfold resolveLeverageForSide.
    rewrite (noPositionLeverage_none _ _ Hnone).
    destruct Hfb as [->|(f & -> & Hf)]; [reflexivity|].
    rewrite (proj2 (Qltb_false _ _) Hf), andb_false_r. reflexivity.
Qed.

Lemma X6_leverage_priority_chain_witness :
  resolveLeverageForSide usdtTrader
    (JObj [("leverage", JStr "7")]%string) (Some 3) None short =
    {| value := parseNumber (JStr "7") 0; source := "position" |} /\
  resolveLeverageForSide usdtTrader JNull (Some 3) None short =
    {| value := 3; source := "account" |} /\
  resolveLeverageForSide usdtTrader JNull (Some (-3)) (Some "margin"%string) short =
    defaultResolution usdtTrader.
Proof.
  split; [|split].
  - apply (proj1 (X6_leverage_priority_chain usdtTrader
                    (JObj [("leverage", JStr "7")]%string) (Some 3) None short));
      [discriminate | reflexivity].
  - apply (proj1 (proj2 (X6_leverage_priority_chain usdtTrader JNull (Some 3) None short))
             (or_introl eq_refl) 3 eq_refl); reflexivity.
  - apply (proj2 (proj2 (X6_leverage_priority_chain usdtTrader JNull (Some (-3))
                           (Some "margin"%string) short)) (or_introl eq_refl)).
    right. exists (-3). split; [reflexivity | discriminate].
Defined.

(** X7: provided the configured default leverage is not negative, the
    resolved leverage is positive whatever the position and the fallback
    are. *)
Theorem X7_resolved_leverage_positive t position fallback fallbackSource sd :
  0 <= defaultLeverage t ->
  0 < value (resolveLeverageForSide t position fallback fallbackSource sd).
Proof.
  intro Hd.
  assert (D : 0 < (if Qeq_bool (defaultLeverage t) 0 then 1 else defaultLeverage t)).
  { destruct (Qeq_bool (defaultLeverage t) 0) eqn:E0; [reflexivity|].
    qtests. lra. }
  unfold resolveLeverageForSide.
  destruct (if truthy position then firstPositive position (leverageFields sd)
            else None) as [v|] eqn:E.
  - simpl. destruct (truthy position); [|discriminate E].
    apply (firstPositive_positive _ _ _ E).
  - destruct fallback as [f|]; [|exact D].
    destruct (negb (Qeq_bool f 0) && Qltb 0 f) eqn:Ef; [|exact D].
    simpl. apply andb_true_iff in Ef. destruct Ef as [_ Ef]. qtests. exact Ef.
Qed.

Lemma X7_resolved_leverage_positive_witness :
  0 < value (resolveLeverageForSide usdtTrader JNull None None long).
Proof.
  apply (X7_resolved_leverage_positive usdtTrader JNull None None long).
  discriminate.
Defined.

(** *** Position mode and side sizes *)

Lemma foldEntry_keeps_mode (entries : list jsval) :
  Forall withoutModeInfo entries ->
  forall l s, snd (fold_left foldEntry entries (l, s, JNull)) = JNull.
Proof.
  induction 1 as [|e rest [Hm Hd] _ IH]; intros l s; [reflexivity|].
  cbn [fold_left].
  assert (Em : snd (foldEntry (l, s, JNull) e) = JNull).
  { unfold foldEntry. rewrite Hm. cbn [truthy negb andb snd].
    destruct (getProp e "dual_mode") eqn:Ed; try reflexivity.
    exfalso. apply (Hd b). reflexivity. }
  destruct (foldEntry (l, s, JNull) e) as [[l' s'] m'].
  cbn [snd] in Em. subst m'. apply IH.
Qed.

(** X8: which mode a close runs in when the payload says nothing.  A missing
    position, a position built by the list fallback, and an array payload
    whose entries carry neither [mode] nor a boolean [dual_mode] are all
    handled in the configured position mode. *)
Theorem X8_configured_mode_applies t :
  determinePositionMode t JNull = JStr (positionMode t) /\
  (forall contract v tr pos tr',
     fetchListedPosition t contract v tr = (Ok pos, tr') ->
     determinePositionMode t pos = JStr (positionMode t)) /\
  (forall entries contract,
     Forall withoutModeInfo entries ->
     determinePositionMode t (normalizePositionPayload (JArr entries) contract) =
       JStr (positionMode t)).
Proof.
  split; [reflexivity|]. split.
  - intros contract v tr pos tr' H.
    unfold fetchListedPosition, bind, tryCatch, get, send, lift, ret in H.
    destruct (v tr _) as [positions|m]; [|injection H as <- _; reflexivity].
    destruct positions; try (injection H as <- _; reflexivity).
    destruct (filterContract contract items) as [keep|m3];
      [|injection H as <- _; reflexivity].
    destruct keep as [|p rest]; [injection H as <- _; reflexivity|].
    destruct (fold_left combineSizes (p :: rest) (0, 0)) as [cl cs].
    apply (f_equal fst) in H. cbn [fst] in H. apply Ok_inj in H. subst pos.
    reflexivity.
  - intros entries contract Hall.
    unfold normalizePositionPayload. simpl truthy. simpl negb. cbv iota.
    pose proof (foldEntry_keeps_mode entries Hall 0 0) as Hm.
    destruct (fold_left foldEntry entries (0, 0, JNull)) as [[l s] m].
    simpl in Hm. subst m. reflexivity.
Qed.

Lemma X8_configured_mode_applies_witness :
  determinePositionMode usdtTrader
    (normalizePositionPayload
       (JArr [JObj [("size", JNum 3)]; JObj [("size", JNum (-2))]]%string)
       "BTC_USDT") = JStr "dual_long_short".
Proof.
  apply (proj2 (proj2 (X8_configured_mode_applies usdtTrader))).
  repeat constructor; try reflexivity; intros b H; discriminate H.
Defined.

Lemma getSideSize_invariant (pos : jsval) :
  positionInvariant pos ->
  exists l s,
    getProp pos "long_size" = JNum l /\ getProp pos "short_size" = JNum s /\
    getSideSize pos long = Ok l /\ getSideSize pos short = Ok (Qabs s) /\
    0 <= l /\ s <= 0.
Proof.
  intros (l & s & z & Hl & Hs & _ & Hl0 & Hs0 & _).
  exists l, s. repeat split; try assumption.
  - unfold getSideSize.
    destruct pos; try discriminate Hl. simpl truthy. simpl negb. cbv iota.
    rewrite Hl. reflexivity.
  - unfold getSideSize.
    destruct pos; try discriminate Hl. simpl truthy. simpl negb. cbv iota.
    rewrite Hs. reflexivity.
Qed.


(** *** The futures-account balance *)

(** X10: [extractAvailableBalance] throws only for a [null] payload, never
    returns a negative balance, and returns a positive
    [account_available_main] before looking at any other field. *)
Theorem X10_available_balance :
  (forall payload, payload <> JNull ->
     exists b, extractAvailableBalance payload = Ok b /\ 0 <= b) /\
  (forall props,
     0 < parseNumber (lookup "account_available_main" props) 0 ->
     extractAvailableBalance (JObj props) =
       Ok (parseNumber (lookup "account_available_main" props) 0)).
Proof.
  split.
  - intros payload Hn. unfold extractAvailableBalance.
    destruct payload; try (eexists; split; [reflexivity | apply orZero_firstPositive]).
    exfalso. apply Hn. reflexivity.
  - intros props H. unfold extractAvailableBalance.
    rewrite (firstPositive_head (JObj props) _ _ H). reflexivity.
Qed.

Lemma X10_available_balance_witness :
  extractAvailableBalance
    (JObj [("total", JStr "50"); ("account_available_main", JStr "20")]%string) =
    Ok (parseNumber (JStr "20") 0).
Proof.
  apply (proj2 X10_available_balance
           [("total", JStr "50"); ("account_available_main", JStr "20")]%string).
  reflexivity.
Defined.

(** *** Hexadecimal encoding *)

Lemma padded_length (b : Byte.byte) :
  String.length (padStart2 (toString16 b)) = 2%nat.
Proof.
  destruct b; reflexivity.
Qed.

Lemma length_append (a b : string) :
  String.length (a ++ b) = (String.length a + String.length b)%nat.
Proof.
  induction a as [|c r IH]; simpl; [reflexivity|]. rewrite IH. reflexivity.
Qed.

(** The inverse of one encoded byte, used to show that the encoding loses
    nothing. *)
Lemma padded_injective (b1 b2 : Byte.byte) :
  padStart2 (toString16 b1) = padStart2 (toString16 b2) -> b1 = b2.
Proof.
  assert (D : forall b, Byte.of_nat
                (match padStart2 (toString16 b) with
                 | String h (String l EmptyString) =>
                     let digit c :=
                       let n := nat_of_ascii c in
                       if Nat.leb 97 n then n - 87 else n - 48 in
                     16 * digit h + digit l
                 | _ => 0
                 end)%nat = Some b).
  { intro b. destruct b; reflexivity. }
  intro H. pose proof (D b1) as H1. rewrite H, (D b2) in H1.
  injection H1 as ->. reflexivity.
Qed.

Lemma append_split2 (a b x y : string) :
  String.length a = 2%nat -> String.length b = 2%nat ->
  (a ++ x = b ++ y)%string -> a = b /\ x = y.
Proof.
  intros Ha Hb H.
  destruct a as [|a1 [|a2 [|a3 a']]]; try discriminate Ha.
  destruct b as [|b1 [|b2 [|b3 b']]]; try discriminate Hb.
  simpl in H. injection H as -> -> ->. split; reflexivity.
Qed.

(** X11: [ab2hex] writes exactly two characters per byte and distinct
    buffers have distinct encodings. *)
Theorem X11_ab2hex_faithful :
  (forall buffer, String.length (ab2hex buffer) = (2 * List.length buffer)%nat) /\
  (forall b1 b2, ab2hex b1 = ab2hex b2 -> b1 = b2).
Proof.
  split.
  - induction buffer as [|b rest IH]; [reflexivity|].
    cbn [ab2hex List.length]. rewrite length_append, padded_length, IH. lia.
  - induction b1 as [|x r1 IH]; intros [|y r2] H; cbn [ab2hex] in H.
    + reflexivity.
    + apply (f_equal String.length) in H.
      rewrite length_append, padded_length in H. discriminate H.
    + apply (f_equal String.length) in H.
      rewrite length_append, padded_length in H. discriminate H.
    + apply append_split2 in H; try apply padded_length.
      destruct H as [Hxy Hr]. apply padded_injective in Hxy. subst y.
      f_equal. apply IH. exact Hr.
Qed.

Lemma X11_ab2hex_faithful_witness :
  [Byte.x0a; Byte.xff] = [Byte.x0a; Byte.xff] /\
  ab2hex [Byte.x0a; Byte.xff] = "0aff"%string.
Proof.
  split; [|reflexivity].
  apply (proj2 X11_ab2hex_faithful). reflexivity.
Defined.

(** *** Open sizing: failures and requests *)

Ltac reads_with lemmas :=
  repeat first
    [ apply getMarginAccount_reads
    | apply getContract_reads
    | apply getPosition_reads
    | apply convert_reads
    | lemmas
    | apply readsOnly_bind; [|intro]
    | apply readsOnly_tryCatch; [|intro]
    | apply readsOnly_ret
    | apply readsOnly_throw
    | apply readsOnly_lift
    | apply readsOnly_get
    | match goal with
      | |- readsOnly (if ?b then _ else _) => destruct b
      | |- readsOnly (match ?x with _ => _ end) => destruct x
      | |- readsOnly (let '(_, _) := ?x in _) => destruct x
      end ].

Lemma calculate_reads t symbol amount sd :
  readsOnly (calculateContractsFromPercentage t symbol amount sd).
Proof.
  unfold calculateContractsFromPercentage. reads_with fail.
Qed.

Lemma getAccountForContract_reads t symbol :
  readsOnly (getAccountForContract t symbol).
Proof.
  unfold getAccountForContract, tryAccountEndpoint. reads_with fail.
Qed.

Lemma getMarginAccount_trace t symbol v tr :
  snd (getMarginAccount t symbol v tr) = tr ++ [marginRequest symbol].
Proof.
  unfold getMarginAccount, tryCatch, bind, get, send, ret, marginRequest.
  destruct (v tr _) as [r|m]; [|reflexivity].
  destruct r; try reflexivity;
    match goal with
    | |- context [if ?b && ?c then _ else _] => destruct (b && c)
    end; reflexivity.
Qed.

Lemma getContract_trace t symbol v tr :
  snd (getContract t symbol v tr) = tr ++ [contractRequest t symbol] /\
  fst (getContract t symbol v tr) =
    wrapFailure "Failed to get contract info: " (v tr (contractRequest t symbol)).
Proof.
  unfold getContract, tryCatch, get, send, throw, contractRequest, wrapFailure.
  destruct (v tr _) as [r|m]; split; reflexivity.
Qed.

(** X12: the open sizing stops at the first failure and asks the venue
    nothing more.  A bad amount is rejected before any request; a margin
    balance that is not positive is rejected after the margin-account request
    alone; a failed contract fetch is reported, with its prefix, after two
    requests, the position never being fetched. *)
Theorem X12_sizing_fails_fast t symbol amount sd v tr :
  (forall m, normalizePercentage amount = Throw m ->
     calculateContractsFromPercentage t symbol amount sd v tr = (Throw m, tr)) /\
  (forall p acct tr1,
     normalizePercentage amount = Ok p ->
     getMarginAccount t symbol v tr = (Ok acct, tr1) ->
     extractMarginAvailableBalance acct <= 0 ->
     calculateContractsFromPercentage t symbol amount sd v tr =
       (Throw noBalanceMessage, tr ++ [marginRequest symbol])) /\
  (forall p acct tr1 m,
     normalizePercentage amount = Ok p ->
     getMarginAccount t symbol v tr = (Ok acct, tr1) ->
     0 < extractMarginAvailableBalance acct ->
     v tr1 (contractRequest t symbol) = Throw m ->
     calculateContractsFromPercentage t symbol amount sd v tr =
       (Throw ("Failed to get contract info: " ++ m)%string,
        tr ++ [marginRequest symbol; contractRequest t symbol])).
Proof.
  split; [|split].
  - intros m H. unfold calculateContractsFromPercentage.
    unfold bind at 1. unfold lift at 1. rewrite H. reflexivity.
  - intros p acct tr1 Hp Hacct Hbal.
    pose proof (getMarginAccount_trace t symbol v tr) as Ht.
    rewrite Hacct in Ht. cbn [snd] in Ht. subst tr1.
    unfold calculateContractsFromPercentage.
    unfold bind at 1. unfold lift at 1. rewrite Hp.
    unfold bind at 1. rewrite Hacct.
    rewrite (proj2 (Qle_bool_iff _ _) Hbal). reflexivity.
  - intros p acct tr1 m Hp Hacct Hbal Hfail.
    pose proof (getMarginAccount_trace t symbol v tr) as Ht.
    rewrite Hacct in Ht. cbn [snd] in Ht. subst tr1.
    destruct (getContract_trace t symbol v (tr ++ [marginRequest symbol])) as [Hs Hf].
    rewrite Hfail in Hf. cbn [wrapFailure] in Hf.
    unfold calculateContractsFromPercentage.
    unfold bind at 1. unfold lift at 1. rewrite Hp.
    unfold bind at 1. rewrite Hacct.
    rewrite (proj2 (Qle_bool_false _ _) Hbal).
    unfold bind at 1.
    destruct (getContract t symbol v (tr ++ [marginRequest symbol])) as [r tr2].
    cbn [fst snd] in Hs, Hf. subst r tr2.
    rewrite <- app_assoc. reflexivity.
Qed.

Lemma X12_sizing_fails_fast_witness :
  calculateContractsFromPercentage usdtTrader btc (JStr "ten") long sizingVenue [] =
    (Throw "Amount must be a positive numeric percentage"%string, []) /\
  calculateContractsFromPercentage usdtTrader btc (JNum 10) long downVenue [] =
    (Throw noBalanceMessage, [] ++ [marginRequest btc]).
Proof.
  split.
  - apply (proj1 (X12_sizing_fails_fast usdtTrader btc (JStr "ten") long sizingVenue [])).
    reflexivity.
  - eassert (E : getMarginAccount usdtTrader btc downVenue [] = (Ok _, _))
      by (vm_compute; reflexivity).
    apply (proj1 (proj2 (X12_sizing_fails_fast usdtTrader btc (JNum 10) long downVenue []))
             (10 / 100) _ _ eq_refl E).
    discriminate.
Defined.

(** X13: the sizing and every lookup it relies on only read from the venue:
    whatever the venue answers, the requests they add to the trace are GET
    requests, so none of them places an order. *)
Theorem X13_lookups_never_place_orders t symbol :
  (forall amount sd, readsOnly (calculateContractsFromPercentage t symbol amount sd)) /\
  (forall amount, readsOnly (convertBaseAmountToContracts t symbol amount)) /\
  readsOnly (getMarginAccount t symbol) /\
  readsOnly (getContract t symbol) /\
  readsOnly (getPosition t symbol) /\
  readsOnly (getAccountForContract t symbol) /\
  (forall amount sd v tr,
     exists ext,
       snd (calculateContractsFromPercentage t symbol amount sd v tr) = tr ++ ext /\
       placedOrders t ext = []).
Proof.
  repeat split;
    auto using calculate_reads, convert_reads, getMarginAccount_reads,
      getContract_reads, getPosition_reads, getAccountForContract_reads.
  intros amount sd v tr.
  destruct (calculate_reads t symbol amount sd v tr) as (ext & E & G).
  exists ext. split; [exact E | apply onlyGets_placedOrders; exact G].
Qed.

(** *** Orders placed by the four actions *)

Lemma placedOrders_app t (a b : list request) :
  placedOrders t (a ++ b) = placedOrders t a ++ placedOrders t b.
Proof.
  unfold placedOrders. rewrite filter_app, map_app. reflexivity.
Qed.

Lemma placedOrders_order t (body : jsval) :
  placedOrders t [orderRequest t body] = [body].
Proof.
  unfold placedOrders, orderRequest, isOrderSubmission. cbn [filter method endpoint].
  rewrite !String.eqb_refl. reflexivity.
Qed.

Lemma placedOrders_after_reads t (ext : list request) (body : jsval) :
  onlyGets ext -> placedOrders t (ext ++ [orderRequest t body]) = [body].
Proof.
  intro G. rewrite placedOrders_app, (onlyGets_placedOrders t ext G).
  apply placedOrders_order.
Qed.

Lemma tryCatch_post_run t body (prefix : string) v tr :
  tryCatch (post (ordersEndpoint t) body) (fun m => throw (prefix ++ m)) v tr =
    (wrapFailure prefix (v tr (orderRequest t body)), tr ++ [orderRequest t body]).
Proof.
  unfold tryCatch, post, send, throw, orderRequest, wrapFailure.
  destruct (v tr _); reflexivity.
Qed.

Lemma entry_sizing_error t symbol amount v tr m tr' :
  (calculateContractsFromPercentage t symbol amount long v tr = (Throw m, tr') ->
   marketBuy t symbol amount v tr = (Throw m, tr') /\
   exists ext, tr' = tr ++ ext /\ placedOrders t ext = []) /\
  (calculateContractsFromPercentage t symbol amount short v tr = (Throw m, tr') ->
   openShort t symbol amount v tr = (Throw m, tr') /\
   exists ext, tr' = tr ++ ext /\ placedOrders t ext = []).
Proof.
  split; intro H.
  - split; [unfold marketBuy; apply (bind_throw _ _ _ _ _ _ H)|].
    destruct (trace_of_reads _ _ _ _ _ (calculate_reads t symbol amount long) H)
      as (ext & E & G).
    exists ext. split; [exact E | apply onlyGets_placedOrders; exact G].
  - split; [unfold openShort; apply (bind_throw _ _ _ _ _ _ H)|].
    destruct (trace_of_reads _ _ _ _ _ (calculate_reads t symbol amount short) H)
      as (ext & E & G).
    exists ext. split; [exact E | apply onlyGets_placedOrders; exact G].
Qed.

(** X14: an entry whose sizing fails places no order and reports the sizing
    error as it is, without the prefix of the action. *)
Theorem X14_entry_reports_sizing_error t symbol amount v tr m tr' :
  (calculateContractsFromPercentage t symbol amount long v tr = (Throw m, tr') ->
   marketBuy t symbol amount v tr = (Throw m, tr') /\
   exists ext, tr' = tr ++ ext /\ placedOrders t ext = []) /\
  (calculateContractsFromPercentage t symbol amount short v tr = (Throw m, tr') ->
   openShort t symbol amount v tr = (Throw m, tr') /\
   exists ext, tr' = tr ++ ext /\ placedOrders t ext = []).
Proof.
  destruct (entry_sizing_error t symbol amount v tr m tr') as [Hbuy Hshort].
  split; intro H; [apply Hbuy | apply Hshort]; exact H.
Qed.

Lemma X14_entry_reports_sizing_error_witness :
  marketBuy usdtTrader btc (JNum 10) downVenue [] =
    (Throw noBalanceMessage, [marginRequest btc]).
Proof.
  apply (proj1 (X14_entry_reports_sizing_error usdtTrader btc (JNum 10) downVenue []
                  noBalanceMessage [marginRequest btc])).
  reflexivity.
Defined.

Lemma entry_sized_order t symbol amount v tr s tr' :
  (calculateContractsFromPercentage t symbol amount long v tr = (Ok s, tr') ->
   let body := order (parseSymbol symbol) (inject_Z (contracts s)) "t-long-entry" false in
   marketBuy t symbol amount v tr =
     (wrapFailure "Market buy (long entry) failed: " (v tr' (orderRequest t body)),
      tr' ++ [orderRequest t body]) /\
   (1 <= contracts s)%Z) /\
  (calculateContractsFromPercentage t symbol amount short v tr = (Ok s, tr') ->
   let body := order (parseSymbol symbol) (- inject_Z (contracts s)) "t-short-entry" false in
   openShort t symbol amount v tr =
     (wrapFailure "Open short failed: " (v tr' (orderRequest t body)),
      tr' ++ [orderRequest t body]) /\
   (1 <= contracts s)%Z).
Proof.
  split; intros H body; subst body;
    destruct (calculate_inversion _ _ _ _ _ _ _ _ H)
      as (p & acct & tr1 & info & tr2 & pos & _ & _ & _ & _ & _ & _ & _ & Hk & Hs);
    assert (Hc : contract s = parseSymbol symbol) by (rewrite Hs; reflexivity);
    assert (Hn : (1 <= contracts s)%Z) by (rewrite Hs; cbn [contracts]; lia).
  - split; [|exact Hn].
    unfold marketBuy. rewrite (bind_ok _ _ _ _ _ _ H), Hc.
    apply tryCatch_post_run.
  - split; [|exact Hn].
    unfold openShort. rewrite (bind_ok _ _ _ _ _ _ H), Hc.
    apply tryCatch_post_run.
Qed.

(** X15: an entry whose sizing succeeds places exactly one order after it:
    not reduce-only, of at least one contract, positive for [marketBuy] and
    negative for [openShort]; the call returns the venue's answer, or the
    venue's error behind the prefix of the action. *)
Theorem X15_entry_places_sized_order t symbol amount v tr s tr' :
  (calculateContractsFromPercentage t symbol amount long v tr = (Ok s, tr') ->
   let body := order (parseSymbol symbol) (inject_Z (contracts s)) "t-long-entry" false in
   marketBuy t symbol amount v tr =
     (wrapFailure "Market buy (long entry) failed: " (v tr' (orderRequest t body)),
      tr' ++ [orderRequest t body]) /\
   (1 <= contracts s)%Z) /\
  (calculateContractsFromPercentage t symbol amount short v tr = (Ok s, tr') ->
   let body := order (parseSymbol symbol) (- inject_Z (contracts s)) "t-short-entry" false in
   openShort t symbol amount v tr =
     (wrapFailure "Open short failed: " (v tr' (orderRequest t body)),
      tr' ++ [orderRequest t body]) /\
   (1 <= contracts s)%Z).
Proof.
  destruct (entry_sized_order t symbol amount v tr s tr') as [Hbuy Hshort].
  split; intro H; [apply Hbuy | apply Hshort]; exact H.
Qed.

Lemma X15_entry_places_sized_order_witness :
  exists s tr',
    calculateContractsFromPercentage usdtTrader btc (JNum 10) short sizingVenue [] =
      (Ok s, tr') /\
    snd (openShort usdtTrader btc (JNum 10) sizingVenue []) =
      tr' ++ [orderRequest usdtTrader
                (order "BTC_USDT" (- inject_Z (contracts s)) "t-short-entry" false)] /\
    (1 <= contracts s)%Z.
Proof.
  eassert (E : calculateContractsFromPercentage usdtTrader btc (JNum 10) short
                 sizingVenue [] = (Ok _, _)) by (vm_compute; reflexivity).
  destruct (proj2 (X15_entry_places_sized_order usdtTrader btc (JNum 10) sizingVenue []
                     _ _) E) as [Hrun Hn].
  eexists _, _. split; [exact E|]. split; [|exact Hn].
  rewrite Hrun. reflexivity.
Defined.

Lemma marketSell_unfold t symbol amount v tr pos tr1 conv tr2 size :
  getPosition t symbol v tr = (Ok pos, tr1) ->
  convertBaseAmountToContracts t symbol amount v tr1 = (Ok conv, tr2) ->
  getSideSize pos long = Ok size ->
  marketSell t symbol amount v tr =
    if negb (truthy pos) || Qle_bool size 0 then
      (Ok (statusResult "no_position" "No long position to close"), tr2)
    else if Z.eqb (convContracts conv) 0 || Z.leb (convContracts conv) 0 then
      (Ok (statusResult "no_action"
             "Requested close size is below minimum contract size"), tr2)
    else
      let z := if strictEqStr (determinePositionMode t pos) "dual_long_short"
               then - Qmin (inject_Z (convContracts conv)) (Qabs size)
               else - inject_Z (convContracts conv) in
      let rq := orderRequest t (order (parseSymbol symbol) z "t-long-exit" true) in
      (wrapFailure longExitPrefix (v tr2 rq), tr2 ++ [rq]).
Proof.
  intros Hpos Hconv Hsize. unfold marketSell.
  rewrite (tryCatch_bind_ok _ _ _ _ _ _ _ Hpos).
  rewrite (tryCatch_bind_ok _ _ _ _ _ _ _ Hconv).
  rewrite Hsize. unfold lift at 1.
  rewrite (tryCatch_bind_ok _ _ _ _ _ size tr2 eq_refl).
  destruct (negb (truthy pos) || Qle_bool size 0); [reflexivity|].
  destruct (Z.eqb (convContracts conv) 0 || Z.leb (convContracts conv) 0);
    [reflexivity|].
  cbv zeta.
  destruct (strictEqStr (determinePositionMode t pos) "dual_long_short");
    apply tryCatch_post_run.
Qed.

Lemma closeShort_unfold t symbol amount v tr pos tr1 conv tr2 size :
  getPosition t symbol v tr = (Ok pos, tr1) ->
  convertBaseAmountToContracts t symbol amount v tr1 = (Ok conv, tr2) ->
  getSideSize pos short = Ok size ->
  closeShort t symbol amount v tr =
    if negb (truthy pos) || Qle_bool size 0 then
      (Ok (statusResult "no_position" "No short position to close"), tr2)
    else if Z.eqb (convContracts conv) 0 || Z.leb (convContracts conv) 0 then
      (Ok (statusResult "no_action"
             "Requested close size is below minimum contract size"), tr2)
    else
      let z := if strictEqStr (determinePositionMode t pos) "dual_long_short"
               then Qmin (inject_Z (convContracts conv)) (Qabs size)
               else inject_Z (convContracts conv) in
      let rq := orderRequest t (order (parseSymbol symbol) z "t-short-exit" true) in
      (wrapFailure shortExitPrefix (v tr2 rq), tr2 ++ [rq]).
Proof.
  intros Hpos Hconv Hsize. unfold closeShort.
  rewrite (tryCatch_bind_ok _ _ _ _ _ _ _ Hpos).
  rewrite (tryCatch_bind_ok _ _ _ _ _ _ _ Hconv).
  rewrite Hsize. unfold lift at 1.
  rewrite (tryCatch_bind_ok _ _ _ _ _ size tr2 eq_refl).
  destruct (negb (truthy pos) || Qle_bool size 0); [reflexivity|].
  destruct (Z.eqb (convContracts conv) 0 || Z.leb (convContracts conv) 0);
    [reflexivity|].
  cbv zeta.
  destruct (strictEqStr (determinePositionMode t pos) "dual_long_short");
    apply tryCatch_post_run.
Qed.




(** X17: outside dual mode a close submits the requested number of contracts
    as it is, negative for a long exit and positive for a short exit,
    whatever the open size, which it may exceed. *)
Theorem X17_single_mode_close_unclamped t symbol amount v tr pos tr1 conv tr2 :
  getPosition t symbol v tr = (Ok pos, tr1) ->
  convertBaseAmountToContracts t symbol amount v tr1 = (Ok conv, tr2) ->
  strictEqStr (determinePositionMode t pos) "dual_long_short" = false ->
  (0 < convContracts conv)%Z ->
  (forall size, getSideSize pos long = Ok size -> 0 < size ->
     snd (marketSell t symbol amount v tr) =
       tr2 ++ [orderRequest t
                 (order (parseSymbol symbol) (- inject_Z (convContracts conv))
                        "t-long-exit" true)]) /\
  (forall size, getSideSize pos short = Ok size -> 0 < size ->
     snd (closeShort t symbol amount v tr) =
       tr2 ++ [orderRequest t
                 (order (parseSymbol symbol) (inject_Z (convContracts conv))
                        "t-short-exit" true)]).
Proof.
  intros Hpos Hconv Hmode Hreq.
  assert (E : Z.eqb (convContracts conv) 0 || Z.leb (convContracts conv) 0 = false).
  { apply orb_false_iff. split; [apply Z.eqb_neq | apply Z.leb_gt]; lia. }
  split; intros size Hsize Hs.
  - rewrite (marketSell_unfold _ _ _ _ _ _ _ _ _ _ Hpos Hconv Hsize).
    rewrite (positive_side_truthy _ _ _ Hsize Hs), (proj2 (Qle_bool_false _ _) Hs).
    cbn [negb orb]. rewrite E, Hmode. reflexivity.
  - rewrite (closeShort_unfold _ _ _ _ _ _ _ _ _ _ Hpos Hconv Hsize).
    rewrite (positive_side_truthy _ _ _ Hsize Hs), (proj2 (Qle_bool_false _ _) Hs).
    cbn [negb orb]. rewrite E, Hmode. reflexivity.
Qed.

Lemma X17_single_mode_close_unclamped_witness :
  exists tr2,
    snd (marketSell usdtTrader btc 10
           (venueOf (Ok (marginAccount "1000" "5")) (Ok (contractInfo "1" "100"))
                    (Ok (JObj [("size", JNum 3); ("mode", JStr "single")]%string)))
           []) =
      tr2 ++ [orderRequest usdtTrader
                (order "BTC_USDT" (- inject_Z 10) "t-long-exit" true)].
Proof.
  set (v := venueOf (Ok (marginAccount "1000" "5")) (Ok (contractInfo "1" "100"))
                    (Ok (JObj [("size", JNum 3); ("mode", JStr "single")]%string))).
  eassert (Ep : getPosition usdtTrader btc v [] = (Ok _, _))
    by (vm_compute; reflexivity).
  eassert (Ec : convertBaseAmountToContracts usdtTrader btc 10 v _ = (Ok _, _))
    by (vm_compute; reflexivity).
  eexists.
  apply (proj1 (X17_single_mode_close_unclamped usdtTrader btc 10 v [] _ _ _ _
                  Ep Ec eq_refl eq_refl) 3 eq_refl eq_refl).
Defined.

Lemma fetched_side_size t symbol v tr pos tr' sd :
  getPosition t symbol v tr = (Ok pos, tr') ->
  exists size, getSideSize pos sd = Ok size.
Proof.
  intro H.
  destruct (getPosition_returns t symbol v tr) as (pos' & tr'' & E & Hshape).
  rewrite H in E. injection E as <- <-.
  destruct Hshape as [->|[_ Hinv]].
  - exists 0. destruct sd; reflexivity.
  - destruct (getSideSize_invariant pos Hinv) as (l & s & _ & _ & Gl & Gs & _).
    destruct sd; eauto.
Qed.

Lemma marketSell_orders t symbol amount v tr :
  exists ext,
    snd (marketSell t symbol amount v tr) = tr ++ ext /\
    (placedOrders t ext = [] \/
     exists z, z < 0 /\
       placedOrders t ext = [order (parseSymbol symbol) z "t-long-exit" true]).
Proof.
  destruct (getPosition_returns t symbol v tr) as (pos & tr1 & Hpos & _).
  destruct (trace_of_reads _ _ _ _ _ (getPosition_reads t symbol) Hpos)
    as (e1 & E1 & G1).
  destruct (fetched_side_size _ _ _ _ _ _ long Hpos) as (size & Hsize).
  destruct (convertBaseAmountToContracts t symbol amount v tr1)
    as [[conv|m] tr2] eqn:Hconv;
    destruct (trace_of_reads _ _ _ _ _ (convert_reads t symbol amount) Hconv)
      as (e2 & E2 & G2).
  - rewrite (marketSell_unfold _ _ _ _ _ _ _ _ _ _ Hpos Hconv Hsize).
    destruct (negb (truthy pos) || Qle_bool size 0) eqn:T1.
    { exists (e1 ++ e2). cbn [snd]. subst. rewrite app_assoc.
      split; [reflexivity|]. left. apply onlyGets_placedOrders, onlyGets_app; assumption. }
    destruct (Z.eqb (convContracts conv) 0 || Z.leb (convContracts conv) 0) eqn:T2.
    { exists (e1 ++ e2). cbn [snd]. subst. rewrite app_assoc.
      split; [reflexivity|]. left. apply onlyGets_placedOrders, onlyGets_app; assumption. }
    cbv zeta. cbn [snd].
    eexists ((e1 ++ e2) ++ [_]). subst. rewrite !app_assoc.
    split; [reflexivity|]. right. eexists. split;
      [|rewrite <- !app_assoc, app_assoc;
        apply placedOrders_after_reads, onlyGets_app; assumption].
    apply orb_false_iff in T1. destruct T1 as [_ T1]. qtests.
    apply orb_false_iff in T2. destruct T2 as [_ T2]. apply Z.leb_gt in T2.
    assert (Hr : 0 < inject_Z (convContracts conv)).
    { change 0 with (inject_Z 0). rewrite <- Zlt_Qlt. exact T2. }
    destruct (strictEqStr (determinePositionMode t pos) "dual_long_short"); [|lra].
    destruct (clamp_magnitude _ _ Hr T1) as (Hmin & Hminpos & _).
    rewrite Hmin. lra.
  - exists (e1 ++ e2). unfold marketSell.
    rewrite (tryCatch_bind_ok _ _ _ _ _ _ _ Hpos).
    rewrite (tryCatch_bind_throw _ _ _ _ _ _ _ Hconv).
    cbn [snd throw]. subst. rewrite app_assoc.
    split; [reflexivity|]. left. apply onlyGets_placedOrders, onlyGets_app; assumption.
Qed.

Lemma closeShort_orders t symbol amount v tr :
  exists ext,
    snd (closeShort t symbol amount v tr) = tr ++ ext /\
    (placedOrders t ext = [] \/
     exists z, 0 < z /\
       placedOrders t ext = [order (parseSymbol symbol) z "t-short-exit" true]).
Proof.
  destruct (getPosition_returns t symbol v tr) as (pos & tr1 & Hpos & _).
  destruct (trace_of_reads _ _ _ _ _ (getPosition_reads t symbol) Hpos)
    as (e1 & E1 & G1).
  destruct (fetched_side_size _ _ _ _ _ _ short Hpos) as (size & Hsize).
  destruct (convertBaseAmountToContracts t symbol amount v tr1)
    as [[conv|m] tr2] eqn:Hconv;
    destruct (trace_of_reads _ _ _ _ _ (convert_reads t symbol amount) Hconv)
      as (e2 & E2 & G2).
  - rewrite (closeShort_unfold _ _ _ _ _ _ _ _ _ _ Hpos Hconv Hsize).
    destruct (negb (truthy pos) || Qle_bool size 0) eqn:T1.
    { exists (e1 ++ e2). cbn [snd]. subst. rewrite app_assoc.
      split; [reflexivity|]. left. apply onlyGets_placedOrders, onlyGets_app; assumption. }
    destruct (Z.eqb (convContracts conv) 0 || Z.leb (convContracts conv) 0) eqn:T2.
    { exists (e1 ++ e2). cbn [snd]. subst. rewrite app_assoc.
      split; [reflexivity|]. left. apply onlyGets_placedOrders, onlyGets_app; assumption. }
    cbv zeta. cbn [snd].
    eexists ((e1 ++ e2) ++ [_]). subst. rewrite !app_assoc.
    split; [reflexivity|]. right. eexists. split;
      [|rewrite <- !app_assoc, app_assoc;
        apply placedOrders_after_reads, onlyGets_app; assumption].
    apply orb_false_iff in T1. destruct T1 as [_ T1]. qtests.
    apply orb_false_iff in T2. destruct T2 as [_ T2]. apply Z.leb_gt in T2.
    assert (Hr : 0 < inject_Z (convContracts conv)).
    { change 0 with (inject_Z 0). rewrite <- Zlt_Qlt. exact T2. }
    destruct (strictEqStr (determinePositionMode t pos) "dual_long_short"); [|lra].
    destruct (clamp_magnitude _ _ Hr T1) as (Hmin & Hminpos & _).
    rewrite Hmin. lra.
  - exists (e1 ++ e2). unfold closeShort.
    rewrite (tryCatch_bind_ok _ _ _ _ _ _ _ Hpos).
    rewrite (tryCatch_bind_throw _ _ _ _ _ _ _ Hconv).
    cbn [snd throw]. subst. rewrite app_assoc.
    split; [reflexivity|]. left. apply onlyGets_placedOrders, onlyGets_app; assumption.
Qed.

(** X18: whatever the venue answers, a close places at most one order, and
    an order it places is reduce-only, for the contract of the symbol, of
    negative size for a long exit and of positive size for a short exit: a
    close never opens or adds to a position. *)
Theorem X18_close_only_reduces t symbol amount v tr :
  (exists ext,
     snd (marketSell t symbol amount v tr) = tr ++ ext /\
     (placedOrders t ext = [] \/
      exists z, z < 0 /\
        placedOrders t ext = [order (parseSymbol symbol) z "t-long-exit" true])) /\
  (exists ext,
     snd (closeShort t symbol amount v tr) = tr ++ ext /\
     (placedOrders t ext = [] \/
      exists z, 0 < z /\
        placedOrders t ext = [order (parseSymbol symbol) z "t-short-exit" true])).
Proof.
  split; [apply marketSell_orders | apply closeShort_orders].
Qed.

Lemma tryCatch_prefixes {A : Type} (c : M A) (prefix : string) v tr m tr' :
  tryCatch c (fun e => throw (prefix ++ e)) v tr = (Throw m, tr') ->
  exists e, m = (prefix ++ e)%string /\ c v tr = (Throw e, tr').
Proof.
  unfold tryCatch, throw. destruct (c v tr) as [[a|e] tr0]; intro H.
  - discriminate H.
  - exists e. injection H as <- <-. split; reflexivity.
Qed.

(** X19: every error a close throws starts with the prefix of its action,
    whichever step failed: the contract lookup, the conversion, or the order
    submission. *)
Theorem X19_close_errors_carry_action t symbol amount v tr m tr' :
  (marketSell t symbol amount v tr = (Throw m, tr') ->
   exists e, m = (longExitPrefix ++ e)%string) /\
  (closeShort t symbol amount v tr = (Throw m, tr') ->
   exists e, m = (shortExitPrefix ++ e)%string).
Proof.
  split; intro H.
  - unfold marketSell in H. apply tryCatch_prefixes in H.
    destruct H as (e & He & _). exists e. exact He.
  - unfold closeShort in H. apply tryCatch_prefixes in H.
    destruct H as (e & He & _). exists e. exact He.
Qed.

Lemma X19_close_errors_carry_action_witness :
  exists e,
    "Market sell (long exit) failed: Failed to get contract info: fetch failed"%string =
      (longExitPrefix ++ e)%string.
Proof.
  eassert (E : marketSell usdtTrader btc 1 downVenue [] = (Throw _, _))
    by (vm_compute; reflexivity).
  apply (proj1 (X19_close_errors_carry_action usdtTrader btc 1 downVenue [] _ _) E).
Defined.

Lemma marketBuy_orders t symbol amount v tr :
  exists ext,
    snd (marketBuy t symbol amount v tr) = tr ++ ext /\
    (placedOrders t ext = [] \/
     exists k, (1 <= k)%Z /\
       placedOrders t ext =
         [order (parseSymbol symbol) (inject_Z k) "t-long-entry" false]).
Proof.
  destruct (calculateContractsFromPercentage t symbol amount long v tr)
    as [[s|m] tr1] eqn:H;
    destruct (trace_of_reads _ _ _ _ _ (calculate_reads t symbol amount long) H)
      as (e1 & E1 & G1).
  - destruct (proj1 (entry_sized_order t symbol amount v tr s tr1) H)
      as [Hrun Hn].
    rewrite Hrun. cbn [snd]. eexists (e1 ++ [_]). subst tr1. rewrite app_assoc.
    split; [reflexivity|]. right. exists (contracts s). split; [exact Hn|].
    apply placedOrders_after_reads. exact G1.
  - destruct (proj1 (entry_sizing_error t symbol amount v tr m tr1) H)
      as [Hrun _].
    rewrite Hrun. cbn [snd]. exists e1. split; [exact E1|].
    left. apply onlyGets_placedOrders. exact G1.
Qed.

Lemma openShort_orders t symbol amount v tr :
  exists ext,
    snd (openShort t symbol amount v tr) = tr ++ ext /\
    (placedOrders t ext = [] \/
     exists k, (1 <= k)%Z /\
       placedOrders t ext =
         [order (parseSymbol symbol) (- inject_Z k) "t-short-entry" false]).
Proof.
  destruct (calculateContractsFromPercentage t symbol amount short v tr)
    as [[s|m] tr1] eqn:H;
    destruct (trace_of_reads _ _ _ _ _ (calculate_reads t symbol amount short) H)
      as (e1 & E1 & G1).
  - destruct (proj2 (entry_sized_order t symbol amount v tr s tr1) H)
      as [Hrun Hn].
    rewrite Hrun. cbn [snd]. eexists (e1 ++ [_]). subst tr1. rewrite app_assoc.
    split; [reflexivity|]. right. exists (contracts s). split; [exact Hn|].
    apply placedOrders_after_reads. exact G1.
  - destruct (proj2 (entry_sizing_error t symbol amount v tr m tr1) H)
      as [Hrun _].
    rewrite Hrun. cbn [snd]. exists e1. split; [exact E1|].
    left. apply onlyGets_placedOrders. exact G1.
Qed.

(** *** The dispatcher *)

Lemma handleWebhook_trace (p : payload) v tr (c : M jsval) :
  snd (bind c (fun result =>
         ret {| outAction := action p; outSymbol := symbol p;
                outAmount := amount p; outOrder := result |}) v tr) =
  snd (c v tr).
Proof.
  unfold bind, ret. destruct (c v tr) as [[a|m] tr1]; reflexivity.
Qed.

(** X20: a signal places at most one order, for the contract of its symbol;
    the order of an exit is reduce-only and the order of an entry is not; an
    action that is none of the four is rejected without any request. *)
Theorem X20_one_order_per_signal t p v tr :
  (exists ext,
     snd (handleWebhook t p v tr) = tr ++ ext /\
     (placedOrders t ext = [] \/
      exists body,
        placedOrders t ext = [body] /\
        getProp body "contract" = JStr (parseSymbol (symbol p)) /\
        getProp body "reduce_only" = JBool (isExit (action p)))) /\
  (Auth.includes Gateway.validActions (action p) = false ->
   handleWebhook t p v tr = (Throw ("Unknown action: " ++ action p)%string, tr)).
Proof.
  split.
  - unfold handleWebhook. rewrite handleWebhook_trace. unfold isExit.
    destruct (String.eqb (action p) "long_entry") eqn:A1.
    { apply String.eqb_eq in A1. rewrite A1.
      destruct (marketBuy_orders t (symbol p) (JNum (amount p)) v tr)
        as (ext & E & [H|(k & _ & H)]); exists ext; (split; [exact E|]);
        [left; exact H | right; eexists; split; [exact H | split; reflexivity]]. }
    destruct (String.eqb (action p) "long_exit") eqn:A2.
    { destruct (marketSell_orders t (symbol p) (amount p) v tr)
        as (ext & E & [H|(z & _ & H)]); exists ext; (split; [exact E|]);
        [left; exact H | right; eexists; split; [exact H | split; reflexivity]]. }
    destruct (String.eqb (action p) "short_entry") eqn:A3.
    { apply String.eqb_eq in A3. rewrite A3.
      destruct (openShort_orders t (symbol p) (JNum (amount p)) v tr)
        as (ext & E & [H|(k & _ & H)]); exists ext; (split; [exact E|]);
        [left; exact H | right; eexists; split; [exact H | split; reflexivity]]. }
    destruct (String.eqb (action p) "short_exit") eqn:A4.
    { destruct (closeShort_orders t (symbol p) (amount p) v tr)
        as (ext & E & [H|(z & _ & H)]); exists ext; (split; [exact E|]);
        [left; exact H | right; eexists; split; [exact H | split; reflexivity]]. }
    exists []. rewrite app_nil_r. split; [reflexivity | left; reflexivity].
  - intro H. unfold Auth.includes, Gateway.validActions in H. cbn [existsb] in H.
    repeat (apply orb_false_iff in H; destruct H as [? H]).
    unfold handleWebhook.
    repeat match goal with
    | E : String.eqb _ _ = false |- _ => rewrite E; clear E
    end.
    reflexivity.
Qed.

Lemma X20_one_order_per_signal_witness :
  handleWebhook usdtTrader
    {| action := "close_long"; amount := 10; symbol := btc; payloadLeverage := 5 |}
    sizingVenue [] = (Throw "Unknown action: close_long"%string, []).
Proof.
  apply (proj2 (X20_one_order_per_signal usdtTrader
                  {| action := "close_long"; amount := 10; symbol := btc;
                     payloadLeverage := 5 |} sizingVenue [])).
  reflexivity.
Defined.

(** *** Lookups on the venue *)

Lemma findPair_none (pair : string) (items : list jsval) :
  Forall (fun item => strictEqStr (getProp item "currency_pair") pair = false) items ->
  findPair pair items = JUndef.
Proof.
  induction 1 as [|x rest Hx _ IH]; [reflexivity|].
  cbn [findPair]. rewrite Hx. exact IH.
Qed.

Lemma findPair_found (pair : string) (items : list jsval) :
  findPair pair items = JUndef \/
  (truthy (findPair pair items) = true /\
   strictEqStr (getProp (findPair pair items) "currency_pair") pair = true).
Proof.
  induction items as [|x rest IH]; [left; reflexivity|].
  cbn [findPair].
  destruct (strictEqStr (getProp x "currency_pair") pair) eqn:E; [|exact IH].
  right. split; [|exact E].
  destruct x; try discriminate E. reflexivity.
Qed.

(** X21: [getMarginAccount] never throws and sends one request.  It answers
    [null] when the request fails; from a list it answers the entry of the
    currency pair when there is one, and otherwise the first entry of the
    list, whatever pair that entry is for. *)
Theorem X21_margin_account_lookup t symbol v tr :
  (exists acct,
     getMarginAccount t symbol v tr = (Ok acct, tr ++ [marginRequest symbol])) /\
  (forall m, v tr (marginRequest symbol) = Throw m ->
     fst (getMarginAccount t symbol v tr) = Ok JNull) /\
  (forall items, v tr (marginRequest symbol) = Ok (JArr items) ->
     findPair (parseSymbol symbol) items <> JUndef ->
     exists acct,
       fst (getMarginAccount t symbol v tr) = Ok acct /\
       strictEqStr (getProp acct "currency_pair") (parseSymbol symbol) = true) /\
  (forall first rest, v tr (marginRequest symbol) = Ok (JArr (first :: rest)) ->
     Forall (fun item =>
               strictEqStr (getProp item "currency_pair") (parseSymbol symbol) = false)
            (first :: rest) ->
     truthy first = true ->
     fst (getMarginAccount t symbol v tr) = Ok first).
Proof.
  assert (U : getMarginAccount t symbol v tr =
    (match v tr (marginRequest symbol) with
     | Ok (JArr items) =>
         Ok (jsOr (jsOr (findPair (parseSymbol symbol) items) (hd JUndef items)) JNull)
     | Ok result =>
         if truthy result &&
            (strictEqStr (getProp result "currency_pair") (parseSymbol symbol) ||
             negb (truthy (getProp result "currency_pair")))
         then Ok result else Ok JNull
     | Throw _ => Ok JNull
     end, tr ++ [marginRequest symbol])).
  { unfold getMarginAccount, tryCatch, bind, get, send, ret.
    fold (marginRequest symbol).
    destruct (v tr (marginRequest symbol)) as [r|m]; [|reflexivity].
    destruct r; try reflexivity;
      match goal with
      | |- context [if ?b && ?c then _ else _] => destruct (b && c)
      end; reflexivity. }
  split; [|split; [|split]].
  - rewrite U. destruct (v tr (marginRequest symbol)) as [r|m]; [|eexists; reflexivity].
    destruct r; try (eexists; reflexivity);
      match goal with
      | |- context [if ?b && ?c then _ else _] => destruct (b && c)
      end; eexists; reflexivity.
  - intros m H. rewrite U, H. reflexivity.
  - intros items H Hfound. rewrite U, H. cbn [fst].
    destruct (findPair_found (parseSymbol symbol) items) as [E|[Ht Hm]];
      [contradiction|].
    eexists. split; [reflexivity|].
    unfold jsOr at 2. rewrite Ht. unfold jsOr. rewrite Ht. exact Hm.
  - intros first rest H Hnone Ht. rewrite U, H. cbn [fst hd].
    rewrite (findPair_none _ _ Hnone). unfold jsOr. cbn [truthy]. rewrite Ht.
    reflexivity.
Qed.

Lemma X21_margin_account_lookup_witness :
  fst (getMarginAccount usdtTrader btc
         (fun _ _ => Ok (JArr [JObj [("currency_pair", JStr "ETH_USDT");
                                     ("quote", JObj [("available", JStr "9")])]%string]))
         []) =
    Ok (JObj [("currency_pair", JStr "ETH_USDT");
              ("quote", JObj [("available", JStr "9")])]%string).
Proof.
  apply (proj2 (proj2 (proj2 (X21_margin_account_lookup usdtTrader btc
           (fun _ _ => Ok (JArr [JObj [("currency_pair", JStr "ETH_USDT");
                                       ("quote", JObj [("available", JStr "9")])]%string]))
           []))) _ [] eq_refl).
  - repeat constructor.
  - reflexivity.
Defined.

Lemma findContract_found (contract : string) (items : list jsval) :
  findContract contract items = JUndef \/
  (truthy (findContract contract items) = true /\
   strictEqStr (getProp (findContract contract items) "contract") contract = true).
Proof.
  induction items as [|x rest IH]; [left; reflexivity|].
  cbn [findContract].
  destruct (strictEqStr (getProp x "contract") contract) eqn:E; [|exact IH].
  right. split; [|exact E].
  destruct x; try discriminate E. reflexivity.
Qed.

Lemma tryParseResult_shape (contract : string) (result : jsval) :
  tryParseResult contract result = JNull \/
  (truthy (tryParseResult contract result) = true /\
   namesContract contract (tryParseResult contract result) = true).
Proof.
  unfold tryParseResult, namesContract.
  destruct (truthy result) eqn:Ht; [|left; reflexivity]. cbn [negb].
  destruct result; try discriminate Ht;
    try (match goal with
         | |- context [if ?b then _ else _] =>
             destruct b eqn:E; [right; split; assumption | left; reflexivity]
         end).
  destruct (findContract_found contract items) as [E|[Hf Hm]].
  - left. rewrite E. reflexivity.
  - right. unfold jsOr. rewrite Hf. split; [exact Hf|]. rewrite Hm. reflexivity.
Qed.

Lemma tryAccountEndpoint_run contract path params v tr :
  exists r,
    tryAccountEndpoint contract path params v tr =
      (Ok r, tr ++ [{| method := "GET"; endpoint := path; data := JNull;
                       query := params |}]) /\
    (r = JNull \/ (truthy r = true /\ namesContract contract r = true)).
Proof.
  unfold tryAccountEndpoint, tryCatch, bind, get, send, ret.
  destruct (v tr _) as [result|m].
  - eexists. split; [reflexivity | apply tryParseResult_shape].
  - eexists. split; [reflexivity | left; reflexivity].
Qed.

(** X22: [getAccountForContract] never throws and sends one or two GET
    requests; what it returns is [null] or a payload that names the contract
    of the symbol, in [contract] or in [symbol]. *)
Theorem X22_contract_account_lookup t symbol v tr :
  exists acct ext,
    getAccountForContract t symbol v tr = (Ok acct, tr ++ ext) /\
    (acct = JNull \/ namesContract (parseSymbol symbol) acct = true) /\
    onlyGets ext /\ (1 <= List.length ext <= 2)%nat.
Proof.
  unfold getAccountForContract.
  destruct (tryAccountEndpoint_run (parseSymbol symbol)
              (futuresPath t ("/accounts/" ++ parseSymbol symbol)) "" v tr)
    as (r1 & E1 & S1).
  rewrite (bind_ok _ _ _ _ _ _ E1).
  destruct S1 as [->|[Ht Hn]].
  - cbn [truthy].
    match goal with
    | |- context [tryAccountEndpoint ?c ?pth ?q] =>
        destruct (tryAccountEndpoint_run c pth q v
                    (tr ++ [{| method := "GET";
                               endpoint := futuresPath t ("/accounts/" ++ parseSymbol symbol);
                               data := JNull; query := "" |}]))
          as (r2 & E2 & S2)
    end.
    rewrite (bind_ok _ _ _ _ _ _ E2).
    exists (if truthy r2 then r2 else JNull). eexists [_; _].
    split; [destruct (truthy r2); unfold ret; rewrite <- app_assoc; reflexivity|].
    split; [|split; [repeat constructor | cbn; lia]].
    destruct S2 as [->|[Ht2 Hn2]]; [left; reflexivity|].
    rewrite Ht2. right. exact Hn2.
  - rewrite Ht. exists r1. eexists [_].
    split; [reflexivity|]. split; [right; exact Hn|].
    split; [repeat constructor | cbn; lia].
Qed.

(** X23: [getPosition] asks the single-position endpoint first and, when it
    gets a truthy payload, returns its normalization without a second
    request; when that request fails it asks the list endpoint, and when
    both fail it returns [null] after the two requests. *)
Theorem X23_position_lookup t symbol v tr :
  (forall raw, v tr (positionRequest t symbol) = Ok raw -> truthy raw = true ->
     getPosition t symbol v tr =
       (Ok (normalizePositionPayload raw (parseSymbol symbol)),
        tr ++ [positionRequest t symbol])) /\
  (forall m m', v tr (positionRequest t symbol) = Throw m ->
     v (tr ++ [positionRequest t symbol]) (positionsRequest t) = Throw m' ->
     getPosition t symbol v tr =
       (Ok JNull, tr ++ [positionRequest t symbol; positionsRequest t])).
Proof.
  split.
  - intros raw H Ht.
    unfold getPosition, fetchSinglePosition, bind, tryCatch, get, send, ret.
    fold (positionRequest t symbol). rewrite H.
    rewrite normalize_truthy, Ht. reflexivity.
  - intros m m' H H'.
    unfold getPosition, fetchSinglePosition, fetchListedPosition,
      bind, tryCatch, get, send, ret.
    fold (positionRequest t symbol). rewrite H. cbn [truthy].
    fold (positionsRequest t). rewrite H'. rewrite <- app_assoc. reflexivity.
Qed.

Lemma X23_position_lookup_witness :
  getPosition usdtTrader btc downVenue [] =
    (Ok JNull, [] ++ [positionRequest usdtTrader btc; positionsRequest usdtTrader]) /\
  getPosition usdtTrader btc flatVenue [] =
    (Ok (normalizePositionPayload
           (JObj [("contract", JStr "BTC_USDT"); ("size", JNum 0)]%string)
           (parseSymbol btc)),
     [] ++ [positionRequest usdtTrader btc]).
Proof.
  split.
  - apply (proj2 (X23_position_lookup usdtTrader btc downVenue [])
             "fetch failed"%string "fetch failed"%string); reflexivity.
  - apply (proj1 (X23_position_lookup usdtTrader btc flatVenue [])); reflexivity.
Defined.

(** ** Properties of the request authentication *)

Lemma includes_In (l : list string) (x : string) :
  Auth.includes l x = true <-> In x l.
Proof.
  unfold Auth.includes. rewrite existsb_exists. split.
  - intros (y & Hy & E). apply String.eqb_eq in E. subst y. exact Hy.
  - intro H. exists x. split; [exact H | apply String.eqb_refl].
Qed.

(** X24: with the allow-list switched on, a request is valid only if the
    client address, taken from [CF-Connecting-IP] or else from the first
    entry of [X-Forwarded-For], is one of the four listed addresses; with it
    switched off the headers play no part in the answer. *)
Theorem X24_allow_list_gate e payload :
  (forall h,
     Auth.ENABLE_IP_WHITELIST e = Some "true"%string ->
     Auth.valid (Auth.validateRequest h e payload) = true ->
     exists ip, Auth.clientIP h = Some ip /\ In ip Auth.tradingViewIPs) /\
  (forall h h',
     Auth.ENABLE_IP_WHITELIST e <> Some "true"%string ->
     Auth.validateRequest h e payload = Auth.validateRequest h' e payload).
Proof.
  split.
  - intros h Hon Hv. unfold Auth.validateRequest in Hv. rewrite Hon in Hv.
    cbn [String.eqb Ascii.eqb Bool.eqb andb] in Hv.
    destruct (Auth.clientIP h) as [ip|] eqn:Eip; [|discriminate Hv].
    destruct (negb (String.eqb ip "") && Auth.includes Auth.tradingViewIPs ip) eqn:El;
      [|discriminate Hv].
    apply andb_true_iff in El. destruct El as [_ El].
    exists ip. split; [reflexivity | apply includes_In; exact El].
  - intros h h' Hoff. unfold Auth.validateRequest.
    destruct (Auth.ENABLE_IP_WHITELIST e) as [flag|]; [|reflexivity].
    destruct (String.eqb flag "true") eqn:E; [|reflexivity].
    apply String.eqb_eq in E. subst flag. exfalso. apply Hoff. reflexivity.
Qed.

Lemma X24_allow_list_gate_witness :
  exists ip,
    Auth.clientIP {| Auth.cfConnectingIP := None;
                     Auth.xForwardedFor := Some "34.212.75.30, 10.0.0.1"%string |} =
      Some ip /\ In ip Auth.tradingViewIPs.
Proof.
  apply (proj1 (X24_allow_list_gate
                  {| Auth.ENABLE_IP_WHITELIST := Some "true"%string;
                     Auth.WEBHOOK_SECRET := None |} JNull)); reflexivity.
Defined.

(** X25: with a secret configured and a truthy payload, a request is valid
    only if the payload's [secret] is that very string.  The check is skipped
    for a falsy payload such as [null], and without a configured secret:
    then, the allow-list being off, every request is valid. *)
Theorem X25_shared_secret_gate h e payload :
  (forall secret,
     Auth.WEBHOOK_SECRET e = Some secret -> secret <> ""%string ->
     truthy payload = true ->
     Auth.valid (Auth.validateRequest h e payload) = true ->
     getProp payload "secret" = JStr secret) /\
  (Auth.ENABLE_IP_WHITELIST e <> Some "true"%string ->
   truthy payload = false \/ Auth.WEBHOOK_SECRET e = None \/
     Auth.WEBHOOK_SECRET e = Some ""%string ->
   Auth.validateRequest h e payload = {| Auth.valid := true; Auth.error := None |}).
Proof.
  split.
  - intros secret Hs Hne Ht Hv. unfold Auth.validateRequest in Hv.
    rewrite Hs, Ht in Hv.
    assert (En : String.eqb secret "" = false) by (apply String.eqb_neq; exact Hne).
    rewrite En in Hv. cbn [negb andb] in Hv.
    match type of Hv with
    | Auth.valid (if ?b then _ else _) = true => destruct b; [discriminate Hv|]
    end.
    destruct (strictEqStr (getProp payload "secret") secret) eqn:E;
      [|discriminate Hv].
    destruct (getProp payload "secret"); try discriminate E.
    apply String.eqb_eq in E. subst. reflexivity.
  - intros Hoff Hskip. unfold Auth.validateRequest.
    assert (Eoff : match Auth.ENABLE_IP_WHITELIST e with
                   | Some v => String.eqb v "true"
                   | None => false
                   end = false).
    { destruct (Auth.ENABLE_IP_WHITELIST e) as [flag|]; [|reflexivity].
      destruct (String.eqb flag "true") eqn:E; [|reflexivity].
      apply String.eqb_eq in E. subst flag. exfalso. apply Hoff. reflexivity. }
    rewrite Eoff. cbn [andb].
    destruct Hskip as [Hf|[Hn|Hem]].
    + rewrite Hf. destruct (Auth.WEBHOOK_SECRET e); [|reflexivity].
      rewrite andb_false_r. reflexivity.
    + rewrite Hn. reflexivity.
    + rewrite Hem. reflexivity.
Qed.

Lemma X25_shared_secret_gate_witness :
  Auth.validateRequest
    {| Auth.cfConnectingIP := None; Auth.xForwardedFor := None |}
    {| Auth.ENABLE_IP_WHITELIST := None; Auth.WEBHOOK_SECRET := Some "s3cret"%string |}
    JNull = {| Auth.valid := true; Auth.error := None |} /\
  getProp (JObj [("secret", JStr "s3cret")]%string) "secret" = JStr "s3cret".
Proof.
  split.
  - apply (proj2 (X25_shared_secret_gate
                    {| Auth.cfConnectingIP := None; Auth.xForwardedFor := None |}
                    {| Auth.ENABLE_IP_WHITELIST := None;
                       Auth.WEBHOOK_SECRET := Some "s3cret"%string |} JNull));
      [discriminate | left; reflexivity].
  - apply (proj1 (X25_shared_secret_gate
                    {| Auth.cfConnectingIP := None; Auth.xForwardedFor := None |}
                    {| Auth.ENABLE_IP_WHITELIST := None;
                       Auth.WEBHOOK_SECRET := Some "s3cret"%string |}
                    (JObj [("secret", JStr "s3cret")]%string)) "s3cret"%string);
      [reflexivity | discriminate | reflexivity | reflexivity].
Defined.

(** ** Properties of the rate limiter *)

Lemma ttl_covers (ms : Q) : ms <= RateLimiter.ttlFor ms * 1000.
Proof.
  unfold RateLimiter.ttlFor.
  pose proof (Qle_ceiling (ms / 1000)) as Hc.
  pose proof (Q.le_max_r 60 (inject_Z (Qceiling (ms / 1000)))) as Hm.
  assert (H : ms / 1000 <= Qmax 60 (inject_Z (Qceiling (ms / 1000))))
    by (eapply Qle_trans; eassumption).
  apply Qmult_le_compat_r with (z := 1000) in H; [|discriminate].
  assert (E : ms / 1000 * 1000 == ms) by field.
  rewrite E in H. exact H.
Qed.

Lemma windowOpen_get key windowEnd admitted ns now :
  windowOpen key windowEnd admitted ns -> now < windowEnd ->
  exists data,
    RateLimiter.kvGet now key ns = Some data /\
    RateLimiter.resetAt data == windowEnd /\
    RateLimiter.count data == inject_Z (Z.of_nat admitted).
Proof.
  intros (st & rest & -> & Hr & Hc & He) Hnow.
  exists (RateLimiter.document st). cbn [RateLimiter.kvGet].
  rewrite String.eqb_refl.
  assert (E : Qltb now (RateLimiter.expiresAt st) = true) by (apply Qltb_true; lra).
  rewrite E. repeat split; assumption.
Qed.

Lemma limiter_step l id windowEnd n admitted ns now :
  RateLimiter.maxRequests l == inject_Z (Z.of_nat n) ->
  windowOpen (RateLimiter.getKey l id) windowEnd admitted ns ->
  (1 <= admitted <= n)%nat ->
  now < windowEnd ->
  exists ns',
    RateLimiter.isRateLimited l id now (Some ns) = (Nat.leb n admitted, Some ns') /\
    windowOpen (RateLimiter.getKey l id) windowEnd
               (if Nat.leb n admitted then admitted else S admitted) ns'.
Proof.
  intros Hmax Hopen Hadm Hnow.
  destruct (windowOpen_get _ _ _ _ _ Hopen Hnow) as (data & Hget & Hr & Hc).
  unfold RateLimiter.isRateLimited. rewrite Hget.
  assert (E1 : Qle_bool (RateLimiter.resetAt data) now = false)
    by (apply Qle_bool_false; lra).
  rewrite E1.
  destruct (Nat.leb n admitted) eqn:En.
  - apply Nat.leb_le in En.
    assert (E2 : Qle_bool (RateLimiter.maxRequests l) (RateLimiter.count data) = true).
    { apply Qle_bool_iff. rewrite Hmax, Hc, <- Zle_Qle. lia. }
    rewrite E2. exists ns. split; [reflexivity | exact Hopen].
  - apply Nat.leb_gt in En.
    assert (E2 : Qle_bool (RateLimiter.maxRequests l) (RateLimiter.count data) = false).
    { apply Qle_bool_false. rewrite Hmax, Hc, <- Zlt_Qlt. lia. }
    rewrite E2. eexists. split; [reflexivity|].
    unfold RateLimiter.kvPut. eexists _, _. split; [reflexivity|].
    cbn [RateLimiter.document RateLimiter.resetAt RateLimiter.count
         RateLimiter.expiresAt].
    split; [exact Hr|]. split.
    + rewrite Hc, Nat2Z.inj_succ, <- Z.add_1_r, inject_Z_plus. reflexivity.
    + pose proof (ttl_covers (RateLimiter.resetAt data - now)) as Ht. lra.
Qed.

Lemma serve_in_window l id windowEnd n (later : list Q) :
  RateLimiter.maxRequests l == inject_Z (Z.of_nat n) ->
  Forall (fun t => t < windowEnd) later ->
  forall i ns,
    (1 <= i)%nat ->
    windowOpen (RateLimiter.getKey l id) windowEnd (Nat.min i n) ns ->
    (1 <= n)%nat ->
    exists ns',
      RateLimiter.serve l id later (Some ns) =
        (map (Nat.leb n) (seq i (List.length later)), Some ns') /\
      windowOpen (RateLimiter.getKey l id) windowEnd
                 (Nat.min (i + List.length later) n) ns'.
Proof.
  intros Hmax Hall. induction Hall as [|t rest Ht _ IH]; intros i ns Hi Hopen Hn.
  - exists ns. cbn [RateLimiter.serve List.length seq map].
    rewrite Nat.add_0_r. split; [reflexivity | exact Hopen].
  - destruct (limiter_step l id windowEnd n (Nat.min i n) ns t Hmax Hopen
                ltac:(lia) Ht) as (ns1 & Hstep & Hopen1).
    assert (Eans : Nat.leb n (Nat.min i n) = Nat.leb n i).
    { destruct (Nat.leb n i) eqn:E.
      - apply Nat.leb_le in E. apply Nat.leb_le. lia.
      - apply Nat.leb_gt in E. apply Nat.leb_gt. lia. }
    assert (Enext : (if Nat.leb n (Nat.min i n) then Nat.min i n else S (Nat.min i n))
                    = Nat.min (S i) n).
    { rewrite Eans. destruct (Nat.leb n i) eqn:E.
      - apply Nat.leb_le in E. lia.
      - apply Nat.leb_gt in E. lia. }
    rewrite Enext in Hopen1.
    destruct (IH (S i) ns1 ltac:(lia) Hopen1 Hn) as (ns' & Hrun & Hopen').
    exists ns'. cbn [RateLimiter.serve List.length seq map].
    rewrite Hstep, Hrun, Eans. split; [reflexivity|].
    replace (i + S (List.length rest))%nat with (S i + List.length rest)%nat by lia.
    exact Hopen'.
Qed.

Lemma first_request_opens l id ns t0 :
  RateLimiter.kvGet t0 (RateLimiter.getKey l id) ns = None ->
  exists ns1,
    RateLimiter.isRateLimited l id t0 (Some ns) = (false, Some ns1) /\
    windowOpen (RateLimiter.getKey l id) (t0 + RateLimiter.windowMs l) 1 ns1.
Proof.
  intro Hnone. unfold RateLimiter.isRateLimited. rewrite Hnone.
  eexists. split; [reflexivity|].
  unfold RateLimiter.kvPut. eexists _, _. split; [reflexivity|].
  cbn [RateLimiter.document RateLimiter.resetAt RateLimiter.count RateLimiter.expiresAt].
  split; [reflexivity|]. split; [reflexivity|].
  pose proof (ttl_covers (RateLimiter.windowMs l)) as Ht. lra.
Qed.

Lemma serve_from_fresh l id ns t0 later n :
  RateLimiter.kvGet t0 (RateLimiter.getKey l id) ns = None ->
  RateLimiter.maxRequests l == inject_Z (Z.of_nat n) -> (1 <= n)%nat ->
  Forall (fun t => t < t0 + RateLimiter.windowMs l) later ->
  exists ns',
    RateLimiter.serve l id (t0 :: later) (Some ns) =
      (map (Nat.leb n) (seq 0 (S (List.length later))), Some ns') /\
    windowOpen (RateLimiter.getKey l id) (t0 + RateLimiter.windowMs l)
               (Nat.min (S (List.length later)) n) ns'.
Proof.
  intros Hnone Hmax Hn Hall.
  destruct (first_request_opens l id ns t0 Hnone) as (ns1 & Hfirst & Hopen1).
  assert (Hopen1' : windowOpen (RateLimiter.getKey l id) (t0 + RateLimiter.windowMs l)
                               (Nat.min 1 n) ns1).
  { replace (Nat.min 1 n) with 1%nat by lia. exact Hopen1. }
  destruct (serve_in_window l id _ n later Hmax Hall 1%nat ns1 (le_n 1) Hopen1' Hn)
    as (ns' & Hrun & Hopen').
  exists ns'. cbn [RateLimiter.serve seq map]. rewrite Hfirst, Hrun.
  assert (E0 : Nat.leb n 0 = false) by (apply Nat.leb_gt; lia).
  rewrite E0. split; [reflexivity | exact Hopen'].
Qed.

(** X26: for a client the namespace holds nothing about, with a limit of
    [n >= 1] requests, the requests made at [t0] and then at any times
    before [t0 + windowMs] are answered in order: the first [n] are let
    through and every later one is limited. *)
Theorem X26_limit_within_window l id ns t0 later n :
  RateLimiter.kvGet t0 (RateLimiter.getKey l id) ns = None ->
  RateLimiter.maxRequests l == inject_Z (Z.of_nat n) -> (1 <= n)%nat ->
  Forall (fun t => t < t0 + RateLimiter.windowMs l) later ->
  fst (RateLimiter.serve l id (t0 :: later) (Some ns)) =
    map (Nat.leb n) (seq 0 (S (List.length later))).
Proof.
  intros Hnone Hmax Hn Hall.
  destruct (serve_from_fresh l id ns t0 later n Hnone Hmax Hn Hall)
    as (ns' & Hrun & _).
  rewrite Hrun. reflexivity.
Qed.

Lemma X26_limit_within_window_witness :
  fst (RateLimiter.serve (RateLimiter.construct (Some 2) None None) "1.2.3.4"
         [0; 10; 20; 59999] (Some [])) = [false; false; true; true].
Proof.
  apply (X26_limit_within_window (RateLimiter.construct (Some 2) None None)
           "1.2.3.4" [] 0 [10; 20; 59999] 2);
    [reflexivity | reflexivity | lia | repeat constructor].
Defined.

(** X27: once the window has run out, at [t0 + windowMs] or later, the next
    request of the client is let through, however many of its requests were
    limited before. *)
Theorem X27_limit_ends_with_window l id ns t0 later n t' :
  RateLimiter.kvGet t0 (RateLimiter.getKey l id) ns = None ->
  RateLimiter.maxRequests l == inject_Z (Z.of_nat n) -> (1 <= n)%nat ->
  Forall (fun t => t < t0 + RateLimiter.windowMs l) later ->
  t0 + RateLimiter.windowMs l <= t' ->
  fst (RateLimiter.isRateLimited l id t'
         (snd (RateLimiter.serve l id (t0 :: later) (Some ns)))) = false.
Proof.
  intros Hnone Hmax Hn Hall Hafter.
  destruct (serve_from_fresh l id ns t0 later n Hnone Hmax Hn Hall)
    as (ns' & Hrun & (st & rest & -> & Hr & _ & _)).
  rewrite Hrun. cbn [snd]. unfold RateLimiter.isRateLimited.
  cbn [RateLimiter.kvGet]. rewrite String.eqb_refl.
  destruct (Qltb t' (RateLimiter.expiresAt st)); [|reflexivity].
  assert (E : Qle_bool (RateLimiter.resetAt (RateLimiter.document st)) t' = true)
    by (apply Qle_bool_iff; lra).
  rewrite E. reflexivity.
Qed.

Lemma X27_limit_ends_with_window_witness :
  fst (RateLimiter.isRateLimited (RateLimiter.construct (Some 2) None None) "1.2.3.4"
         60000
         (snd (RateLimiter.serve (RateLimiter.construct (Some 2) None None) "1.2.3.4"
                 [0; 10; 20; 59999] (Some [])))) = false.
Proof.
  apply (X27_limit_ends_with_window (RateLimiter.construct (Some 2) None None)
           "1.2.3.4" [] 0 [10; 20; 59999] 2 60000);
    [reflexivity | reflexivity | lia | repeat constructor | discriminate].
Defined.

(** ** Properties of the gateway *)

Lemma firstBlank_none (payload : jsval) (fields : list string) :
  Gateway.firstBlank payload fields = None ->
  Forall (fun f => Gateway.isBlank (getProp payload f) = false) fields.
Proof.
  induction fields as [|f rest IH]; intro H; [constructor|].
  cbn [Gateway.firstBlank] in H.
  destruct (Gateway.isBlank (getProp payload f)) eqn:E; [discriminate H|].
  constructor; [exact E | apply IH; exact H].
Qed.

Lemma admitted_payload payload a :
  Gateway.validatePayload payload = inr a ->
  getProp payload "action" = JStr (Gateway.accAction a) /\
  In (Gateway.accAction a) Gateway.validActions /\
  Gateway.toNumber (getProp payload "amount") = Some (Gateway.accAmount a) /\
  0 < Gateway.accAmount a /\ Gateway.accAmount a <= 100 /\
  Gateway.toNumber (getProp payload "leverage") = Some (Gateway.accLeverage a) /\
  0 < Gateway.accLeverage a /\ Gateway.accLeverage a <= 125 /\
  Gateway.accSymbol a = getProp payload "symbol" /\
  Gateway.isBlank (Gateway.accSymbol a) = false.
Proof.
  intro H. unfold Gateway.validatePayload in H.
  assert (Hbody :
    match Gateway.firstBlank payload ["action"; "amount"; "symbol"; "leverage"]%string with
    | Some field => inl (Gateway.MissingField field)
    | None =>
        match Gateway.actionOf payload with
        | None => inl Gateway.InvalidAction
        | Some act =>
            match Gateway.toNumber (getProp payload "amount") with
            | None => inl Gateway.AmountNotNumeric
            | Some amountValue =>
                if Qle_bool amountValue 0 || Qltb 100 amountValue
                then inl Gateway.AmountOutOfRange
                else
                  match Gateway.toNumber (getProp payload "leverage") with
                  | None => inl Gateway.LeverageNotNumeric
                  | Some leverageValue =>
                      if Qle_bool leverageValue 0 || Qltb 125 leverageValue
                      then inl Gateway.LeverageOutOfRange
                      else inr {| Gateway.accAction := act;
                                  Gateway.accAmount := amountValue;
                                  Gateway.accSymbol := getProp payload "symbol";
                                  Gateway.accLeverage := leverageValue |}
                  end
            end
        end
    end = inr a).
  { destruct payload; try discriminate H; exact H. }
  clear H.
  destruct (Gateway.firstBlank payload _) eqn:Eb; [discriminate Hbody|].
  apply firstBlank_none in Eb.
  destruct (Gateway.actionOf payload) as [act|] eqn:Ea; [|discriminate Hbody].
  destruct (Gateway.toNumber (getProp payload "amount")) as [x|] eqn:Ex;
    [|discriminate Hbody].
  destruct (Qle_bool x 0 || Qltb 100 x) eqn:Rx; [discriminate Hbody|].
  destruct (Gateway.toNumber (getProp payload "leverage")) as [l|] eqn:El;
    [|discriminate Hbody].
  destruct (Qle_bool l 0 || Qltb 125 l) eqn:Rl; [discriminate Hbody|].
  injection Hbody as <-.
  cbn [Gateway.accAction Gateway.accAmount Gateway.accSymbol Gateway.accLeverage].
  apply orb_false_iff in Rx. destruct Rx as [Rx0 Rx1].
  apply orb_false_iff in Rl. destruct Rl as [Rl0 Rl1].
  qtests.
  unfold Gateway.actionOf in Ea.
  destruct (getProp payload "action") as [| | | |act'| |] eqn:Eact; try discriminate Ea.
  destruct (Auth.includes Gateway.validActions act') eqn:Ei; [|discriminate Ea].
  injection Ea as <-.
  split; [reflexivity|]. split; [apply includes_In; exact Ei|].
  split; [reflexivity|]. split; [exact Rx0|]. split; [exact Rx1|].
  split; [reflexivity|]. split; [exact Rl0|]. split; [exact Rl1|].
  split; [reflexivity|].
  inversion Eb as [|? ? _ Hrest]. inversion Hrest as [|? ? _ Hrest'].
  inversion Hrest' as [|? ? Hsym _]. exact Hsym.
Qed.


(** X28: what the gateway lets through.  An admitted payload has one of the
    four actions, an amount that converts to a number in (0, 100], a
    leverage that converts to a number in (0, 125] and a symbol that is not
    blank; and the sizing accepts the admitted amount, as a fraction in
    (0, 1]. *)
Theorem X28_admitted_payload payload a :
  Gateway.validatePayload payload = inr a ->
  getProp payload "action" = JStr (Gateway.accAction a) /\
  In (Gateway.accAction a) Gateway.validActions /\
  Gateway.toNumber (getProp payload "amount") = Some (Gateway.accAmount a) /\
  0 < Gateway.accAmount a /\ Gateway.accAmount a <= 100 /\
  Gateway.toNumber (getProp payload "leverage") = Some (Gateway.accLeverage a) /\
  0 < Gateway.accLeverage a /\ Gateway.accLeverage a <= 125 /\
  Gateway.accSymbol a = getProp payload "symbol" /\
  Gateway.isBlank (Gateway.accSymbol a) = false /\
  exists p, normalizePercentage (JNum (Gateway.accAmount a)) = Ok p /\ 0 < p /\ p <= 1.
Proof.
  intro H.
  destruct (admitted_payload payload a H)
    as (Hact & Hin & Hx & Hx0 & Hx1 & Hl & Hl0 & Hl1 & Hsym & Hblank).
  repeat (split; [assumption|]).
  rewrite (normalizePercentage_num _ Hx0). eexists. split; [reflexivity|].
  destruct (Qltb 1 (Gateway.accAmount a)) eqn:E1; qtests.
  - split; [apply Qlt_shift_div_l; lra | apply Qle_shift_div_r; lra].
  - split; assumption.
Qed.

Lemma X28_admitted_payload_witness :
  exists a,
    Gateway.validatePayload
      (JObj [("action", JStr "short_exit"); ("amount", JStr " 3.5 ");
             ("symbol", JStr "BTC/USDT"); ("leverage", JStr "0x14")]%string) = inr a /\
    In (Gateway.accAction a) Gateway.validActions /\
    0 < Gateway.accAmount a /\ Gateway.accAmount a <= 100 /\
    0 < Gateway.accLeverage a /\ Gateway.accLeverage a <= 125.
Proof.
  eassert (E : Gateway.validatePayload
                 (JObj [("action", JStr "short_exit"); ("amount", JStr " 3.5 ");
                        ("symbol", JStr "BTC/USDT"); ("leverage", JStr "0x14")]%string)
               = inr _) by (vm_compute; reflexivity).
  destruct (X28_admitted_payload _ _ E)
    as (_ & Ha & _ & Hx0 & Hx1 & _ & Hl0 & Hl1 & _).
  eexists. split; [exact E|]. repeat (split; [assumption|]). assumption.
Defined.

Lemma typed_signal_rejection a x s l r :
  Gateway.validatePayload (signal a x s l) = inl r -> Gateway.statusOf r = 400%nat.
Proof.
  unfold Gateway.validatePayload, signal. intro H.
  repeat match type of H with
  | match ?c with _ => _ end = _ => destruct c
  | (if ?c then _ else _) = _ => destruct c
  end;
  try discriminate H; injection H as <-; reflexivity.
Qed.

(** X29: for a payload whose fields have the documented types, a string
    action and symbol and a numeric amount and leverage, the gateway admits
    it exactly when the action is one of the four, the symbol is not empty,
    the amount is in (0, 100] and the leverage is in (0, 125], so a leverage
    below 1 is admitted as well; and it answers every other such payload
    with status 400. *)
Theorem X29_typed_signal_admission a x s l :
  ((exists acc, Gateway.validatePayload (signal a x s l) = inr acc) <->
   (In a Gateway.validActions /\ s <> ""%string /\
    0 < x /\ x <= 100 /\ 0 < l /\ l <= 125)) /\
  (forall r, Gateway.validatePayload (signal a x s l) = inl r ->
     Gateway.statusOf r = 400%nat).
Proof.
  split; [|apply typed_signal_rejection].
  split.
  - intros (acc & H).
    destruct (admitted_payload (signal a x s l) acc H)
      as (Hact & Hin & Hx & Hx0 & Hx1 & Hl & Hl0 & Hl1 & Hsym & Hblank).
    cbn in Hact, Hx, Hl, Hsym.
    injection Hact as Hact. injection Hx as Hx. injection Hl as Hl.
    rewrite <- Hact in Hin. rewrite <- Hx in Hx0, Hx1. rewrite <- Hl in Hl0, Hl1.
    rewrite Hsym in Hblank. cbn in Hblank.
    repeat (split; [assumption|]).
    split; [|split; [|split; [|split]]]; try assumption.
    intros ->. discriminate Hblank.
  - intros (Hin & Hs & Hx0 & Hx1 & Hl0 & Hl1).
    unfold Gateway.validatePayload, signal.
    assert (Ea : String.eqb a "" = false).
    { apply String.eqb_neq. intros ->.
      cbn in Hin. repeat (destruct Hin as [Hin|Hin]; [discriminate Hin|]). exact Hin. }
    assert (Es : String.eqb s "" = false) by (apply String.eqb_neq; exact Hs).
    cbn [Gateway.firstBlank getProp lookup String.eqb Ascii.eqb Bool.eqb
         Gateway.isBlank andb].
    rewrite Ea, Es.
    unfold Gateway.actionOf.
    cbn [getProp lookup String.eqb Ascii.eqb Bool.eqb andb].
    rewrite (proj2 (includes_In _ _) Hin).
    cbn [Gateway.toNumber].
    rewrite (proj2 (Qle_bool_false _ _) Hx0), (proj2 (Qltb_false _ _) Hx1).
    rewrite (proj2 (Qle_bool_false _ _) Hl0), (proj2 (Qltb_false _ _) Hl1).
    cbn [orb]. eexists. reflexivity.
Qed.

Lemma X29_typed_signal_admission_witness :
  exists acc,
    Gateway.validatePayload (signal "long_entry" 10 "BTC/USDT" (1 # 2)) = inr acc.
Proof.
  apply (proj2 (proj1 (X29_typed_signal_admission "long_entry" 10 "BTC/USDT" (1 # 2)))).
  repeat split; try reflexivity; try discriminate.
  left. reflexivity.
Defined.

Lemma toUpperCase_length (s : string) :
  String.length (Gateway.toUpperCase s) = String.length s.
Proof.
  induction s as [|c r IH]; [reflexivity|].
  cbn [Gateway.toUpperCase String.length]. rewrite IH. reflexivity.
Qed.

(** X30: the executor is chosen from the upper-cased symbol, the contract
    from the symbol cut at its first colon.  So for an ASCII symbol without
    colon, the symbol and the symbol followed by a settlement suffix trade the
    same contract through two different executors. *)
Theorem X30_executor_key_finer_than_contract base suffix :
  allAscii base = true -> allAscii suffix = true ->
  occurs ":" base = false ->
  parseSymbol (base ++ String ":" suffix) = parseSymbol base /\
  Gateway.symbolKey (base ++ String ":" suffix) <> Gateway.symbolKey base.
Proof.
  intros _ _ Hc. split.
  - unfold parseSymbol.
    rewrite (beforeColon_app base suffix Hc), (beforeColon_id base Hc). reflexivity.
  - unfold Gateway.symbolKey. intro H.
    apply (f_equal String.length) in H.
    rewrite !toUpperCase_length, length_append in H.
    cbn [String.length] in H. lia.
Qed.

Lemma X30_executor_key_finer_than_contract_witness :
  parseSymbol ("BTC/USDT" ++ String ":" "USDT") = parseSymbol "BTC/USDT" /\
  Gateway.symbolKey ("BTC/USDT" ++ String ":" "USDT") <> Gateway.symbolKey "BTC/USDT".
Proof.
  apply (X30_executor_key_finer_than_contract "BTC/USDT" "USDT"); reflexivity.
Defined.
